(** * Open Terms Archive engine: record codec, Recorder and Archivist

    A shallow embedding of
    - [src/archivist/recorder/repositories/git/dataMapper.js] (record codec),
    - [src/archivist/recorder/index.js] (Recorder),
    - the Archivist class (orchestration pipeline),
    together with the properties their specification states about them.

    JavaScript strings are modelled as [string] (sequences of 8-bit
    characters); all the constants of the program are ASCII. *)

From Stdlib Require Import ZArith Ascii String List Bool Lia DecimalString Permutation.
From stdpp Require Import base gmap strings list.

Set Warnings "-register-all".

Open Scope string_scope.
Open Scope list_scope.

(** ** String primitives of the JavaScript runtime *)

Module Str.

(** [s.slice(n)] *)
Fixpoint drop (n : nat) (s : string) : string :=
  match n, s with
  | O, _ => s
  | S _, "" => ""
  | S n', String _ s' => drop n' s'
  end.

(** [s.startsWith(p)] *)
Definition startsWith (s p : string) : bool := String.prefix p s.

(** First occurrence of [pat] in [s]: the text before it and the text
    after it. *)
Fixpoint find_sub (pat s : string) : option (string * string) :=
  if String.prefix pat s then Some ("", drop (String.length pat) s)
  else match s with
       | "" => None
       | String c s' =>
           match find_sub pat s' with
           | Some (a, b) => Some (String c a, b)
           | None => None
           end
       end.

(** [s.includes(pat)] *)
Definition includes (s pat : string) : bool :=
  match find_sub pat s with Some _ => true | None => false end.

(** The expansion of the [$] patterns of a replacement text when the
    pattern of [replace] is a string (there are no capture groups, so
    [$1] and the like stay as they are). *)
Fixpoint getSubstitution (matched before after repl : string) : string :=
  match repl with
  | "" => ""
  | String a tl =>
      if Ascii.eqb a "$" then
        match tl with
        | "" => "$"
        | String c r =>
            if Ascii.eqb c "$" then "$" +:+ getSubstitution matched before after r
            else if Ascii.eqb c "&" then matched +:+ getSubstitution matched before after r
            else if Ascii.eqb c "`" then before +:+ getSubstitution matched before after r
            else if Ascii.eqb c "'" then after +:+ getSubstitution matched before after r
            else "$" +:+ getSubstitution matched before after tl
        end
      else String a (getSubstitution matched before after tl)
  end.

(** [s.replace(pat, repl)] with a string pattern: the first occurrence
    only. *)
Definition replace (s pat repl : string) : string :=
  match find_sub pat s with
  | None => s
  | Some (a, b) => a +:+ getSubstitution pat a b repl +:+ b
  end.

(** [s.split(sep)] for a non-empty separator.  Every cut removes at
    least one character, so [String.length s] rounds are enough. *)
Fixpoint split_fuel (fuel : nat) (sep s : string) : list string :=
  match fuel with
  | O => [s]
  | S fuel' =>
      match find_sub sep s with
      | None => [s]
      | Some (a, b) => a :: split_fuel fuel' sep b
      end
  end.

Definition split (s sep : string) : list string :=
  split_fuel (String.length s) sep s.

(** [l.join(sep)] on an array of strings *)
Definition join (sep : string) (l : list string) : string := String.concat sep l.

(** [String(n)] for a non-negative integer *)
Definition ofNat (n : nat) : string := NilEmpty.string_of_uint (Nat.to_uint n).

(** Text is held as bytes.  The classes of characters and the changes of
    case below are those of JavaScript on ASCII text; on other text
    JavaScript knows more line terminators (U+2028, U+2029), more white
    space (U+00A0 and others) and more letters than these definitions
    do. *)
Definition lowerChar (c : ascii) : ascii :=
  let n := nat_of_ascii c in
  if (65 <=? n)%nat && (n <=? 90)%nat then ascii_of_nat (n + 32) else c.

(** [c.toUpperCase()] on an ASCII character *)
Definition upperChar (c : ascii) : ascii :=
  let n := nat_of_ascii c in
  if (97 <=? n)%nat && (n <=? 122)%nat then ascii_of_nat (n - 32) else c.

(** [s.toLowerCase()] on ASCII text *)
Fixpoint toLowerCase (s : string) : string :=
  match s with
  | "" => ""
  | String c s' => String (lowerChar c) (toLowerCase s')
  end.

Fixpoint forallb (p : ascii -> bool) (s : string) : bool :=
  match s with
  | "" => true
  | String c s' => p c && forallb p s'
  end.

(** Split at the last character satisfying [p]. *)
Fixpoint splitLast (p : ascii -> bool) (s : string) : option (string * string) :=
  match s with
  | "" => None
  | String a s' =>
      match splitLast p s' with
      | Some (b, e) => Some (String a b, e)
      | None => if p a then Some ("", s') else None
      end
  end.

(** [Some r] when [s = r ++ suf]. *)
Fixpoint stripSuffix (suf s : string) : option string :=
  if String.eqb s suf then Some ""
  else match s with
       | "" => None
       | String c s' =>
           match stripSuffix suf s' with
           | Some r => Some (String c r)
           | None => None
           end
       end.

Definition isSlash (c : ascii) : bool := Ascii.eqb c "/".
Definition isDot (c : ascii) : bool := Ascii.eqb c ".".
(** The line terminators among the ASCII characters, where the [.] of a
    regular expression stops. *)
Definition isLineTerminator (c : ascii) : bool :=
  Ascii.eqb c "010" || Ascii.eqb c "013".
(** The white space among the ASCII characters, [\s] there. *)
Definition isSpace (c : ascii) : bool :=
  let n := nat_of_ascii c in
  ((9 <=? n)%nat && (n <=? 13)%nat) || (n =? 32)%nat.

(** [\w] of a regular expression without the unicode flag *)
Definition isWordChar (c : ascii) : bool :=
  let n := nat_of_ascii c in
  ((48 <=? n)%nat && (n <=? 57)%nat) || ((65 <=? n)%nat && (n <=? 90)%nat)
  || ((97 <=? n)%nat && (n <=? 122)%nat) || (n =? 95)%nat.

(** [[0-9]] *)
Definition isDigit (c : ascii) : bool :=
  let n := nat_of_ascii c in (48 <=? n)%nat && (n <=? 57)%nat.

(** [[0-9a-f]] *)
Definition isLowerHex (c : ascii) : bool :=
  let n := nat_of_ascii c in
  ((48 <=? n)%nat && (n <=? 57)%nat) || ((97 <=? n)%nat && (n <=? 102)%nat).

Definition flush (acc : string) : list string :=
  match acc with "" => [] | _ => [acc] end.

(** The maximal runs of word characters of [s], left to right; [acc] is
    the run being read. *)
Fixpoint scan (acc s : string) : list string :=
  match s with
  | "" => flush acc
  | String c s' =>
      if isWordChar c then scan (acc +:+ String c "") s'
      else flush acc ++ scan "" s'
  end.

Definition words (s : string) : list string := scan "" s.

(** The part of [s] before its first line terminator, and the rest. *)
Fixpoint breakLine (s : string) : string * string :=
  match s with
  | "" => ("", "")
  | String c s' =>
      if isLineTerminator c then ("", s)
      else let '(l, r) := breakLine s' in (String c l, r)
  end.

(** [s.replace(/^.*[...]/, '')] where the class is [p]: [.] does not
    cross a line terminator, and [.*] is greedy. *)
Definition dropThroughLast (p : ascii -> bool) (s : string) : string :=
  let '(line, rest) := breakLine s in
  match splitLast p line with
  | Some (_, e) => e +:+ rest
  | None => s
  end.

End Str.

(** ** [path] of Node.js, POSIX flavour *)

Module Path.

Fixpoint stripTrailingSlashes (s : string) : string :=
  match s with
  | "" => ""
  | String c s' =>
      match stripTrailingSlashes s' with
      | "" => if Str.isSlash c then "" else String c ""
      | r => String c r
      end
  end.

(** The last component of a path, trailing slashes ignored. *)
Definition lastComponent (p : string) : string :=
  let q := stripTrailingSlashes p in
  match Str.splitLast Str.isSlash q with
  | Some (_, c) => c
  | None => q
  end.

(** [path.dirname(p)].  The scan of Node stops before the first
    character, which only tells whether the path is rooted. *)
Definition dirname (p : string) : string :=
  match p with
  | "" => "."
  | String c0 tl =>
      match Str.splitLast Str.isSlash (stripTrailingSlashes tl) with
      | Some (b, _) =>
          if Str.isSlash c0 && String.eqb b "" then "//" else String c0 b
      | None => if Str.isSlash c0 then "/" else "."
      end
  end.

(** [path.extname(p)]: from the last dot of the last component, unless
    that component has no dot, starts with its only dot, or is [..]. *)
Definition extname (p : string) : string :=
  let comp := lastComponent p in
  match Str.splitLast Str.isDot comp with
  | None => ""
  | Some (b, e) =>
      if String.eqb b "" then ""
      else if String.eqb comp ".." then ""
      else "." +:+ e
  end.

(** [path.basename(p, suffix)] *)
Definition basename (p : string) (suffix : option string) : string :=
  let comp := lastComponent p in
  match suffix with
  | None => comp
  | Some suf =>
      if negb (String.eqb suf "") && (String.length suf <=? String.length p)%nat then
        if String.eqb suf p then ""
        else match Str.stripSuffix suf comp with
             | Some "" => comp
             | Some r => r
             | None =>
                 match Str.stripSuffix comp suf with
                 | Some _ =>
                     (* the component ran out while the suffix still matched *)
                     comp +:+ Str.drop (String.length (stripTrailingSlashes p)) p
                 | None => comp
                 end
             end
      else comp
  end.

End Path.

(** ** JavaScript values *)

Module Js.

(** The values the Recorder receives in its parameter objects.  A date
    is the number of milliseconds since the epoch; numbers are integers
    (the program computes with none). *)
Inductive val :=
| Undefined
| Null
| Bool (b : bool)
| Num (n : Z)
| Str (s : string)
| Date (ms : Z)
| Arr (l : list val).

(** [ToBoolean]: what [!v] and [v ? _ : _] test.  Objects, and so arrays
    and dates, are truthy whatever they hold. *)
Definition truthy (v : val) : bool :=
  match v with
  | Undefined | Null => false
  | Bool b => b
  | Num n => negb (n =? 0)%Z
  | Str s => negb (String.eqb s "")
  | Date _ | Arr _ => true
  end.

(** An object used as a record of named fields.  A key bound to
    [Undefined] is not the same object as one without the key, though a
    read gives [Undefined] for both. *)
Abbreviation obj := (gmap string val).

(** [o.k], and the destructuring [{ k } = o] *)
Definition get (o : obj) (k : string) : val := default Undefined (o !! k).

(** [{ ...a, ...b }]: the keys of [b] win. *)
Definition spread (a b : obj) : obj := b ∪ a.

(** An object literal [{ k1: v1, ..., kn: vn }] with distinct keys. *)
Definition object (fields : list (string * val)) : obj := list_to_map fields.

(** Truthiness of an optional string ([undefined] when absent). *)
Definition truthyStr (o : option string) : bool :=
  match o with
  | Some s => negb (String.eqb s "")
  | None => false
  end.

End Js.

(** ** The [mime] package (2.x and 3.x)

    An instance holds two tables: [types] from extension to type and
    [extensions] from type to preferred extension.  The standard tables
    are data of the package and stay a parameter of the development. *)

Module Mime.

Record t := { types : gmap string string; extensions : gmap string string }.

Inductive error :=
| ChangeMapping (ext from to : string)   (* Attempt to change mapping for ... *)
| TypeError.                             (* no extension given for a type *)

(** The inner loop of [define]: bind every extension to [type]. *)
Fixpoint defineTypes (force : bool) (type : string) (exts : list string)
    (ty : gmap string string) : error + gmap string string :=
  match exts with
  | [] => inr ty
  | ext :: rest =>
      if Str.startsWith ext "*" then defineTypes force type rest ty
      else match (if force then None else ty !! ext) with
           | Some old => inl (ChangeMapping ext old type)
           | None => defineTypes force type rest (<[ext := type]> ty)
           end
  end.

Definition defineOne (force : bool) (m : t) (entry : string * list string) : error + t :=
  let type := Str.toLowerCase (fst entry) in
  let exts := map Str.toLowerCase (snd entry) in
  match defineTypes force type exts (types m) with
  | inl e => inl e
  | inr ty =>
      if force || negb (Js.truthyStr (extensions m !! type)) then
        match exts with
        | [] => inl TypeError
        | ext :: _ =>
            inr {| types := ty;
                   extensions :=
                     <[type := if Str.startsWith ext "*" then Str.drop 1 ext else ext]>
                       (extensions m) |}
        end
      else inr {| types := ty; extensions := extensions m |}
  end.

(** [mime.define(typeMap, force)] *)
Fixpoint define (typeMap : list (string * list string)) (force : bool) (m : t) : error + t :=
  match typeMap with
  | [] => inr m
  | entry :: rest =>
      match defineOne force m entry with
      | inl e => inl e
      | inr m' => define rest force m'
      end
  end.

(** [mime.getType(path)], for a path in ASCII *)
Definition getType (m : t) (path : string) : option string :=
  let last := Str.toLowerCase
                (Str.dropThroughLast (fun c => Str.isSlash c || Ascii.eqb c "\") path) in
  let ext := Str.toLowerCase (Str.dropThroughLast Str.isDot last) in
  let hasPath := (String.length last <? String.length path)%nat in
  let hasDot := (String.length ext + 1 <? String.length last)%nat in
  if hasDot || negb hasPath then
    match types m !! ext with
    | Some ty => if String.eqb ty "" then None else Some ty
    | None => None
    end
  else None.

(** The text the expression of [getExtension] captures: leading white
    space skipped, then everything up to a semicolon or a space. *)
Fixpoint skipSpaces (s : string) : string :=
  match s with
  | "" => ""
  | String c s' => if Str.isSpace c then skipSpaces s' else s
  end.

Fixpoint takeType (s : string) : string :=
  match s with
  | "" => ""
  | String c s' =>
      if Str.isSpace c || Ascii.eqb c ";" then "" else String c (takeType s')
  end.

(** [mime.getExtension(type)], for a type in ASCII; an absent argument
    reads as the text [undefined]. *)
Definition getExtension (m : t) (type : option string) : option string :=
  let type := takeType (skipSpaces (default "undefined" type)) in
  if String.eqb type "" then None
  else match extensions m !! Str.toLowerCase type with
       | Some e => if String.eqb e "" then None else Some e
       | None => None
       end.

End Mime.

(** ** The record codec, [dataMapper.js] *)

Module DataMapper.

Definition LF : string := String "010" "".

(** A date as the codec sees it: the text git printed, or an instant. *)
Inductive date :=
| DateOfString (s : string)
| DateOfMillis (ms : Z).

(** Modelled from the spec: the class [Record] ([record.js] is not among
    the sources).  Spec section 3 gives its fields: identity ([id],
    [serviceId], [termsType], [documentId]), content ([content],
    [mimeType]), [fetchDate], the kind flags and the lineage
    [snapshotIds]; a record is built for one save or decode and never
    changed, so building one stores the fields given.  An absent
    [snapshotIds] reads as the empty list, the default [toPersistence]
    gives it. *)
Record record := {
  id : option string;
  serviceId : string;
  termsType : string;
  documentId : option string;
  mimeType : option string;
  fetchDate : option date;
  isFirstRecord : bool;
  isExtractOnly : bool;
  snapshotIds : list string;
  content : option string;
}.

Record DiffFile := { file : string }.
Record Diff := { files : list DiffFile }.

(** A commit as the git log hands it over. *)
Record Commit := {
  hash : string;
  date_ : string;
  message : string;
  body : string;
  diff : Diff;
}.

Record Persistence := {
  p_message : string;
  p_content : option string;
  p_filePath : string;
}.

Inductive error :=
| Error (msg : string)
| PathTypeError.   (* [path.extname(undefined)] *)

Module COMMIT_MESSAGE_PREFIX.
Definition startTracking := "Initial record of".
Definition extractOnly := "Apply technical or declaration upgrade on".
Definition update := "Record new changes of".
Definition deprecated_startTracking := "Start tracking".
Definition deprecated_refilter := "Refilter".
Definition deprecated_update := "Update".
End COMMIT_MESSAGE_PREFIX.

Definition TERMS_TYPE_AND_DOCUMENT_ID_SEPARATOR := " #".
Definition SNAPSHOT_ID_MARKER := "%SNAPSHOT_ID".
Definition SINGLE_SNAPSHOT_PREFIX :=
  "This version was recorded after an extraction from the snapshot".
Definition MULTIPLE_SNAPSHOT_PREFIX :=
  "This version was recorded after an extraction and an assembling from the following snapshots from %NUMBER source documents:".

(** [Object.values(COMMIT_MESSAGE_PREFIX)], in the order of the keys. *)
Definition COMMIT_MESSAGE_PREFIX_values : list string :=
  [COMMIT_MESSAGE_PREFIX.startTracking; COMMIT_MESSAGE_PREFIX.extractOnly;
   COMMIT_MESSAGE_PREFIX.update; COMMIT_MESSAGE_PREFIX.deprecated_startTracking;
   COMMIT_MESSAGE_PREFIX.deprecated_refilter; COMMIT_MESSAGE_PREFIX.deprecated_update].

(** What [COMMIT_MESSAGE_PREFIXES_REGEXP] captures in a message.  The
    expression is the alternation of the prefixes, anchored at the start
    of the text; no prefix has a character special to regular
    expressions, so an alternative matches when it starts the message,
    and the first one that does is the match. *)
Definition COMMIT_MESSAGE_PREFIXES_REGEXP (message : string) : option string :=
  List.find (fun prefix => Str.startsWith message prefix) COMMIT_MESSAGE_PREFIX_values.

Section WithMime.

(** The standard tables of the [mime] package. *)
Variable standard : Mime.t.

(** Line 7: [mime.define({ 'text/markdown': ['md'] }, true)].  With
    [force] set the call does not throw (lemma [define_markdown]). *)
Definition mime : Mime.t :=
  match Mime.define [("text/markdown", ["md"])] true standard with
  | inr m => m
  | inl _ => standard
  end.

Definition generateFileName (termsType : string) (documentId : option string)
    (extension : string) : string :=
  termsType
  +:+ (if Js.truthyStr documentId
       then TERMS_TYPE_AND_DOCUMENT_ID_SEPARATOR +:+ default "" documentId
       else "")
  +:+ "." +:+ extension.

Definition generateFilePath (serviceId termsType : string)
    (documentId mimeType : option string) : string :=
  let extension := default "*" (Mime.getExtension mime mimeType) in
  serviceId +:+ "/" +:+ generateFileName termsType documentId extension.

Definition toPersistence (r : record) (snapshotIdentiferTemplate : string) : Persistence :=
  let prefix :=
    if isExtractOnly r then COMMIT_MESSAGE_PREFIX.extractOnly
    else COMMIT_MESSAGE_PREFIX.update in
  let prefix := if isFirstRecord r then COMMIT_MESSAGE_PREFIX.startTracking else prefix in
  let subject := prefix +:+ " " +:+ serviceId r +:+ " " +:+ termsType r in
  let documentIdMessage :=
    if Js.truthyStr (documentId r)
    then "Document ID " +:+ default "" (documentId r) +:+ LF +:+ LF
    else "" in
  let ids := snapshotIds r in
  let snapshotIdsMessage : option string :=
    if (length ids =? 1)%nat then
      Some (SINGLE_SNAPSHOT_PREFIX +:+ " "
            +:+ Str.replace snapshotIdentiferTemplate SNAPSHOT_ID_MARKER (hd "" ids))
    else if (1 <? length ids)%nat then
      Some (Str.replace MULTIPLE_SNAPSHOT_PREFIX "%NUMBER" (Str.ofNat (length ids))
            +:+ LF
            +:+ Str.join LF
                  (map (fun snapshotId =>
                          "- " +:+ Str.replace snapshotIdentiferTemplate
                                     SNAPSHOT_ID_MARKER snapshotId) ids))
    else None in
  let filePath :=
    generateFilePath (serviceId r) (termsType r) (documentId r) (mimeType r) in
  {| p_message := subject +:+ LF +:+ LF +:+ documentIdMessage +:+ LF +:+ LF
                  +:+ default "" snapshotIdsMessage;
     p_content := content r;
     p_filePath := filePath |}.

(** A word is a snapshot id when it matches [[0-9a-f]{5,40}]. *)
Definition isSnapshotId (w : string) : bool :=
  Str.forallb Str.isLowerHex w
  && (5 <=? String.length w)%nat && (String.length w <=? 40)%nat.

(** [body.match(/\b[0-9a-f]{5,40}\b/g)].  Every character the pattern
    accepts is a word character, so between two word boundaries it
    matches a whole maximal run of word characters or nothing; the
    result is [null] when nothing matches. *)
Definition matchSnapshotIds (body : string) : option (list string) :=
  match filter (fun w => isSnapshotId w = true) (Str.words body) with
  | [] => None
  | l => Some l
  end.

Definition toDomain (commit : Commit) : error + record :=
  let modifiedFilesInCommit := map file (files (diff commit)) in
  if (1 <? length modifiedFilesInCommit)%nat then
    inl (Error ("Only one file should have been recorded in " +:+ hash commit
                +:+ ", but all these files were recorded: "
                +:+ Str.join ", " modifiedFilesInCommit))
  else
    match modifiedFilesInCommit with
    | [] => inl PathTypeError
    | relativeFilePath :: _ =>
        let snapshotIdsMatch := matchSnapshotIds (body commit) in
        let parts :=
          Str.split (Path.basename relativeFilePath
                       (Some (Path.extname relativeFilePath)))
                    TERMS_TYPE_AND_DOCUMENT_ID_SEPARATOR in
        inr {| id := Some (hash commit);
               serviceId := Path.dirname relativeFilePath;
               termsType := default "" (parts !! 0%nat);
               documentId := parts !! 1%nat;
               mimeType := Mime.getType mime relativeFilePath;
               fetchDate := Some (DateOfString (date_ commit));
               isFirstRecord :=
                 Str.startsWith (message commit) COMMIT_MESSAGE_PREFIX.startTracking
                 || Str.startsWith (message commit)
                      COMMIT_MESSAGE_PREFIX.deprecated_startTracking;
               isExtractOnly :=
                 Str.startsWith (message commit) COMMIT_MESSAGE_PREFIX.extractOnly
                 || Str.startsWith (message commit)
                      COMMIT_MESSAGE_PREFIX.deprecated_refilter;
               snapshotIds := default [] snapshotIdsMatch;
               content := None |}
    end.

(** Modelled from the spec: how a saved change-unit is read back (the
    git repository module is not among the sources).  Spec section 6
    lays the commit message out as the subject line, a blank line and the
    rest; section 4.1 has the decoder match the prefixes against the
    commit subject and scan the commit body.  So [message] is the text
    before the first blank line, [body] the text after it, and the diff
    lists the one file written. *)
Definition commitOf (hash date : string) (p : Persistence) : Commit :=
  match Str.find_sub (LF +:+ LF) (p_message p) with
  | Some (subject, rest) =>
      {| hash := hash; date_ := date; message := subject; body := rest;
         diff := {| files := [ {| file := p_filePath p |} ] |} |}
  | None =>
      {| hash := hash; date_ := date; message := p_message p; body := "";
         diff := {| files := [ {| file := p_filePath p |} ] |} |}
  end.

End WithMime.

End DataMapper.

(** ** The Recorder, [recorder/index.js] *)

Module Recorder.

(** The errors the validation throws, by message. *)
Inductive error :=
| ServiceIdRequired      (* A service ID is required *)
| DocumentTypeRequired   (* A document type is required *)
| SnapshotIdRequired (serviceId documentType : Js.val)
    (* A snapshot ID is required to ensure data consistency for ...'s ... *)
| FetchDateRequired
    (* The fetch date of the snapshot is required to ensure data consistency *)
| ContentRequired        (* A document content is required *)
| MimeTypeRequired.
    (* A document mime type is required to ensure data consistency *)

(** What a repository offers.  [Rec] is the class [Record], [R] what the
    promise of [save] settles to, [L] what a lookup settles to; none of
    them is looked into by the Recorder. *)
Class Repository (St Rec R L : Type) := {
  save : Rec -> St -> R * St;
  findLatestByServiceIdAndDocumentType : Js.val -> Js.val -> St -> L;
}.

Section WithRepositories.

Context {V S Rec R L : Type}.
Context {versions : Repository V Rec R L} {snapshots : Repository S Rec R L}.

(** [new Record(fields)]; the class is not among the sources. *)
Variable newRecord : Js.obj -> Rec.

Record state := {
  versionsRepository : V;
  snapshotsRepository : S;
}.

(** A call either throws a validation error, leaving the repositories
    alone, or hands over to a repository. *)
Inductive outcome :=
| Threw (e : error)
| Returned (r : R).

Definition require (v : Js.val) (e : error) (k : state -> outcome * state)
  : state -> outcome * state :=
  fun st => if Js.truthy v then k st else (Threw e, st).

Definition saveSnapshot (record : Rec) : state -> outcome * state :=
  fun st =>
    let '(r, s') := save record (snapshotsRepository st) in
    (Returned r,
     {| versionsRepository := versionsRepository st; snapshotsRepository := s' |}).

Definition saveVersion (record : Rec) : state -> outcome * state :=
  fun st =>
    let '(r, v') := save record (versionsRepository st) in
    (Returned r,
     {| versionsRepository := v'; snapshotsRepository := snapshotsRepository st |}).

Definition getLatestSnapshot (serviceId documentType : Js.val) (st : state) : L :=
  findLatestByServiceIdAndDocumentType serviceId documentType (snapshotsRepository st).

Definition recordSnapshot (params : Js.obj) : state -> outcome * state :=
  let serviceId := Js.get params "serviceId" in
  let documentType := Js.get params "documentType" in
  let fetchDate := Js.get params "fetchDate" in
  let mimeType := Js.get params "mimeType" in
  let content := Js.get params "content" in
  require serviceId ServiceIdRequired (
  require documentType DocumentTypeRequired (
  require fetchDate FetchDateRequired (
  require content ContentRequired (
  require mimeType MimeTypeRequired (
  saveSnapshot
    (newRecord
       (Js.object [("serviceId", serviceId); ("documentType", documentType);
                   ("fetchDate", fetchDate); ("mimeType", mimeType);
                   ("content", content)]))))))).

Definition recordVersion (params : Js.obj) : state -> outcome * state :=
  let serviceId := Js.get params "serviceId" in
  let documentType := Js.get params "documentType" in
  let snapshotId := Js.get params "snapshotId" in
  let fetchDate := Js.get params "fetchDate" in
  let mimeType := Js.get params "mimeType" in
  let content := Js.get params "content" in
  let isRefilter := Js.get params "isRefilter" in
  require serviceId ServiceIdRequired (
  require documentType DocumentTypeRequired (
  require snapshotId (SnapshotIdRequired serviceId documentType) (
  require fetchDate FetchDateRequired (
  require content ContentRequired (
  require mimeType MimeTypeRequired (
  saveVersion
    (newRecord
       (Js.object [("serviceId", serviceId); ("documentType", documentType);
                   ("snapshotId", snapshotId); ("fetchDate", fetchDate);
                   ("mimeType", mimeType); ("content", content);
                   ("isRefilter", isRefilter)])))))))).

Definition recordRefilter (params : Js.obj) : state -> outcome * state :=
  recordVersion (Js.spread (Js.object [("isRefilter", Js.Bool true)]) params).

End WithRepositories.

Arguments state : clear implicits.
Arguments outcome : clear implicits.

End Recorder.

(** ** The Archivist *)

Module Archivist.

Definition MAX_PARALLEL_TERMS_TRACKS : Z := 1.
Definition MAX_PARALLEL_TERMS_TRACKS_WITH_EXTRACT_ONLY : Z := 10.

(** A document of a terms declaration. *)
Record Document := {
  location : string;
  executeClientScripts : Js.val;
  cssSelectors : Js.val;
  doc_id : option string;
}.

Record Service := { service_id : string }.

Record Terms := {
  service : Service;
  termsType : string;
  documents : list Document;
  isMultiDocument : bool;
}.

(** A record as [getLatestSnapshot] returns it. *)
Record Snapshot := {
  id : string;
  documentId : option string;
  content : string;
  mimeType : Js.val;
  fetchDate : Js.val;
}.

(** What a save resolves to: [{ id, isFirstRecord }]. *)
Record SaveResult := {
  res_id : option string;
  res_isFirstRecord : bool;
}.

Record FetchParams := {
  url : string;
  f_executeClientScripts : Js.val;
  f_cssSelectors : Js.val;
}.

(** [Promise.all] over calls that touch no state: the values, or a
    failure when one of them failed. *)
Fixpoint sequence {X A : Type} (l : list (X + A)) : X + list A :=
  match l with
  | [] => inr []
  | inl e :: _ => inl e
  | inr a :: rest =>
      match sequence rest with
      | inl e => inl e
      | inr l' => inr (a :: l')
      end
  end.

Section WithErrors.

(** Errors that are not of a class of the engine. *)
Variable E : Type.

Inductive fetchError :=
| FetchDocumentError (message : string)
| OtherFetchError (e : E).

Inductive exn :=
| FetchFailure (e : fetchError)
| InaccessibleContentError (messages : list string)
| Failure (e : E).

Inductive FetchOutcome :=
| Fetched (mimeType content : string)
| FetchThrew (e : fetchError).

(** The parameters of [Archivist.recordSnapshot]. *)
Record SnapshotParams := {
  sp_content : string;
  sp_mimeType : string;
  sp_fetchDate : Js.val;
  sp_serviceId : string;
  sp_termsType : string;
  sp_documentId : Js.val;
}.

(** The parameters of [Archivist.recordVersion]. *)
Record VersionParams := {
  vp_content : string;
  vp_fetchDate : Js.val;
  vp_snapshotIds : list string;
  vp_serviceId : string;
  vp_termsType : string;
  vp_extractOnly : Js.val;
}.

Inductive event :=
| snapshotNotChanged (serviceId termsType : string) (documentId : Js.val)
| firstSnapshotRecorded (serviceId termsType : string) (documentId : Js.val)
    (snapshotId : string)
| snapshotRecorded (serviceId termsType : string) (documentId : Js.val)
    (snapshotId : string)
| versionNotChanged (serviceId termsType : string)
| firstVersionRecorded (serviceId termsType versionId : string)
| versionRecorded (serviceId termsType versionId : string)
| trackingStarted (services terms : Z) (extractOnly : Js.val)
| trackingCompleted (services terms : Z) (extractOnly : Js.val)
| inaccessibleContent (error : exn) (serviceId termsType : string) (terms : Terms)
| error (error : exn) (serviceId termsType : string).

Record Task := { task_terms : Terms; task_extractOnly : Js.val }.

(** The part of the [async] queue the Archivist touches. *)
Record Queue := {
  concurrency : Z;
  tasks : list Task;
}.

(** The interface of [this.recorder]. *)
Class RecorderOps (St : Type) := {
  recorder_recordSnapshot : Js.obj -> St -> (exn + SaveResult) * St;
  recorder_recordVersion : Js.obj -> St -> (exn + SaveResult) * St;
  recorder_getLatestSnapshot : string -> string -> Js.val -> St -> exn + option Snapshot;
}.

(** A service of the loaded declarations. *)
Record ServiceDeclaration := {
  getTermsTypes : list string;
  getTerms : string -> Terms;
  getNumberOfTerms : Z;
}.

Section WithCollaborators.

Context {St : Type} {ops : RecorderOps St}.

(** [fetch], [extract] and the loaded declarations.  A run fetches each
    document once; [fetch] gives the answer to each request. *)
Variable fetch : FetchParams -> FetchOutcome.
Variable extract : string -> Js.val -> option Document -> E + string.
Variable services : list (string * ServiceDeclaration).

(** The instant at which the fetch of the i-th document settled
    ([new Date()] is read after the [await]). *)
Variable settledAt : nat -> Z.

(** The order in which the fetches of one terms settle, as indices
    into its documents; in a run every index occurs once. *)
Variable order : list nat.

(** [error.toString()] *)
Variable describe : exn -> string.

(** [servicesIds.sort((a, b) => a.localeCompare(b))] *)
Variable sortIds : list string -> list string.

Record state := {
  recorder : St;
  events : list event;
  trackingQueue : Queue;
}.

Definition M (A : Type) : Type := state -> (exn + A) * state.

Definition ret {A} (a : A) : M A := fun st => (inr a, st).
Definition throw {A} (e : exn) : M A := fun st => (inl e, st).
Definition bind {A B} (m : M A) (k : A -> M B) : M B :=
  fun st =>
    match m st with
    | (inl e, st') => (inl e, st')
    | (inr a, st') => k a st'
    end.

Notation "'let*' x := m 'in' k" := (bind m (fun x => k))
  (at level 10, x pattern, m at level 100, k at level 200).

(** [this.emit(event, ...)]: the event is kept, in order.  The
    listeners are not part of the state here, and are not run: what they
    do on an event, and first of all what the listener [initialize]
    installs does on [error], is outside. *)
Definition emit (ev : event) : M unit :=
  fun st =>
    (inr tt, {| recorder := recorder st; events := events st ++ [ev];
                trackingQueue := trackingQueue st |}).

(** A call into the recorder. *)
Definition onRecorder {A} (f : St -> (exn + A) * St) : M A :=
  fun st =>
    let '(r, s') := f (recorder st) in
    (r, {| recorder := s'; events := events st;
           trackingQueue := trackingQueue st |}).

(** [Promise.all] over calls that act on the state: they are started
    in order and none is cancelled, so the state is the one reached
    when all have settled.  The failure kept is the first in the order
    of the list, where [Promise.all] keeps the first in time: which one
    it is matters only when several calls fail differently. *)
Fixpoint all {A} (calls : list (M A)) : M (list A) :=
  fun st =>
    match calls with
    | [] => (inr [], st)
    | c :: rest =>
        let '(r, st1) := c st in
        let '(rs, st2) := all rest st1 in
        (match r, rs with
         | inl e, _ => inl e
         | inr _, inl e => inl e
         | inr a, inr l => inr (a :: l)
         end, st2)
    end.

(** [isMultiDocument && documentId] *)
Definition documentIdOf (isMultiDocument : bool) (documentId : option string) : Js.val :=
  if isMultiDocument
  then match documentId with Some d => Js.Str d | None => Js.Undefined end
  else Js.Bool false.

(** How the callback of [fetchTermsDocuments] ends for one document. *)
Inductive settled :=
| Resolved (params : SnapshotParams)
| Soft (message : string)       (* pushed to [inaccessibleContentErrors] *)
| Rejected (e : exn).

Definition fetchDocument (terms : Terms) (i : nat) (document : Document) : settled :=
  match fetch {| url := location document;
                 f_executeClientScripts := executeClientScripts document;
                 f_cssSelectors := cssSelectors document |} with
  | Fetched mimeType content =>
      Resolved {| sp_content := content;
                  sp_mimeType := mimeType;
                  sp_serviceId := service_id (service terms);
                  sp_termsType := termsType terms;
                  sp_documentId := documentIdOf (isMultiDocument terms) (doc_id document);
                  sp_fetchDate := Js.Date (settledAt i) |}
  | FetchThrew (OtherFetchError e) => Rejected (FetchFailure (OtherFetchError e))
  | FetchThrew (FetchDocumentError message) =>
      if Str.includes message "EAI_AGAIN"
      then Rejected (FetchFailure (FetchDocumentError message))
      else Soft message
  end.

(** The first rejection in the order of settlement: what
    [Promise.all] rejects with. *)
Fixpoint firstRejection (outs : list settled) (order : list nat) : option exn :=
  match order with
  | [] => None
  | i :: rest =>
      match outs !! i with
      | Some (Rejected e) => Some e
      | _ => firstRejection outs rest
      end
  end.

(** [inaccessibleContentErrors] once every fetch has settled. *)
Fixpoint pushed (outs : list settled) (order : list nat) : list string :=
  match order with
  | [] => []
  | i :: rest =>
      match outs !! i with
      | Some (Soft message) => message :: pushed outs rest
      | _ => pushed outs rest
      end
  end.

Definition resolved (outs : list settled) : list SnapshotParams :=
  omap (fun o => match o with Resolved p => Some p | _ => None end) outs.

Definition fetchTermsDocuments (terms : Terms) : M (list SnapshotParams) :=
  let outs := imap (fetchDocument terms) (documents terms) in
  match firstRejection outs order with
  | Some e => throw e
  | None =>
      let inaccessibleContentErrors := pushed outs order in
      if (0 <? length inaccessibleContentErrors)%nat
      then throw (InaccessibleContentError inaccessibleContentErrors)
      else ret (resolved outs)
  end.

Definition getTermsSnapshots (terms : Terms) : M (list Snapshot) :=
  fun st =>
    let found :=
      map (fun document =>
             recorder_getLatestSnapshot (service_id (service terms)) (termsType terms)
               (documentIdOf (isMultiDocument terms) (doc_id document)) (recorder st))
          (documents terms) in
    match sequence found with
    | inl e => (inl e, st)
    | inr latest => (inr (omap (fun o => o) latest), st)
    end.

(** [documents.find(({ id }) => documentId == id)] for a truthy
    [documentId], and [documents[0]] otherwise. *)
Definition documentOf (documentId : option string) (documents : list Document)
  : option Document :=
  if Js.truthyStr documentId then
    List.find (fun d => match doc_id d, documentId with
                        | Some i, Some d' => String.eqb d' i
                        | _, _ => false
                        end) documents
  else head documents.

Definition extractVersionContent (snapshots : list Snapshot) (documents : list Document)
  : M string :=
  match sequence
          (map (fun s => extract (content s) (mimeType s)
                           (documentOf (documentId s) documents)) snapshots) with
  | inl e => throw (Failure e)
  | inr extracted => ret (Str.join (DataMapper.LF +:+ DataMapper.LF) extracted)
  end.

Definition recordSnapshot (p : SnapshotParams) : M (option string) :=
  let* r := onRecorder
         (recorder_recordSnapshot
            (Js.object [("serviceId", Js.Str (sp_serviceId p));
                        ("termsType", Js.Str (sp_termsType p));
                        ("documentId", sp_documentId p);
                        ("content", Js.Str (sp_content p));
                        ("mimeType", Js.Str (sp_mimeType p));
                        ("fetchDate", sp_fetchDate p)])) in
  if Js.truthyStr (res_id r) then
    let snapshotId := default "" (res_id r) in
    let* _ := emit ((if res_isFirstRecord r then firstSnapshotRecorded else snapshotRecorded)
                 (sp_serviceId p) (sp_termsType p) (sp_documentId p) snapshotId) in
    ret (Some snapshotId)
  else
    let* _ := emit (snapshotNotChanged (sp_serviceId p) (sp_termsType p) (sp_documentId p)) in
    ret None.

Definition recordVersion (p : VersionParams) : M unit :=
  let* r := onRecorder
         (recorder_recordVersion
            (Js.object [("serviceId", Js.Str (vp_serviceId p));
                        ("termsType", Js.Str (vp_termsType p));
                        ("content", Js.Str (vp_content p));
                        ("fetchDate", vp_fetchDate p);
                        ("snapshotIds", Js.Arr (map Js.Str (vp_snapshotIds p)));
                        ("extractOnly", vp_extractOnly p)])) in
  if Js.truthyStr (res_id r) then
    emit ((if res_isFirstRecord r then firstVersionRecorded else versionRecorded)
            (vp_serviceId p) (vp_termsType p) (default "" (res_id r)))
  else
    emit (versionNotChanged (vp_serviceId p) (vp_termsType p)).

Definition trackTermsChanges (task : Task) : M unit :=
  let terms := task_terms task in
  let extractOnly := task_extractOnly task in
  let* _ := (if negb (Js.truthy extractOnly)
        then let* fetched := fetchTermsDocuments terms in
             let* _ := all (map recordSnapshot fetched) in
             ret tt
        else ret tt) in
  let* snapshots := getTermsSnapshots terms in
  match snapshots with
  | [] => ret tt
  | first :: _ =>
      let* content := extractVersionContent snapshots (documents terms) in
      recordVersion {| vp_content := content;
                       vp_snapshotIds := map id snapshots;
                       vp_serviceId := service_id (service terms);
                       vp_termsType := termsType terms;
                       vp_fetchDate := fetchDate first;
                       vp_extractOnly := extractOnly |}
  end.

(** The error callback [initQueue] installs on the queue. *)
Definition onTaskError (e : exn) (task : Task) : M unit :=
  let terms := task_terms task in
  if Str.includes (describe e) "HttpError: API rate limit exceeded for user ID"
  then ret tt
  else match e with
       | InaccessibleContentError _ =>
           emit (inaccessibleContent e (service_id (service terms)) (termsType terms) terms)
       | _ => emit (error e (service_id (service terms)) (termsType terms))
       end.

(** One task of the queue: the worker, then the error callback when
    the worker failed. *)
Definition runTask (task : Task) : M unit :=
  fun st =>
    match trackTermsChanges task st with
    | (inl e, st') => onTaskError e task st'
    | (inr _, st') => (inr tt, st')
    end.

Definition initQueue : Queue :=
  {| concurrency := MAX_PARALLEL_TERMS_TRACKS; tasks := [] |}.

Definition setConcurrency (n : Z) : M unit :=
  fun st =>
    (inr tt, {| recorder := recorder st; events := events st;
                trackingQueue := {| concurrency := n;
                                    tasks := tasks (trackingQueue st) |} |}).

Definition push (task : Task) : M unit :=
  fun st =>
    (inr tt, {| recorder := recorder st; events := events st;
                trackingQueue := {| concurrency := concurrency (trackingQueue st);
                                    tasks := tasks (trackingQueue st) ++ [task] |} |}).

Definition lookupService (serviceId : string) : option ServiceDeclaration :=
  snd <$> List.find (fun kv => String.eqb (fst kv) serviceId) services.

(** The terms of one service the callback of [#forEachTermsOf] gets:
    every terms type, or those asked for. *)
Definition termsOfService (termsTypes : list string) (decl : ServiceDeclaration)
  : list Terms :=
  map (getTerms decl)
    (List.filter
       (fun termsType =>
          negb ((0 <? length termsTypes)%nat
                && negb (existsb (String.eqb termsType) termsTypes)))
       (getTermsTypes decl)).

Fixpoint forEachService (termsTypes : list string) (ids : list string)
  : option (list Terms) :=
  match ids with
  | [] => Some []
  | serviceId :: rest =>
      match lookupService serviceId, forEachService termsTypes rest with
      | Some decl, Some scheduled => Some (termsOfService termsTypes decl ++ scheduled)
      | _, _ => None
      end
  end.

(** [#forEachTermsOf]: the terms handed to the callback, in order;
    [None] when a service id is not declared (the caller has then
    already failed on that id in [getNumberOfTerms]). *)
Definition forEachTermsOf (servicesIds termsTypes : list string) : option (list Terms) :=
  forEachService termsTypes (sortIds servicesIds).

(** [getNumberOfTerms(serviceIds)], the counts being integers; [None]
    when a service id is not declared (reading a method of [undefined]
    throws). *)
Fixpoint getNumberOfTermsOf (serviceIds : list string) (acc : Z) : option Z :=
  match serviceIds with
  | [] => Some acc
  | serviceId :: rest =>
      match lookupService serviceId with
      | Some decl => getNumberOfTermsOf rest (acc + getNumberOfTerms decl)%Z
      | None => None
      end
  end.

(** [trackAllTermsChanges] up to its barrier [await
    this.trackingQueue.drain()]: the queue then runs the tasks
    pushed here, [concurrency] at a time.  Launching the browser and
    initialising the recorder leave the state modelled here as it is.
    [None] when the call throws on an undeclared service id. *)
Definition trackAllTermsChanges (servicesIds : option (list string))
    (termsTypes : option (list string)) (extractOnly : Js.val) : state -> option state :=
  fun st =>
    let servicesIds := default (map fst services) servicesIds in
    let termsTypes := default [] termsTypes in
    numberOfTerms ← getNumberOfTermsOf servicesIds 0%Z;
    let '(_, st1) :=
      emit (trackingStarted (Z.of_nat (length servicesIds)) numberOfTerms extractOnly)
        st in
    let '(_, st2) :=
      setConcurrency (if Js.truthy extractOnly
                      then MAX_PARALLEL_TERMS_TRACKS_WITH_EXTRACT_ONLY
                      else MAX_PARALLEL_TERMS_TRACKS) st1 in
    scheduled ← forEachTermsOf servicesIds termsTypes;
    Some (fold_left
            (fun st terms =>
               snd (push {| task_terms := terms; task_extractOnly := extractOnly |} st))
            scheduled st2).

End WithCollaborators.

End WithErrors.

Arguments state : clear implicits.
Arguments M : clear implicits.
Arguments FetchDocumentError {E}.
Arguments OtherFetchError {E}.
Arguments FetchFailure {E}.
Arguments InaccessibleContentError {E}.
Arguments Failure {E}.
Arguments Fetched {E}.
Arguments FetchThrew {E}.
Arguments Resolved {E}.
Arguments Soft {E}.
Arguments Rejected {E}.
Arguments snapshotNotChanged {E}.
Arguments firstSnapshotRecorded {E}.
Arguments snapshotRecorded {E}.
Arguments versionNotChanged {E}.
Arguments firstVersionRecorded {E}.
Arguments versionRecorded {E}.
Arguments trackingStarted {E}.
Arguments trackingCompleted {E}.
Arguments inaccessibleContent {E}.
Arguments error {E}.
Arguments recorder_recordSnapshot {E St _}.
Arguments recorder_recordVersion {E St _}.
Arguments recorder_getLatestSnapshot {E St _}.
Arguments recorder {E St}.
Arguments events {E St}.
Arguments trackingQueue {E St}.
Arguments ret {E St A}.
Arguments throw {E St A}.
Arguments bind {E St A B}.
Arguments emit {E St}.
Arguments onRecorder {E St A}.
Arguments all {E St A}.
Arguments fetchDocument {E}.
Arguments firstRejection {E}.
Arguments pushed {E}.
Arguments resolved {E}.
Arguments fetchTermsDocuments {E St}.
Arguments getTermsSnapshots {E St ops}.
Arguments extractVersionContent {E St}.
Arguments recordSnapshot {E St ops}.
Arguments recordVersion {E St ops}.
Arguments trackTermsChanges {E St ops}.
Arguments onTaskError {E St}.
Arguments runTask {E St ops}.
Arguments setConcurrency {E St}.
Arguments push {E St}.
Arguments trackAllTermsChanges {E St}.

Definition AVAILABLE_EVENTS : list string :=
  ["snapshotRecorded"; "firstSnapshotRecorded"; "snapshotNotChanged";
   "versionRecorded"; "firstVersionRecorded"; "versionNotChanged";
   "trackingStarted"; "trackingCompleted"; "inaccessibleContent"; "error"].

(** The name [attach] looks for in a listener: [on], the first character
    of the event in upper case, the rest of the event.  An empty event
    has no first character to put in upper case ([None]: the source
    throws). *)
Definition handlerName (event : string) : option string :=
  match event with
  | "" => None
  | String c rest => Some ("on" +:+ String (Str.upperChar c) rest)
  end.

(** A property of a listener, as [attach] looks at it: a function; a
    truthy value that is not one and has no method [bind] (a text, a
    number, a plain object); a falsy value.  A property that is not
    there reads [undefined], a falsy value. *)
Inductive property (H : Type) :=
| Method (handler : H)
| OtherTruthy
| FalsyValue.

Arguments Method {H}.
Arguments OtherTruthy {H}.
Arguments FalsyValue {H}.

(** The calls of [this.on] that [attach] makes over a list of events, in
    order, and whether it threw.  For a truthy property that is not a
    function, [listener[handlerName].bind] is not a function and calling
    it throws a [TypeError]; the loop of [forEach] stops there, and what
    was bound before stays bound. *)
Fixpoint attachEvents {H : Type} (listener : gmap string (property H))
    (events : list string) : list (string * H) * bool :=
  match events with
  | [] => ([], false)
  | event :: rest =>
      match handlerName event with
      | None => ([], true)
      | Some name =>
          match listener !! name with
          | Some (Method handler) =>
              let '(bound, threw) := attachEvents listener rest in
              ((event, handler) :: bound, threw)
          | Some OtherTruthy => ([], true)
          | Some FalsyValue | None => attachEvents listener rest
          end
      end
  end.

(** [attach(listener)] *)
Definition attach {H : Type} (listener : gmap string (property H))
  : list (string * H) * bool :=
  attachEvents listener AVAILABLE_EVENTS.

End Archivist.


(** ** The Archivist on the Recorder of the sources

    The constructor of the Archivist builds its recorder with [new
    Recorder(recorderConfig)]: the calls of the pipeline go to the
    functions of [recorder/index.js]. *)

Module Engine.

Section WithRepositories.

Context {V S Rec : Type}.
Context {versions : Recorder.Repository V Rec Archivist.SaveResult (option Archivist.Snapshot)}.
Context {snapshots : Recorder.Repository S Rec Archivist.SaveResult (option Archivist.Snapshot)}.
Variable newRecord : Js.obj -> Rec.

(** The promise of a Recorder call, as the Archivist awaits it. *)
Definition settle (o : Recorder.outcome Archivist.SaveResult * Recorder.state V S)
  : (Archivist.exn Recorder.error + Archivist.SaveResult) * Recorder.state V S :=
  match o with
  | (Recorder.Threw e, st) => (inl (Archivist.Failure e), st)
  | (Recorder.Returned r, st) => (inr r, st)
  end.

(** [getLatestSnapshot] of the Recorder takes two arguments; the document
    id the Archivist passes third is dropped. *)
Definition recorderOps : Archivist.RecorderOps Recorder.error (Recorder.state V S) :=
  {| Archivist.recorder_recordSnapshot := fun params st =>
       settle (Recorder.recordSnapshot newRecord params st);
     Archivist.recorder_recordVersion := fun params st =>
       settle (Recorder.recordVersion newRecord params st);
     Archivist.recorder_getLatestSnapshot := fun serviceId termsType _ st =>
       inr (Recorder.getLatestSnapshot (Js.Str serviceId) (Js.Str termsType) st) |}.

End WithRepositories.

End Engine.

(** ** Concrete data *)

Module Examples.

(** A few entries of the standard tables of [mime]. *)
Definition standard : Mime.t :=
{| Mime.types :=
     list_to_map [("html", "text/html"); ("htm", "text/html");
                  ("pdf", "application/pdf");
                  ("markdown", "text/markdown"); ("md", "text/markdown")];
   Mime.extensions :=
     list_to_map [("text/html", "html"); ("application/pdf", "pdf");
                  ("text/markdown", "markdown")] |}.

Definition twoFiles : DataMapper.Commit :=
{| DataMapper.hash := "b2c3d4e5f6";
   DataMapper.date_ := "2022-01-01T00:00:00Z";
   DataMapper.message := "Record new changes of service Terms of Service";
   DataMapper.body := "";
   DataMapper.diff :=
     {| DataMapper.files :=
          [ {| DataMapper.file := "service/Terms of Service.md" |};
            {| DataMapper.file := "service/Privacy Policy.md" |} ] |} |}.

Definition oneFile : DataMapper.Commit :=
{| DataMapper.hash := "b2c3d4e5f6";
   DataMapper.date_ := "2022-01-01T00:00:00Z";
   DataMapper.message := "Record new changes of service Terms of Service";
   DataMapper.body := "";
   DataMapper.diff :=
     {| DataMapper.files :=
          [ {| DataMapper.file := "service/Terms of Service.md" |} ] |} |}.

(** A repository that keeps what it is given, and answers a save with
  the number of records it held. *)
Definition logRepository : Recorder.Repository (list Js.obj) Js.obj nat (option Js.obj) :=
{| Recorder.save := fun record st => (length st, st ++ [record]);
   Recorder.findLatestByServiceIdAndDocumentType := fun _ _ st => last st |}.

Definition emptyStore : Recorder.state (list Js.obj) (list Js.obj) :=
{| Recorder.versionsRepository := []; Recorder.snapshotsRepository := [] |}.

Definition snapshotParams : Js.obj :=
Js.object [("serviceId", Js.Str "service"); ("documentType", Js.Str "Terms of Service");
           ("fetchDate", Js.Date 1640995200000); ("mimeType", Js.Str "text/html");
           ("content", Js.Str "<html></html>")].

(** All five fields present, the content being the empty text. *)
Definition emptyContentParams : Js.obj :=
Js.object [("serviceId", Js.Str "service"); ("documentType", Js.Str "Terms of Service");
           ("fetchDate", Js.Date 1640995200000); ("mimeType", Js.Str "text/html");
           ("content", Js.Str "")].

(** A version whose lineage is the array the pipeline builds. *)
Definition lineageSetParams : Js.obj :=
Js.object [("serviceId", Js.Str "service"); ("documentType", Js.Str "Terms of Service");
           ("snapshotIds", Js.Arr [Js.Str "abc12"]);
           ("fetchDate", Js.Date 1640995200000); ("mimeType", Js.Str "text/markdown");
           ("content", Js.Str "Terms")].

Definition versionParams (isRefilter : bool) : Js.obj :=
Js.object [("serviceId", Js.Str "service"); ("documentType", Js.Str "Terms of Service");
           ("snapshotId", Js.Str "abc12");
           ("fetchDate", Js.Date 1640995200000); ("mimeType", Js.Str "text/markdown");
           ("content", Js.Str "Terms"); ("isRefilter", Js.Bool isRefilter)].

Definition termsOf (serviceId termsType : string) : Archivist.Terms :=
{| Archivist.service := {| Archivist.service_id := serviceId |};
   Archivist.termsType := termsType;
   Archivist.documents :=
     [ {| Archivist.location := "https://example.org/terms";
          Archivist.executeClientScripts := Js.Undefined;
          Archivist.cssSelectors := Js.Str "body";
          Archivist.doc_id := None |} ];
   Archivist.isMultiDocument := false |}.

Definition declarations : list (string * Archivist.ServiceDeclaration) :=
[ ("service",
   {| Archivist.getTermsTypes := ["Terms of Service"; "Privacy Policy"];
      Archivist.getTerms := termsOf "service";
      Archivist.getNumberOfTerms := 2 |}) ].

Definition idle : Archivist.state string unit :=
{| Archivist.recorder := tt; Archivist.events := [];
   Archivist.trackingQueue := Archivist.initQueue |}.

(** A recorder kept in memory: the snapshots (latest first, with the
  service and terms type they were saved under) and the parameter
  objects of the versions saved. *)
Record Memory := {
snapshots : list (string * string * Archivist.Snapshot);
versions : list Js.obj;
}.

Definition textOf (v : Js.val) : string :=
match v with Js.Str s => s | _ => "" end.

Definition documentIdOfVal (v : Js.val) : option string :=
match v with Js.Str s => Some s | _ => None end.

Definition isSnapshotOf (serviceId termsType : string) (documentId : Js.val)
  (entry : string * string * Archivist.Snapshot) : bool :=
let '(s, t, snapshot) := entry in
String.eqb s serviceId && String.eqb t termsType
&& bool_decide (Archivist.documentId snapshot = documentIdOfVal documentId).

Definition memoryRecorder : Archivist.RecorderOps string Memory :=
{| Archivist.recorder_recordSnapshot := fun params m =>
     let snapshot :=
       {| Archivist.id := "5a17e" +:+ Str.ofNat (length (snapshots m));
          Archivist.documentId := documentIdOfVal (Js.get params "documentId");
          Archivist.content := textOf (Js.get params "content");
          Archivist.mimeType := Js.get params "mimeType";
          Archivist.fetchDate := Js.get params "fetchDate" |} in
     (inr {| Archivist.res_id := Some (Archivist.id snapshot);
             Archivist.res_isFirstRecord :=
               negb (existsb (isSnapshotOf (textOf (Js.get params "serviceId"))
                                (textOf (Js.get params "termsType"))
                                (Js.get params "documentId")) (snapshots m)) |},
      {| snapshots :=
           (textOf (Js.get params "serviceId"), textOf (Js.get params "termsType"),
            snapshot) :: snapshots m;
         versions := versions m |});
   Archivist.recorder_recordVersion := fun params m =>
     (inr {| Archivist.res_id := Some ("7e510" +:+ Str.ofNat (length (versions m)));
             Archivist.res_isFirstRecord := bool_decide (versions m = []) |},
      {| snapshots := snapshots m; versions := versions m ++ [params] |});
   Archivist.recorder_getLatestSnapshot := fun serviceId termsType documentId m =>
     inr (snd <$> List.find (isSnapshotOf serviceId termsType documentId) (snapshots m)) |}.

Definition documentA : Archivist.Document :=
{| Archivist.location := "https://example.org/a";
   Archivist.executeClientScripts := Js.Undefined;
   Archivist.cssSelectors := Js.Str "main";
   Archivist.doc_id := Some "a" |}.

Definition documentB : Archivist.Document :=
{| Archivist.location := "https://example.org/b";
   Archivist.executeClientScripts := Js.Undefined;
   Archivist.cssSelectors := Js.Str "main";
   Archivist.doc_id := Some "b" |}.

Definition twoDocuments : Archivist.Terms :=
{| Archivist.service := {| Archivist.service_id := "service" |};
   Archivist.termsType := "Community Guidelines";
   Archivist.documents := [documentA; documentB];
   Archivist.isMultiDocument := true |}.

(** Document A is fetched; document B cannot be accessed. *)
Definition fetchAOnly (params : Archivist.FetchParams) : Archivist.FetchOutcome string :=
if String.eqb (Archivist.url params) "https://example.org/a"
then Archivist.Fetched "text/html" "<main>A</main>"
else Archivist.FetchThrew
       (Archivist.FetchDocumentError "The selector main has no match in https://example.org/b").

(** Both documents are fetched. *)
Definition fetchBoth (params : Archivist.FetchParams) : Archivist.FetchOutcome string :=
if String.eqb (Archivist.url params) "https://example.org/a"
then Archivist.Fetched "text/html" "foo"
else Archivist.Fetched "text/html" "bar".

(** An extraction that keeps the content as it is. *)
Definition extractAll (content : string) (mimeType : Js.val)
  (document : option Archivist.Document) : string + string :=
inr content.

Definition describeError (e : Archivist.exn string) : string :=
match e with
| Archivist.InaccessibleContentError messages =>
    "InaccessibleContentError: " +:+ Str.join ", " messages
| Archivist.FetchFailure (Archivist.FetchDocumentError message) =>
    "FetchDocumentError: " +:+ message
| Archivist.FetchFailure (Archivist.OtherFetchError e) => "Error: " +:+ e
| Archivist.Failure e => "Error: " +:+ e
end.

Definition fresh : Archivist.state string Memory :=
{| Archivist.recorder := {| snapshots := []; versions := [] |};
   Archivist.events := [];
   Archivist.trackingQueue := Archivist.initQueue |}.

Definition liveTask : Archivist.Task :=
{| Archivist.task_terms := twoDocuments; Archivist.task_extractOnly := Js.Undefined |}.

Definition settledAt (i : nat) : Z := (1640995200000 + Z.of_nat i)%Z.

Definition snapshotA : Archivist.Snapshot :=
{| Archivist.id := "5a17e0";
   Archivist.documentId := Some "a";
   Archivist.content := "foo";
   Archivist.mimeType := Js.Str "text/html";
   Archivist.fetchDate := Js.Date 1640995200000 |}.

Definition snapshotB : Archivist.Snapshot :=
{| Archivist.id := "5a17e1";
   Archivist.documentId := Some "b";
   Archivist.content := "bar";
   Archivist.mimeType := Js.Str "text/html";
   Archivist.fetchDate := Js.Date 1640995200001 |}.

(** The state once the snapshots of both documents are recorded. *)
Definition recorded : Archivist.state string Memory :=
{| Archivist.recorder :=
     {| snapshots := [("service", "Community Guidelines", snapshotB);
                      ("service", "Community Guidelines", snapshotA)];
        versions := [] |};
   Archivist.events :=
     [Archivist.firstSnapshotRecorded "service" "Community Guidelines" (Js.Str "a") "5a17e0";
      Archivist.firstSnapshotRecorded "service" "Community Guidelines" (Js.Str "b") "5a17e1"];
   Archivist.trackingQueue := Archivist.initQueue |}.

Definition template : string := "https://example.org/snapshots/commit/%SNAPSHOT_ID".

(** A version assembled from two snapshots. *)
Definition version : DataMapper.record :=
{| DataMapper.id := None;
   DataMapper.serviceId := "service";
   DataMapper.termsType := "Community Guidelines";
   DataMapper.documentId := None;
   DataMapper.mimeType := Some "text/markdown";
   DataMapper.fetchDate := Some (DataMapper.DateOfMillis 1640995200000);
   DataMapper.isFirstRecord := false;
   DataMapper.isExtractOnly := true;
   DataMapper.snapshotIds := ["abc12"; "de34f"];
   DataMapper.content := Some "Terms" |}.

(** The first version of a terms, obtained by an extract-only run. *)
Definition firstExtractOnlyVersion : DataMapper.record :=
{| DataMapper.id := None;
   DataMapper.serviceId := "service";
   DataMapper.termsType := "Terms of Service";
   DataMapper.documentId := None;
   DataMapper.mimeType := Some "text/markdown";
   DataMapper.fetchDate := Some (DataMapper.DateOfMillis 1640995200000);
   DataMapper.isFirstRecord := true;
   DataMapper.isExtractOnly := true;
   DataMapper.snapshotIds := ["abc12"];
   DataMapper.content := Some "Terms" |}.

(** A snapshot of a document whose id reads as hexadecimal. *)
Definition hexDocumentSnapshot : DataMapper.record :=
{| DataMapper.id := None;
   DataMapper.serviceId := "service";
   DataMapper.termsType := "Terms of Service";
   DataMapper.documentId := Some "decade";
   DataMapper.mimeType := Some "text/html";
   DataMapper.fetchDate := Some (DataMapper.DateOfMillis 1640995200000);
   DataMapper.isFirstRecord := false;
   DataMapper.isExtractOnly := false;
   DataMapper.snapshotIds := [];
   DataMapper.content := Some "<html></html>" |}.

(** A commit of an earlier history, tagged with a prefix no longer
    written. *)
Definition legacyCommit : DataMapper.Commit :=
{| DataMapper.hash := "c0ffee1234";
   DataMapper.date_ := "2021-06-01T00:00:00Z";
   DataMapper.message := "Start tracking service Terms of Service";
   DataMapper.body := "This version was recorded after filtering snapshot 0123abc";
   DataMapper.diff :=
     {| DataMapper.files :=
          [ {| DataMapper.file := "service/Terms of Service.md" |} ] |} |}.

(** A template without the marker for the snapshot id. *)
Definition bareTemplate : string := "https://example.org/snapshots".

(** The same terms, in a run that extracts only. *)
Definition extractOnlyTask : Archivist.Task :=
{| Archivist.task_terms := twoDocuments; Archivist.task_extractOnly := Js.Bool true |}.

(** An extraction that finds nothing to keep. *)
Definition extractNothing (content : string) (mimeType : Js.val)
  (document : option Archivist.Document) : string + string :=
inl "The selector has no match".

(** What the fetches of both documents give. *)
Definition fetchedBoth : list Archivist.SnapshotParams :=
[ {| Archivist.sp_content := "foo"; Archivist.sp_mimeType := "text/html";
     Archivist.sp_fetchDate := Js.Date 1640995200000;
     Archivist.sp_serviceId := "service";
     Archivist.sp_termsType := "Community Guidelines";
     Archivist.sp_documentId := Js.Str "a" |};
  {| Archivist.sp_content := "bar"; Archivist.sp_mimeType := "text/html";
     Archivist.sp_fetchDate := Js.Date 1640995200001;
     Archivist.sp_serviceId := "service";
     Archivist.sp_termsType := "Community Guidelines";
     Archivist.sp_documentId := Js.Str "b" |} ].

(** Repositories that answer the Archivist: a save gives the number of
    the record as its id, a lookup the last snapshot saved. *)
Definition answeringRepository
  : Recorder.Repository (list Js.obj) Js.obj Archivist.SaveResult (option Archivist.Snapshot) :=
{| Recorder.save := fun record st =>
     ({| Archivist.res_id := Some (Str.ofNat (length st));
         Archivist.res_isFirstRecord := bool_decide (st = []) |}, st ++ [record]);
   Recorder.findLatestByServiceIdAndDocumentType := fun _ _ st =>
     (fun record =>
        {| Archivist.id := "5a17e0";
           Archivist.documentId := None;
           Archivist.content := textOf (Js.get record "content");
           Archivist.mimeType := Js.get record "mimeType";
           Archivist.fetchDate := Js.get record "fetchDate" |}) <$> last st |}.

(** The Archivist on the Recorder of the sources, before any save. *)
Definition onRecorder : Archivist.state Recorder.error
                          (Recorder.state (list Js.obj) (list Js.obj)) :=
{| Archivist.recorder := emptyStore;
   Archivist.events := [];
   Archivist.trackingQueue := Archivist.initQueue |}.

(** Every document is fetched. *)
Definition fetchAll (params : Archivist.FetchParams) : Archivist.FetchOutcome Recorder.error :=
Archivist.Fetched "text/html" "<main>Terms</main>".

Definition extractText (content : string) (mimeType : Js.val)
  (document : option Archivist.Document) : Recorder.error + string :=
inr content.

(** The version the run on both documents hands to the recorder, and
    the state once it is saved. *)
Definition assembledVersion : Js.obj :=
Js.object [("serviceId", Js.Str "service");
           ("termsType", Js.Str "Community Guidelines");
           ("content", Js.Str ("foo" +:+ DataMapper.LF +:+ DataMapper.LF +:+ "bar"));
           ("fetchDate", Js.Date 1640995200000);
           ("snapshotIds", Js.Arr [Js.Str "5a17e0"; Js.Str "5a17e1"]);
           ("extractOnly", Js.Undefined)].

Definition versioned : Archivist.state string Memory :=
{| Archivist.recorder :=
     {| snapshots := snapshots (Archivist.recorder recorded);
        versions := [assembledVersion] |};
   Archivist.events :=
     Archivist.events recorded
     ++ [Archivist.firstVersionRecorded "service" "Community Guidelines" "7e5100"];
   Archivist.trackingQueue := Archivist.initQueue |}.

(** The five fields under the names the spec gives them, and under the
    name the Recorder reads the type by; the content is the empty text. *)
Definition namedEmptyContentParams : Js.obj :=
Js.object [("serviceId", Js.Str "service"); ("termsType", Js.Str "Terms of Service");
           ("documentType", Js.Str "Terms of Service");
           ("fetchDate", Js.Date 1640995200000); ("mimeType", Js.Str "text/html");
           ("content", Js.Str "")].

End Examples.

(** ** Vocabulary of the properties *)

Module Spec.

Section Recorder.

Import Recorder.
Context {V S R : Type}.

(** A field is missing when the object gives [undefined] for it. *)
Definition missing (params : Js.obj) (field : string) : Prop :=
  Js.get params field = Js.Undefined.

(** The five fields [recordSnapshot] reads are all truthy. *)
Definition snapshotFieldsTruthy (params : Js.obj) : bool :=
  Js.truthy (Js.get params "serviceId") && Js.truthy (Js.get params "documentType")
  && Js.truthy (Js.get params "fetchDate") && Js.truthy (Js.get params "content")
  && Js.truthy (Js.get params "mimeType").

(** A call is rejected: it throws a validation error and leaves the
repositories as they were. *)
Definition rejects (run : state V S -> outcome R * state V S) (st : state V S) : Prop :=
  exists e, run st = (Threw e, st).

End Recorder.

Section Archivist.

Import Archivist.
Context {E St : Type} {ops : RecorderOps E St}.
Variable fetch : FetchParams -> FetchOutcome E.
Variable settledAt : nat -> Z.
Variable order : list nat.

(** The fetches of the documents of [terms], as they end. *)
Definition outcomes (terms : Terms) : list (settled E) :=
  imap (fetchDocument fetch settledAt terms) (documents terms).

Definition isSoft (o : settled E) : Prop := exists message, o = Soft message.
Definition isHard (o : settled E) : Prop := exists e, o = Rejected e.

(** The messages of the soft failures, in the order of the documents. *)
Definition softMessages (outs : list (settled E)) : list string :=
  omap (fun o => match o with Soft message => Some message | _ => None end) outs.

(** Every fetch settles once. *)
Definition fairOrder (terms : Terms) : Prop :=
  Permutation order (seq 0 (length (documents terms))).

(** The stage of [trackTermsChanges] before the snapshots are loaded
takes [st] to [st1]: nothing happens for an extract-only run;
otherwise every document is fetched and every snapshot recorded. *)
Definition snapshotStage (task : Task) (st st1 : state E St) : Prop :=
  (Js.truthy (task_extractOnly task) = true /\ st1 = st)
  \/ (Js.truthy (task_extractOnly task) = false
  /\ exists fetched ids,
      fetchTermsDocuments fetch settledAt order (task_terms task) st = (inr fetched, st)
      /\ all (map recordSnapshot fetched) st = (inr ids, st1)).

End Archivist.

Section Codec.

Import DataMapper.
Variable standard : Mime.t.

(** Decoding the change-unit that encoding [r] produces. *)
Definition decodeEncoded (template hash date : string) (r : record) : error + record :=
  toDomain standard (commitOf hash date (toPersistence standard r template)).

Definition sameSet (l l' : list string) : Prop := forall x, In x l <-> In x l'.

(** The fields the round trip is to reproduce. *)
Definition reproduces (r r' : record) : Prop :=
  serviceId r' = serviceId r
  /\ termsType r' = termsType r
  /\ documentId r' = documentId r
  /\ mimeType r' = mimeType r
  /\ isFirstRecord r' = isFirstRecord r
  /\ isExtractOnly r' = isExtractOnly r
  /\ sameSet (snapshotIds r') (snapshotIds r).

(** The parts of the message [toPersistence] writes. *)
Definition subjectOf (r : record) : string :=
  (if isFirstRecord r then COMMIT_MESSAGE_PREFIX.startTracking
   else if isExtractOnly r then COMMIT_MESSAGE_PREFIX.extractOnly
   else COMMIT_MESSAGE_PREFIX.update)
  +:+ " " +:+ serviceId r +:+ " " +:+ termsType r.

Definition documentIdMessageOf (r : record) : string :=
  if Js.truthyStr (documentId r)
  then "Document ID " +:+ default "" (documentId r) +:+ LF +:+ LF
  else "".

Definition snapshotIdsMessageOf (template : string) (ids : list string) : string :=
  match ids with
  | [] => ""
  | [snapshotId] =>
  SINGLE_SNAPSHOT_PREFIX +:+ " " +:+ Str.replace template SNAPSHOT_ID_MARKER snapshotId
  | _ =>
  Str.replace MULTIPLE_SNAPSHOT_PREFIX "%NUMBER" (Str.ofNat (length ids))
  +:+ LF
  +:+ Str.join LF
        (map (fun snapshotId =>
                "- " +:+ Str.replace template SNAPSHOT_ID_MARKER snapshotId) ids)
  end.

(** The name of the file, without directory and extension. *)
Definition baseNameOf (r : record) : string :=
  termsType r
  +:+ (if Js.truthyStr (documentId r)
   then TERMS_TYPE_AND_DOCUMENT_ID_SEPARATOR +:+ default "" (documentId r)
   else "").

(** The characters on which the character classes and the change of case
    of [Str] are those of JavaScript: the ASCII ones.  Text is held as
    bytes; a character outside ASCII takes several, each of 128 or
    more. *)
Definition asciiChar (c : ascii) : bool := (nat_of_ascii c <? 128)%nat.

Definition isAscii (s : string) : bool := Str.forallb asciiChar s.

(** A mime type given in ASCII, as the names of mime types are, or not
    given. *)
Definition asciiType (m : option string) : bool :=
  match m with
  | Some ty => isAscii ty
  | None => true
  end.

(** An ASCII character that neither ends a path component nor a line. *)
Definition plainChar (c : ascii) : bool :=
  asciiChar c && negb (Str.isSlash c || Ascii.eqb c "\" || Str.isLineTerminator c).

(** The words of [s] the decoder takes for snapshot ids. *)
Definition snapshotWords (s : string) : list string :=
  filter (fun w => isSnapshotId w = true) (Str.words s).

(** The words of a document id that the decoder takes for snapshot
    ids. *)
Definition documentIdWords (d : option string) : list string :=
  match d with
  | Some d => snapshotWords d
  | None => []
  end.

Definition noSnapshotId (s : string) : bool :=
  forallb (fun w => negb (isSnapshotId w)) (Str.words s).

(** [s] is empty or ends with a character that is not a word character. *)
Fixpoint endsSep (s : string) : bool :=
  match s with
  | "" => true
  | String c "" => negb (Str.isWordChar c)
  | String _ s' => endsSep s'
  end.

Definition startsSep (s : string) : bool :=
  match s with
  | "" => true
  | String c _ => negb (Str.isWordChar c)
  end.

(** A service id names a directory: not empty, not the root, one line
    of ASCII text. *)
Definition validServiceId (s : string) : bool :=
  negb (String.eqb s "") && negb (String.eqb s "/")
  && Str.forallb (fun c => asciiChar c && negb (Str.isLineTerminator c)) s.

(** A terms type or a document id is a part of a file name, free of the
separator between the two. *)
Definition validName (s : string) : bool :=
  negb (String.eqb s "") && Str.forallb plainChar s
  && negb (Str.includes s TERMS_TYPE_AND_DOCUMENT_ID_SEPARATOR).

Definition validDocumentId (d : option string) : bool :=
  match d with
  | None => true
  | Some d => validName d
  end.

Definition validExtension (e : string) : bool :=
  Str.forallb (fun c => plainChar c && negb (Str.isDot c)) e
  && String.eqb (Str.toLowerCase e) e.

(** The mime tables give the mime type an extension and that extension
the same mime type. *)
Definition validMimeType (m : option string) : bool :=
  match m, Mime.getExtension (mime standard) m with
  | Some ty, Some e =>
  isAscii ty && validExtension e && negb (String.eqb ty "")
  && bool_decide (Mime.types (mime standard) !! e = Some ty)
  | _, _ => false
  end.

(** Snapshot ids are what the decoder looks for, and their number is not
itself read as one. *)
Definition validSnapshotIds (ids : list string) : bool :=
  forallb isSnapshotId ids && negb (isSnapshotId (Str.ofNat (length ids))).

Definition validRecord (r : record) : bool :=
  validServiceId (serviceId r) && validName (termsType r)
  && validDocumentId (documentId r) && validMimeType (mimeType r)
  && validSnapshotIds (snapshotIds r).

(** The template has the marker, sets the id it receives apart as a word
and brings no word of its own that reads as a snapshot id. *)
Definition validTemplate (template : string) : bool :=
  match Str.find_sub SNAPSHOT_ID_MARKER template with
  | Some (pre, post) =>
  endsSep pre && startsSep post && noSnapshotId pre && noSnapshotId post
  | None => false
  end.

(** A record without snapshot ids does not use the template. *)
Definition templateFits (template : string) (r : record) : bool :=
  match snapshotIds r with
  | [] => true
  | _ => validTemplate template
  end.

End Codec.

Section More.

Import DataMapper Archivist.

(** The six fields [recordVersion] checks are all truthy. *)
Definition versionFieldsTruthy (params : Js.obj) : bool :=
  Js.truthy (Js.get params "serviceId") && Js.truthy (Js.get params "documentType")
  && Js.truthy (Js.get params "snapshotId") && Js.truthy (Js.get params "fetchDate")
  && Js.truthy (Js.get params "content") && Js.truthy (Js.get params "mimeType").

(** Two objects give the same values for the fields named. *)
Definition agreeOn (fields : list string) (p q : Js.obj) : Prop :=
  forall field, In field fields -> Js.get p field = Js.get q field.

(** The record [r] with other snapshot ids. *)
Definition withSnapshotIds (r : record) (ids : list string) : record :=
  {| DataMapper.id := DataMapper.id r;
     serviceId := serviceId r;
     DataMapper.termsType := DataMapper.termsType r;
     DataMapper.documentId := DataMapper.documentId r;
     DataMapper.mimeType := DataMapper.mimeType r;
     DataMapper.fetchDate := DataMapper.fetchDate r;
     isFirstRecord := isFirstRecord r;
     isExtractOnly := isExtractOnly r;
     snapshotIds := ids;
     DataMapper.content := DataMapper.content r |}.

(** A commit whose diff lists the one file [path]. *)
Definition commitOfFile (hash date message body path : string) : Commit :=
  {| hash := hash; date_ := date; message := message; body := body;
     diff := {| files := [ {| file := path |} ] |} |}.

(** The request [fetchTermsDocuments] makes for a document. *)
Definition requestOf (document : Document) : FetchParams :=
  {| url := location document;
     f_executeClientScripts := executeClientScripts document;
     f_cssSelectors := cssSelectors document |}.

(** What [fetchTermsDocuments] returns for the i-th document, fetched
    with the given mime type and content. *)
Definition snapshotParamsOf (settledAt : nat -> Z) (terms : Terms) (i : nat)
    (document : Document) (mimeType content : string) : SnapshotParams :=
  {| sp_content := content;
     sp_mimeType := mimeType;
     sp_serviceId := service_id (service terms);
     sp_termsType := Archivist.termsType terms;
     sp_documentId := documentIdOf (isMultiDocument terms) (doc_id document);
     sp_fetchDate := Js.Date (settledAt i) |}.

(** The fetch of a document succeeded. *)
Definition isResolved {E : Type} (o : settled E) : Prop := exists params, o = Resolved params.

(** The event [recordSnapshot] emits for the parameters [p] when it
    returns [id]. *)
Definition snapshotEventOf {E : Type} (p : SnapshotParams) (id : option string)
    (ev : event E) : Prop :=
  match id with
  | None => ev = snapshotNotChanged (sp_serviceId p) (sp_termsType p) (sp_documentId p)
  | Some snapshotId =>
      ev = firstSnapshotRecorded (sp_serviceId p) (sp_termsType p) (sp_documentId p)
             snapshotId
      \/ ev = snapshotRecorded (sp_serviceId p) (sp_termsType p) (sp_documentId p)
                snapshotId
  end.

(** The error of the Recorder for parameters without document type. *)
Definition withoutDocumentType (serviceId : string) : Recorder.error :=
  if String.eqb serviceId "" then Recorder.ServiceIdRequired
  else Recorder.DocumentTypeRequired.

(** An event about a snapshot. *)
Definition isSnapshotEvent {E : Type} (ev : event E) : bool :=
  match ev with
  | snapshotNotChanged _ _ _ | firstSnapshotRecorded _ _ _ _ | snapshotRecorded _ _ _ _ => true
  | _ => false
  end.

End More.

End Spec.

(** * Properties *)

(** ** Strings *)

Lemma prefix_app (p s : string) : String.prefix p (p +:+ s) = true.
Proof.
  induction p as [|c p IH]; simpl.
  - by destruct s.
  - destruct (ascii_dec c c); [exact IH | congruence].
Qed.

Lemma find_sub_eq (pat s : string) :
  Str.find_sub pat s
  = if String.prefix pat s then Some ("", Str.drop (String.length pat) s)
    else match s with
         | "" => None
         | String c s' =>
             match Str.find_sub pat s' with
             | Some (a, b) => Some (String c a, b)
             | None => None
             end
         end.
Proof. by destruct s. Qed.

Lemma find_sub_prefix (pat s : string) :
  String.prefix pat s = true ->
  Str.find_sub pat s = Some ("", Str.drop (String.length pat) s).
Proof. intros H. by rewrite find_sub_eq, H. Qed.

Lemma find_sub_cons (pat : string) (c : ascii) (s : string) :
  String.prefix pat (String c s) = false ->
  Str.find_sub pat (String c s)
  = match Str.find_sub pat s with
    | Some (a, b) => Some (String c a, b)
    | None => None
    end.
Proof. intros H. by rewrite find_sub_eq, H. Qed.

Lemma find_sub_app (pat a b : string) :
  is_Some (Str.find_sub pat (a +:+ pat +:+ b)).
Proof.
  induction a as [|c a [[x y] IH]].
  - change ("" +:+ pat +:+ b) with (pat +:+ b).
    rewrite find_sub_prefix; [by eexists | apply prefix_app].
  - change (String c a +:+ pat +:+ b) with (String c (a +:+ pat +:+ b)).
    destruct (String.prefix pat (String c (a +:+ pat +:+ b))) eqn:Hp.
    + rewrite find_sub_prefix; [by eexists | done].
    + rewrite find_sub_cons, IH; [by eexists | done].
Qed.

Lemma includes_app (pat a b : string) : Str.includes (a +:+ pat +:+ b) pat = true.
Proof.
  unfold Str.includes. by destruct (find_sub_app pat a b) as [[x y] ->].
Qed.

(** ** The codec rejects a commit of several files *)

Section OneFilePerCommit.

Import DataMapper.
Variable standard : Mime.t.

(** C6.  A commit whose diff lists two or more files makes [toDomain]
    throw the error that names the commit by its hash and lists the
    files; a commit of exactly one file is decoded into a record. *)
Theorem toDomain_one_file_per_commit (commit : Commit) :
  ((2 <= length (files (diff commit)))%nat ->
   exists msg,
     toDomain standard commit = inl (Error msg)
     /\ msg = "Only one file should have been recorded in " +:+ hash commit
              +:+ ", but all these files were recorded: "
              +:+ Str.join ", " (map file (files (diff commit)))
     /\ Str.includes msg (hash commit) = true)
  /\ (length (files (diff commit)) = 1%nat ->
      exists r, toDomain standard commit = inr r).
Proof.
  split; intros Hlen; unfold toDomain; rewrite length_map.
  - destruct (Nat.ltb_spec 1 (length (files (diff commit)))) as [_|?]; [|lia].
    eexists; split; [reflexivity|]; split; [reflexivity|].
    apply includes_app.
  - rewrite Hlen. simpl.
    destruct (files (diff commit)) as [|f [|? ?]]; simpl in Hlen; try lia.
    simpl. by eexists.
Qed.

End OneFilePerCommit.

Lemma toDomain_one_file_per_commit_witness :
  (exists msg,
      DataMapper.toDomain Examples.standard Examples.twoFiles = inl (DataMapper.Error msg)
      /\ msg = "Only one file should have been recorded in b2c3d4e5f6, but all these files were recorded: service/Terms of Service.md, service/Privacy Policy.md"
      /\ Str.includes msg "b2c3d4e5f6" = true)
  /\ exists r, DataMapper.toDomain Examples.standard Examples.oneFile = inr r.
Proof.
  split.
  - apply (proj1 (toDomain_one_file_per_commit Examples.standard Examples.twoFiles)).
    simpl. lia.
  - apply (proj2 (toDomain_one_file_per_commit Examples.standard Examples.oneFile)).
    reflexivity.
Defined.

(** ** Storage paths *)

Section StoragePath.

Import DataMapper.
Variable standard : Mime.t.

(** The call of line 7 goes through, and rebinds both tables. *)
Lemma define_markdown :
  Mime.define [("text/markdown", ["md"])] true standard
  = inr {| Mime.types := <["md" := "text/markdown"]> (Mime.types standard);
           Mime.extensions := <["text/markdown" := "md"]> (Mime.extensions standard) |}.
Proof. reflexivity. Qed.

Lemma mime_extensions :
  Mime.extensions (mime standard) = <["text/markdown" := "md"]> (Mime.extensions standard).
Proof. reflexivity. Qed.

Lemma mime_types :
  Mime.types (mime standard) = <["md" := "text/markdown"]> (Mime.types standard).
Proof. reflexivity. Qed.

Lemma getExtension_markdown :
  Mime.getExtension (mime standard) (Some "text/markdown") = Some "md".
Proof.
  unfold Mime.getExtension. rewrite mime_extensions.
  change (Str.toLowerCase (Mime.takeType (Mime.skipSpaces (default "undefined" (Some "text/markdown")))))
    with "text/markdown".
  change (Mime.takeType (Mime.skipSpaces (default "undefined" (Some "text/markdown"))))
    with "text/markdown".
  by rewrite lookup_insert_eq.
Qed.

(** A mime type the tables know nothing of has no extension. *)
Lemma getExtension_unknown (ty : string) :
  let key := Str.toLowerCase (Mime.takeType (Mime.skipSpaces ty)) in
  key <> "text/markdown" -> Mime.extensions standard !! key = None ->
  Mime.getExtension (mime standard) (Some ty) = None.
Proof.
  intros key Hmd Hkey. unfold Mime.getExtension. rewrite mime_extensions.
  simpl default. fold key.
  destruct (String.eqb _ ""); [done|].
  by rewrite lookup_insert_ne, Hkey.
Qed.

(** C7.  The path is [serviceId/termsType.ext], with [ #documentId]
    before the dot when there is a document id; the separator is [/];
    [ext] is [*] or an extension of the mime tables.  For a mime type in
    ASCII, as the names of mime types are, [ext] is what the tables give
    for the type the expression of [getExtension] captures, in lower
    case, and [*] when they give nothing (as for a type that is neither
    [text/markdown] nor in the standard tables).  It is [md] for
    [text/markdown] whatever the standard tables say. *)
Theorem generateFilePath_layout (serviceId termsType : string)
    (documentId mimeType : option string) :
  let documentPart :=
    match documentId with
    | Some d => if String.eqb d "" then "" else " #" +:+ d
    | None => ""
    end in
  (exists extension,
      generateFilePath standard serviceId termsType documentId mimeType
      = serviceId +:+ "/" +:+ termsType +:+ documentPart +:+ "." +:+ extension
      /\ (extension = "*"
          \/ exists ty, Mime.extensions (mime standard) !! ty = Some extension))
  /\ (Spec.asciiType mimeType = true ->
      generateFilePath standard serviceId termsType documentId mimeType
      = serviceId +:+ "/" +:+ termsType +:+ documentPart +:+ "."
        +:+ default "*" (Mime.getExtension (mime standard) mimeType)
      /\ (Mime.getExtension (mime standard) mimeType = None ->
          generateFilePath standard serviceId termsType documentId mimeType
          = serviceId +:+ "/" +:+ termsType +:+ documentPart +:+ ".*")
      /\ (forall ty,
            mimeType = Some ty ->
            Str.toLowerCase (Mime.takeType (Mime.skipSpaces ty)) <> "text/markdown" ->
            Mime.extensions standard !! Str.toLowerCase (Mime.takeType (Mime.skipSpaces ty))
            = None ->
            generateFilePath standard serviceId termsType documentId mimeType
            = serviceId +:+ "/" +:+ termsType +:+ documentPart +:+ ".*"))
  /\ (mimeType = Some "text/markdown" ->
      generateFilePath standard serviceId termsType documentId mimeType
      = serviceId +:+ "/" +:+ termsType +:+ documentPart +:+ ".md").
Proof.
  intros documentPart.
  assert (Hpath : generateFilePath standard serviceId termsType documentId mimeType
                  = serviceId +:+ "/" +:+ termsType +:+ documentPart +:+ "."
                    +:+ default "*" (Mime.getExtension (mime standard) mimeType)).
  { unfold generateFilePath, generateFileName, documentPart, Js.truthyStr.
    destruct documentId as [d|]; [|reflexivity].
    by destruct (String.eqb d ""). }
  split; [|split].
  - eexists. split; [exact Hpath|].
    unfold Mime.getExtension. destruct (String.eqb _ ""); [by left|].
    destruct (Mime.extensions (mime standard) !! _) as [e|] eqn:He; [|by left].
    destruct (String.eqb e ""); [by left|]. right. by eexists.
  - intros _. split; [exact Hpath|]. split.
    + intros Hnone. by rewrite Hpath, Hnone.
    + intros ty -> Hmd Hkey. by rewrite Hpath, getExtension_unknown.
  - intros ->. by rewrite Hpath, getExtension_markdown.
Qed.

End StoragePath.

Lemma generateFilePath_layout_witness :
  DataMapper.generateFilePath Examples.standard "service" "Terms of Service"
    (Some "community") (Some "application/x-unknown")
  = "service/Terms of Service #community.*"
  /\ DataMapper.generateFilePath Examples.standard "service" "Terms of Service"
       None (Some "text/markdown")
     = "service/Terms of Service.md".
Proof.
  split.
  - apply (proj1 (proj2 (proj1 (proj2 (generateFilePath_layout Examples.standard
                                         "service" "Terms of Service" (Some "community")
                                         (Some "application/x-unknown"))) eq_refl))).
    vm_compute. reflexivity.
  - apply (proj2 (proj2 (generateFilePath_layout Examples.standard "service"
                           "Terms of Service" None (Some "text/markdown")))).
    reflexivity.
Defined.

(** ** Concurrency of the tracking queue *)

Section QueueConcurrency.

Import Archivist.
Context {E St : Type} {ops : RecorderOps E St}.
Variable services : list (string * ServiceDeclaration).
Variable sortIds : list string -> list string.

Lemma push_all_concurrency (extractOnly : Js.val) (scheduled : list Terms)
    (st : state E St) :
  concurrency
    (trackingQueue
       (fold_left
          (fun st terms =>
             snd (push {| task_terms := terms; task_extractOnly := extractOnly |} st))
          scheduled st))
  = concurrency (trackingQueue st).
Proof.
  revert st. induction scheduled as [|t l IH]; intros st; simpl; [done|].
  by rewrite IH.
Qed.

Lemma push_all_tasks (extractOnly : Js.val) (scheduled : list Terms) (st : state E St) :
  tasks
    (trackingQueue
       (fold_left
          (fun st terms =>
             snd (push {| task_terms := terms; task_extractOnly := extractOnly |} st))
          scheduled st))
  = tasks (trackingQueue st)
    ++ map (fun terms => {| task_terms := terms; task_extractOnly := extractOnly |})
         scheduled.
Proof.
  revert st. induction scheduled as [|t l IH]; intros st; simpl.
  - by rewrite app_nil_r.
  - rewrite IH. simpl. by rewrite <- app_assoc.
Qed.

Lemma getNumberOfTermsOf_declared (ids : list string) (acc : Z) :
  Forall (fun i => is_Some (lookupService services i)) ids ->
  is_Some (getNumberOfTermsOf services ids acc).
Proof.
  intros H. revert acc. induction H as [|i l [d Hd] _ IH]; intros acc; simpl.
  - by eexists.
  - rewrite Hd. apply IH.
Qed.

Lemma forEachService_declared (termsTypes ids : list string) :
  Forall (fun i => is_Some (lookupService services i)) ids ->
  is_Some (forEachService services termsTypes ids).
Proof.
  induction 1 as [|i l [d Hd] _ [x IH]]; simpl.
  - by eexists.
  - rewrite Hd, IH. by eexists.
Qed.

Lemma trackAllTermsChanges_scheduled
    (servicesIds termsTypes : option (list string)) (extractOnly : Js.val)
    (st : state E St) (n : Z) (scheduled : list Terms) :
  getNumberOfTermsOf services (default (map fst services) servicesIds) 0%Z = Some n ->
  forEachTermsOf services sortIds (default (map fst services) servicesIds)
    (default [] termsTypes) = Some scheduled ->
  trackAllTermsChanges services sortIds servicesIds termsTypes extractOnly st
  = Some (fold_left
            (fun st terms =>
               snd (push {| task_terms := terms; task_extractOnly := extractOnly |} st))
            scheduled
            {| recorder := recorder st;
               events :=
                 events st
                 ++ [trackingStarted
                       (Z.of_nat (length (default (map fst services) servicesIds)))
                       n extractOnly];
               trackingQueue :=
                 {| concurrency :=
                      if Js.truthy extractOnly
                      then MAX_PARALLEL_TERMS_TRACKS_WITH_EXTRACT_ONLY
                      else MAX_PARALLEL_TERMS_TRACKS;
                    tasks := tasks (trackingQueue st) |} |}).
Proof.
  intros Hn Hs. unfold trackAllTermsChanges. rewrite Hn. simpl. by rewrite Hs.
Qed.

(** C9.  Once [trackAllTermsChanges] has scheduled a batch (every
    requested service being declared, it does), the concurrency of the
    queue is 10 when [extractOnly] is [true] and 1 when [extractOnly] is
    falsy, and every task of the batch carries that [extractOnly]. *)
Theorem trackAllTermsChanges_concurrency
    (servicesIds termsTypes : option (list string)) (extractOnly : Js.val)
    (st : state E St) :
  Forall (fun i => is_Some (lookupService services i))
    (default (map fst services) servicesIds) ->
  Forall (fun i => is_Some (lookupService services i))
    (sortIds (default (map fst services) servicesIds)) ->
  exists st',
    trackAllTermsChanges services sortIds servicesIds termsTypes extractOnly st = Some st'
    /\ (extractOnly = Js.Bool true ->
        concurrency (trackingQueue st') = 10%Z)
    /\ (Js.truthy extractOnly = false ->
        concurrency (trackingQueue st') = 1%Z)
    /\ exists scheduled,
        tasks (trackingQueue st')
        = tasks (trackingQueue st)
          ++ map (fun terms => {| task_terms := terms; task_extractOnly := extractOnly |})
               scheduled.
Proof.
  intros Hdecl Hsorted.
  destruct (getNumberOfTermsOf_declared _ 0%Z Hdecl) as [n Hn].
  destruct (forEachService_declared (default [] termsTypes) _ Hsorted) as [sch Hs].
  eexists; split; [by apply (trackAllTermsChanges_scheduled _ _ _ _ n sch)|].
  rewrite push_all_concurrency, push_all_tasks. simpl.
  repeat split.
  - by intros ->.
  - by intros ->.
  - by exists sch.
Qed.

End QueueConcurrency.

Lemma trackAllTermsChanges_concurrency_witness :
  (exists st',
      Archivist.trackAllTermsChanges Examples.declarations (fun l => l) None None
        (Js.Bool true) Examples.idle = Some st'
      /\ Archivist.concurrency (Archivist.trackingQueue st') = 10%Z)
  /\ (exists st',
         Archivist.trackAllTermsChanges Examples.declarations (fun l => l) None None
           Js.Undefined Examples.idle = Some st'
         /\ Archivist.concurrency (Archivist.trackingQueue st') = 1%Z).
Proof.
  assert (Hdecl : Forall (fun i => is_Some (Archivist.lookupService Examples.declarations i))
                    (default (map fst Examples.declarations) None)).
  { repeat constructor. by eexists. }
  split.
  - destruct (trackAllTermsChanges_concurrency (E:=string) (St:=unit)
                Examples.declarations (fun l => l) None None (Js.Bool true) Examples.idle
                Hdecl Hdecl) as (st' & Hrun & Hten & _).
    exists st'. split; [exact Hrun | by apply Hten].
  - destruct (trackAllTermsChanges_concurrency (E:=string) (St:=unit)
                Examples.declarations (fun l => l) None None Js.Undefined Examples.idle
                Hdecl Hdecl) as (st' & Hrun & _ & Hone & _).
    exists st'. split; [exact Hrun | by apply Hone].
Defined.

(** ** Validation in the Recorder *)

Section RecorderValidation.

Import Recorder Spec.
Context {V S Rec R L : Type}.
Context {versions : Repository V Rec R L} {snapshots : Repository S Rec R L}.
Variable newRecord : Js.obj -> Rec.

Abbreviation recordSnapshot := (recordSnapshot (V:=V) newRecord).
Abbreviation recordVersion := (recordVersion (S:=S) newRecord).
Abbreviation recordRefilter := (recordRefilter (S:=S) newRecord).

Lemma require_truthy (v : Js.val) (e : error) (k : state V S -> outcome R * state V S)
    (st : state V S) :
  Js.truthy v = true -> require (R:=R) v e k st = k st.
Proof. unfold require. by intros ->. Qed.

Lemma require_falsy (v : Js.val) (e : error) (k : state V S -> outcome R * state V S)
    (st : state V S) :
  Js.truthy v = false -> require (R:=R) v e k st = (Threw e, st).
Proof. unfold require. by intros ->. Qed.

Lemma recordSnapshot_cases (params : Js.obj) (st : state V S) :
  recordSnapshot params st
  = if negb (Js.truthy (Js.get params "serviceId")) then (Threw ServiceIdRequired, st)
    else if negb (Js.truthy (Js.get params "documentType"))
    then (Threw DocumentTypeRequired, st)
    else if negb (Js.truthy (Js.get params "fetchDate")) then (Threw FetchDateRequired, st)
    else if negb (Js.truthy (Js.get params "content")) then (Threw ContentRequired, st)
    else if negb (Js.truthy (Js.get params "mimeType")) then (Threw MimeTypeRequired, st)
    else saveSnapshot
           (newRecord
              (Js.object [("serviceId", Js.get params "serviceId");
                          ("documentType", Js.get params "documentType");
                          ("fetchDate", Js.get params "fetchDate");
                          ("mimeType", Js.get params "mimeType");
                          ("content", Js.get params "content")])) st.
Proof.
  unfold Recorder.recordSnapshot, require.
  repeat (match goal with |- context [Js.truthy ?v] => destruct (Js.truthy v) end;
          simpl; try reflexivity).
Qed.

Lemma recordVersion_cases (params : Js.obj) (st : state V S) :
  recordVersion params st
  = if negb (Js.truthy (Js.get params "serviceId")) then (Threw ServiceIdRequired, st)
    else if negb (Js.truthy (Js.get params "documentType"))
    then (Threw DocumentTypeRequired, st)
    else if negb (Js.truthy (Js.get params "snapshotId"))
    then (Threw (SnapshotIdRequired (Js.get params "serviceId")
                   (Js.get params "documentType")), st)
    else if negb (Js.truthy (Js.get params "fetchDate")) then (Threw FetchDateRequired, st)
    else if negb (Js.truthy (Js.get params "content")) then (Threw ContentRequired, st)
    else if negb (Js.truthy (Js.get params "mimeType")) then (Threw MimeTypeRequired, st)
    else saveVersion
           (newRecord
              (Js.object [("serviceId", Js.get params "serviceId");
                          ("documentType", Js.get params "documentType");
                          ("snapshotId", Js.get params "snapshotId");
                          ("fetchDate", Js.get params "fetchDate");
                          ("mimeType", Js.get params "mimeType");
                          ("content", Js.get params "content");
                          ("isRefilter", Js.get params "isRefilter")])) st.
Proof.
  unfold Recorder.recordVersion, require.
  repeat (match goal with |- context [Js.truthy ?v] => destruct (Js.truthy v) end;
          simpl; try reflexivity).
Qed.

Lemma missing_falsy (params : Js.obj) (field : string) :
  missing params field -> Js.truthy (Js.get params field) = false.
Proof. unfold missing. by intros ->. Qed.

Lemma saveSnapshot_returns (record : Rec) (st : state V S) :
  saveSnapshot record st
  = (Returned (fst (save record (snapshotsRepository st))),
     {| versionsRepository := versionsRepository st;
        snapshotsRepository := snd (save record (snapshotsRepository st)) |}).
Proof. unfold saveSnapshot. by destruct (save record (snapshotsRepository st)). Qed.

Lemma saveVersion_returns (record : Rec) (st : state V S) :
  saveVersion record st
  = (Returned (fst (save record (versionsRepository st))),
     {| versionsRepository := snd (save record (versionsRepository st));
        snapshotsRepository := snapshotsRepository st |}).
Proof. unfold saveVersion. by destruct (save record (versionsRepository st)). Qed.

(** X27.  [recordSnapshot] throws a validation error, touching no
    repository, exactly when one of the five fields it reads,
    [serviceId], [documentType], [fetchDate], [content] and [mimeType],
    is falsy: missing, or present as the empty text, [0], [false] or
    [null].  When the five are truthy the record built from them goes to
    [save] of the snapshots repository, whose result is returned and
    whose new state is kept. *)
Theorem recordSnapshot_checks_five_fields (params : Js.obj) (st : state V S) :
  (rejects (recordSnapshot params) st <-> snapshotFieldsTruthy params = false)
  /\ (forall field,
        In field ["serviceId"; "documentType"; "fetchDate"; "content"; "mimeType"] ->
        missing params field -> rejects (recordSnapshot params) st)
  /\ (snapshotFieldsTruthy params = true ->
      let record :=
        newRecord
          (Js.object [("serviceId", Js.get params "serviceId");
                      ("documentType", Js.get params "documentType");
                      ("fetchDate", Js.get params "fetchDate");
                      ("mimeType", Js.get params "mimeType");
                      ("content", Js.get params "content")]) in
      recordSnapshot params st
      = (Returned (fst (save record (snapshotsRepository st))),
         {| versionsRepository := versionsRepository st;
            snapshotsRepository := snd (save record (snapshotsRepository st)) |})).
Proof.
  assert (Hiff : rejects (recordSnapshot params) st <-> snapshotFieldsTruthy params = false).
  { unfold rejects, snapshotFieldsTruthy. rewrite recordSnapshot_cases.
    destruct (Js.truthy (Js.get params "serviceId")); simpl; [|by split; eauto].
    destruct (Js.truthy (Js.get params "documentType")); simpl; [|by split; eauto].
    destruct (Js.truthy (Js.get params "fetchDate")); simpl; [|by split; eauto].
    destruct (Js.truthy (Js.get params "content")); simpl; [|by split; eauto].
    destruct (Js.truthy (Js.get params "mimeType")); simpl; [|by split; eauto].
    rewrite saveSnapshot_returns. split; [by intros [e He] | done]. }
  split; [exact Hiff|]. split.
  - intros field Hin Hmiss. apply Hiff. apply missing_falsy in Hmiss.
    unfold snapshotFieldsTruthy. simpl in Hin.
    destruct Hin as [<-|[<-|[<-|[<-|[<-|[]]]]]]; rewrite Hmiss;
      rewrite ?andb_false_r; reflexivity.
  - intros Hall record. unfold snapshotFieldsTruthy in Hall.
    repeat (apply andb_prop in Hall; destruct Hall as [Hall ?]).
    rewrite recordSnapshot_cases.
    repeat match goal with H : Js.truthy _ = true |- _ => rewrite H; clear H end.
    simpl. apply saveSnapshot_returns.
Qed.

(** C5, as the code has it.  [recordSnapshot] throws a validation error,
    touching no repository, whenever one of [serviceId], [fetchDate],
    [content] and [mimeType] is falsy: missing, or present as the empty
    text, [0], [false] or [null].  Unless it throws for want of the type,
    it throws only then; and when the four are truthy, a record that
    holds them goes to [save] of the snapshots repository, whose result
    is returned and whose new state is kept. *)
Theorem recordSnapshot_validation (params : Js.obj) (st : state V S) :
  let checked := ["serviceId"; "fetchDate"; "content"; "mimeType"] in
  (forall field,
      In field checked -> Js.truthy (Js.get params field) = false ->
      rejects (recordSnapshot params) st)
  /\ (recordSnapshot params st <> (Threw DocumentTypeRequired, st) ->
      (rejects (recordSnapshot params) st
       <-> exists field, In field checked /\ Js.truthy (Js.get params field) = false)
      /\ ((forall field, In field checked -> Js.truthy (Js.get params field) = true) ->
          exists fields,
            (forall field, In field checked -> Js.get fields field = Js.get params field)
            /\ recordSnapshot params st
               = (Returned (fst (save (newRecord fields) (snapshotsRepository st))),
                  {| versionsRepository := versionsRepository st;
                     snapshotsRepository :=
                       snd (save (newRecord fields) (snapshotsRepository st)) |}))).
Proof.
  intros checked.
  assert (Hfalsy : forall field,
             In field checked -> Js.truthy (Js.get params field) = false ->
             rejects (recordSnapshot params) st).
  { intros field Hin Hfield. unfold rejects. rewrite recordSnapshot_cases.
    simpl in Hin. destruct Hin as [<-|[<-|[<-|[<-|[]]]]]; rewrite Hfield; simpl;
      repeat match goal with
             | |- context [negb (Js.truthy ?v)] => destruct (Js.truthy v); simpl
             end; eauto. }
  split; [exact Hfalsy|]. intros Htype. split.
  - split.
    + intros [e Hthrew]. revert Htype Hthrew. rewrite recordSnapshot_cases.
      destruct (Js.truthy (Js.get params "serviceId")) eqn:Hs; simpl;
        [|intros _ _; exists "serviceId"; split; [simpl; tauto | done]].
      destruct (Js.truthy (Js.get params "documentType")); simpl; [|done].
      destruct (Js.truthy (Js.get params "fetchDate")) eqn:Hf; simpl;
        [|intros _ _; exists "fetchDate"; split; [simpl; tauto | done]].
      destruct (Js.truthy (Js.get params "content")) eqn:Hc; simpl;
        [|intros _ _; exists "content"; split; [simpl; tauto | done]].
      destruct (Js.truthy (Js.get params "mimeType")) eqn:Hm; simpl;
        [|intros _ _; exists "mimeType"; split; [simpl; tauto | done]].
      rewrite saveSnapshot_returns. done.
    + intros (field & Hin & Hfield). by apply (Hfalsy field).
  - intros Hall. revert Htype. rewrite recordSnapshot_cases.
    rewrite (Hall "serviceId"), (Hall "fetchDate"), (Hall "content"), (Hall "mimeType")
      by (simpl; tauto).
    simpl. destruct (Js.truthy (Js.get params "documentType")); simpl; [|done].
    intros _. eexists. split; [|apply saveSnapshot_returns].
    intros field Hin. simpl in Hin.
    destruct Hin as [<-|[<-|[<-|[<-|[]]]]]; reflexivity.
Qed.

Lemma get_insert_eq (params : Js.obj) (k : string) (v : Js.val) :
  Js.get (<[k := v]> params) k = v.
Proof. unfold Js.get. by rewrite lookup_insert_eq. Qed.

Lemma get_insert_ne (params : Js.obj) (k k' : string) (v : Js.val) :
  k <> k' -> Js.get (<[k := v]> params) k' = Js.get params k'.
Proof. intros ?. unfold Js.get. by rewrite lookup_insert_ne. Qed.

Lemma get_delete_eq (params : Js.obj) (k : string) :
  Js.get (delete k params) k = Js.Undefined.
Proof. unfold Js.get. by rewrite lookup_delete_eq. Qed.

Lemma get_delete_ne (params : Js.obj) (k k' : string) :
  k <> k' -> Js.get (delete k params) k' = Js.get params k'.
Proof. intros ?. unfold Js.get. by rewrite lookup_delete_ne. Qed.

(** Adding the default [isRefilter] under the caller's fields. *)
Lemma spread_isRefilter_given (params : Js.obj) (v : Js.val) :
  params !! "isRefilter" = Some v ->
  Js.spread (Js.object [("isRefilter", Js.Bool true)]) params = params.
Proof.
  intros Hv. unfold Js.spread, Js.object. apply map_eq. intros k.
  rewrite lookup_union. simpl.
  destruct (decide (k = "isRefilter")) as [->|Hne].
  - rewrite Hv. by rewrite lookup_insert_eq.
  - rewrite lookup_insert_ne, lookup_empty by done. by destruct (params !! k).
Qed.

Lemma spread_isRefilter_absent (params : Js.obj) :
  params !! "isRefilter" = None ->
  Js.spread (Js.object [("isRefilter", Js.Bool true)]) params
  = <["isRefilter" := Js.Bool true]> params.
Proof.
  intros Hv. unfold Js.spread, Js.object. apply map_eq. intros k.
  rewrite lookup_union. simpl.
  destruct (decide (k = "isRefilter")) as [->|Hne].
  - rewrite Hv. by rewrite !lookup_insert_eq.
  - rewrite !lookup_insert_ne, lookup_empty by done. by destruct (params !! k).
Qed.

Lemma get_spread_isRefilter (params : Js.obj) (k : string) :
  k <> "isRefilter" ->
  Js.get (Js.spread (Js.object [("isRefilter", Js.Bool true)]) params) k = Js.get params k.
Proof.
  intros Hne. destruct (params !! "isRefilter") as [v|] eqn:Hv.
  - by rewrite (spread_isRefilter_given _ v).
  - rewrite spread_isRefilter_absent by done. by apply get_insert_ne.
Qed.

(** Without the flag among the caller's fields, [recordRefilter] is
    [recordVersion] with the flag set. *)
Lemma recordRefilter_default (params : Js.obj) (st : state V S) :
  params !! "isRefilter" = None ->
  recordRefilter params st = recordVersion (<["isRefilter" := Js.Bool true]> params) st.
Proof.
  intros Hv. unfold Recorder.recordRefilter. by rewrite spread_isRefilter_absent.
Qed.

(** With the flag among the caller's fields, the caller's value stays. *)
Lemma recordRefilter_given (params : Js.obj) (v : Js.val) (st : state V S) :
  params !! "isRefilter" = Some v ->
  recordRefilter params st = recordVersion params st.
Proof.
  intros Hv. unfold Recorder.recordRefilter. by rewrite (spread_isRefilter_given _ v).
Qed.

Lemma recordSnapshot_falsy_content (params : Js.obj) (st : state V S) :
  Js.truthy (Js.get params "content") = false ->
  rejects (recordSnapshot params) st
  /\ (Js.truthy (Js.get params "serviceId") = true ->
      Js.truthy (Js.get params "documentType") = true ->
      Js.truthy (Js.get params "fetchDate") = true ->
      recordSnapshot params st = (Threw ContentRequired, st)).
Proof.
  intros Hc. unfold rejects. rewrite recordSnapshot_cases, Hc. simpl.
  split.
  - repeat (match goal with |- context [Js.truthy ?v] => destruct (Js.truthy v) end;
            simpl; eauto).
  - by intros -> -> ->.
Qed.

Lemma recordVersion_falsy_content (params : Js.obj) (st : state V S) :
  Js.truthy (Js.get params "content") = false ->
  rejects (recordVersion params) st
  /\ (Js.truthy (Js.get params "serviceId") = true ->
      Js.truthy (Js.get params "documentType") = true ->
      Js.truthy (Js.get params "snapshotId") = true ->
      Js.truthy (Js.get params "fetchDate") = true ->
      recordVersion params st = (Threw ContentRequired, st)).
Proof.
  intros Hc. unfold rejects. rewrite recordVersion_cases, Hc. simpl.
  split.
  - repeat (match goal with |- context [Js.truthy ?v] => destruct (Js.truthy v) end;
            simpl; eauto).
  - by intros -> -> -> ->.
Qed.

Lemma recordSnapshot_depends_on_truthiness (p q : Js.obj) (st : state V S) :
  (forall k, k <> "content" -> Js.get p k = Js.get q k) ->
  Js.truthy (Js.get p "content") = false ->
  Js.truthy (Js.get q "content") = false ->
  recordSnapshot p st = recordSnapshot q st.
Proof.
  intros Hsame Hp Hq. rewrite !recordSnapshot_cases, Hp, Hq.
  rewrite !(Hsame "serviceId"), !(Hsame "documentType"), !(Hsame "fetchDate") by done.
  simpl.
  repeat (match goal with |- context [Js.truthy ?v] => destruct (Js.truthy v) end;
          simpl; try reflexivity).
Qed.

Lemma recordVersion_depends_on_truthiness (p q : Js.obj) (st : state V S) :
  (forall k, k <> "content" -> Js.get p k = Js.get q k) ->
  Js.truthy (Js.get p "content") = false ->
  Js.truthy (Js.get q "content") = false ->
  recordVersion p st = recordVersion q st.
Proof.
  intros Hsame Hp Hq. rewrite !recordVersion_cases, Hp, Hq.
  rewrite !(Hsame "serviceId"), !(Hsame "documentType"), !(Hsame "snapshotId"),
    !(Hsame "fetchDate") by done.
  simpl.
  repeat (match goal with |- context [Js.truthy ?v] => destruct (Js.truthy v) end;
          simpl; try reflexivity).
Qed.

(** C10.  A parameter object whose [content] is the empty text is
    treated by [recordSnapshot] and [recordVersion] exactly as the same
    object without [content]: the same validation error (the one about
    the content when the checks before it pass), and no repository is
    touched; the same holds through [recordRefilter]. *)
Theorem empty_content_rejected (params : Js.obj) (st : state V S) :
  Js.get params "content" = Js.Str "" ->
  recordSnapshot params st = recordSnapshot (delete "content" params) st
  /\ recordVersion params st = recordVersion (delete "content" params) st
  /\ rejects (recordSnapshot params) st
  /\ rejects (recordVersion params) st
  /\ rejects (recordRefilter params) st
  /\ (Js.truthy (Js.get params "serviceId") = true ->
      Js.truthy (Js.get params "documentType") = true ->
      Js.truthy (Js.get params "fetchDate") = true ->
      recordSnapshot params st = (Threw ContentRequired, st)
      /\ (Js.truthy (Js.get params "snapshotId") = true ->
          recordVersion params st = (Threw ContentRequired, st))).
Proof.
  intros Hc.
  assert (Hf : Js.truthy (Js.get params "content") = false) by by rewrite Hc.
  assert (Hd : Js.truthy (Js.get (delete "content" params) "content") = false)
    by by rewrite get_delete_eq.
  assert (Hsame : forall k, k <> "content" ->
                            Js.get params k = Js.get (delete "content" params) k).
  { intros k Hk. symmetry. by apply get_delete_ne. }
  split; [by apply recordSnapshot_depends_on_truthiness|].
  split; [by apply recordVersion_depends_on_truthiness|].
  split; [by apply recordSnapshot_falsy_content|].
  split; [by apply recordVersion_falsy_content|].
  split.
  - unfold Recorder.recordRefilter. apply recordVersion_falsy_content.
    by rewrite get_spread_isRefilter.
  - intros Hs Hd' Hfd. split.
    + by apply recordSnapshot_falsy_content.
    + intros Hid. by apply recordVersion_falsy_content.
Qed.

(** [recordVersion] reads [snapshotId] and nothing else about the
    lineage. *)
Lemma recordVersion_needs_snapshotId (params : Js.obj) (st : state V S) :
  Js.truthy (Js.get params "serviceId") = true ->
  Js.truthy (Js.get params "documentType") = true ->
  Js.truthy (Js.get params "snapshotId") = false ->
  recordVersion params st
  = (Threw (SnapshotIdRequired (Js.get params "serviceId") (Js.get params "documentType")),
     st).
Proof. intros Hs Hd Hi. by rewrite recordVersion_cases, Hs, Hd, Hi. Qed.

(** C4, at the failing input.  Given a service id, a document type, a
    fetch date, a content, a mime type and the lineage as the array
    [snapshotIds] that the pipeline builds, [recordVersion] throws the
    error about the missing snapshot id. *)
Theorem recordVersion_rejects_snapshotIds (st : state V S) :
  recordVersion Examples.lineageSetParams st
  = (Threw (SnapshotIdRequired (Js.Str "service") (Js.Str "Terms of Service")), st).
Proof. by rewrite recordVersion_needs_snapshotId. Qed.

End RecorderValidation.

(** C5 by the letter fails on a content that is present and empty: none
    of the five fields is missing, the type being given under both
    names, and the call is rejected. *)
Lemma recordSnapshot_missing_iff_counterexample :
  ~ (Spec.rejects
       (Recorder.recordSnapshot (V:=list Js.obj) (snapshots:=Examples.logRepository)
          (fun fields => fields) Examples.namedEmptyContentParams)
       Examples.emptyStore
     <-> (Spec.missing Examples.namedEmptyContentParams "serviceId"
          \/ Spec.missing Examples.namedEmptyContentParams "termsType"
          \/ Spec.missing Examples.namedEmptyContentParams "fetchDate"
          \/ Spec.missing Examples.namedEmptyContentParams "content"
          \/ Spec.missing Examples.namedEmptyContentParams "mimeType")).
Proof.
  intros [Hmissing _].
  assert (Hrej : Spec.rejects
                   (Recorder.recordSnapshot (V:=list Js.obj)
                      (snapshots:=Examples.logRepository)
                      (fun fields => fields) Examples.namedEmptyContentParams)
                   Examples.emptyStore).
  { exists Recorder.ContentRequired. reflexivity. }
  destruct (Hmissing Hrej) as [H|[H|[H|[H|H]]]]; vm_compute in H; discriminate.
Qed.

Lemma recordSnapshot_validation_witness :
  exists fields,
    Js.get fields "content" = Js.Str "<html></html>"
    /\ Recorder.recordSnapshot (V:=list Js.obj) (snapshots:=Examples.logRepository)
         (fun fields => fields) Examples.snapshotParams Examples.emptyStore
       = (Recorder.Returned 0%nat,
          {| Recorder.versionsRepository := [];
             Recorder.snapshotsRepository := [fields] |}).
Proof.
  destruct (proj2 (proj2 (recordSnapshot_validation (V:=list Js.obj)
                            (snapshots:=Examples.logRepository) (fun fields => fields)
                            Examples.snapshotParams Examples.emptyStore)
                     ltac:(discriminate)))
    as (fields & Hfields & Hsave).
  - intros field Hin. simpl in Hin.
    destruct Hin as [<-|[<-|[<-|[<-|[]]]]]; reflexivity.
  - exists fields. split; [|exact Hsave].
    apply (Hfields "content"). simpl. tauto.
Defined.

Lemma recordSnapshot_checks_five_fields_witness :
  Spec.snapshotFieldsTruthy Examples.snapshotParams = true
  /\ Recorder.recordSnapshot (V:=list Js.obj) (snapshots:=Examples.logRepository)
       (fun fields => fields) Examples.snapshotParams Examples.emptyStore
     = (Recorder.Returned 0%nat,
        {| Recorder.versionsRepository := [];
           Recorder.snapshotsRepository := [Examples.snapshotParams] |}).
Proof.
  split; [reflexivity|].
  rewrite (proj2 (proj2 (recordSnapshot_checks_five_fields (V:=list Js.obj)
                           (snapshots:=Examples.logRepository) (fun fields => fields)
                           Examples.snapshotParams Examples.emptyStore)) eq_refl).
  vm_compute. reflexivity.
Defined.

Lemma empty_content_rejected_witness :
  Recorder.recordSnapshot (V:=list Js.obj) (snapshots:=Examples.logRepository)
    (fun fields => fields) Examples.emptyContentParams Examples.emptyStore
  = (Recorder.Threw Recorder.ContentRequired, Examples.emptyStore).
Proof.
  apply (empty_content_rejected (V:=list Js.obj) (S:=list Js.obj)
           (versions:=Examples.logRepository) (snapshots:=Examples.logRepository)
           (fun fields => fields) Examples.emptyContentParams Examples.emptyStore);
    reflexivity.
Defined.

(** C8, at the failing input.  A caller that passes [isRefilter: false]
    to [recordRefilter] gets what [recordVersion] does with its own
    fields: the record saved carries [isRefilter = false], where
    [recordVersion] with the flag set to [true] saves [true]. *)
Theorem recordRefilter_keeps_given_flag :
  let recordRefilter :=
    Recorder.recordRefilter (S:=list Js.obj) (versions:=Examples.logRepository)
      (fun fields => fields) in
  let recordVersion :=
    Recorder.recordVersion (S:=list Js.obj) (versions:=Examples.logRepository)
      (fun fields => fields) in
  recordRefilter (Examples.versionParams false) Examples.emptyStore
  = recordVersion (Examples.versionParams false) Examples.emptyStore
  /\ Recorder.versionsRepository
       (snd (recordRefilter (Examples.versionParams false) Examples.emptyStore))
     = [Examples.versionParams false]
  /\ Js.get (Examples.versionParams false) "isRefilter" = Js.Bool false
  /\ Recorder.versionsRepository
       (snd (recordVersion (<["isRefilter" := Js.Bool true]> (Examples.versionParams false))
               Examples.emptyStore))
     = [Examples.versionParams true].
Proof.
  intros recordRefilter recordVersion.
  split; [|split; [|split]].
  - apply (recordRefilter_given _ _ (Js.Bool false)). reflexivity.
  - vm_compute. reflexivity.
  - reflexivity.
  - vm_compute. reflexivity.
Qed.

(** ** The calls of the pipeline into the Recorder

    The Archivist names the terms type [termsType] and the lineage
    [snapshotIds]; the Recorder reads [documentType] and [snapshotId]. *)

Section PipelineCalls.

Context {V S Rec : Type}.
Context {versions : Recorder.Repository V Rec Archivist.SaveResult (option Archivist.Snapshot)}.
Context {snapshots : Recorder.Repository S Rec Archivist.SaveResult (option Archivist.Snapshot)}.
Variable newRecord : Js.obj -> Rec.

Lemma pipeline_recordVersion_rejected (p : Archivist.VersionParams)
    (st : Archivist.state Recorder.error (Recorder.state V S)) :
  Archivist.vp_serviceId p <> "" ->
  Archivist.recordVersion (ops:=Engine.recorderOps newRecord) p st
  = (inl (Archivist.Failure Recorder.DocumentTypeRequired), st).
Proof.
  intros Hne. unfold Archivist.recordVersion, Archivist.bind, Archivist.onRecorder.
  cbn [Archivist.recorder_recordVersion Engine.recorderOps].
  rewrite recordVersion_cases.
  change (Js.get (Js.object _) "serviceId") with (Js.Str (Archivist.vp_serviceId p)).
  change (Js.get (Js.object _) "documentType") with Js.Undefined.
  simpl. destruct (String.eqb_spec (Archivist.vp_serviceId p) ""); [done|].
  simpl. by destruct st.
Qed.

(** Even with the terms type under the name the Recorder reads, the
    lineage the pipeline passes is not seen. *)
Lemma pipeline_lineage_not_read (p : Archivist.VersionParams)
    (documentType : string) (st : Recorder.state V S) :
  Archivist.vp_serviceId p <> "" -> documentType <> "" ->
  Recorder.recordVersion newRecord
    (<["documentType" := Js.Str documentType]>
       (Js.object [("serviceId", Js.Str (Archivist.vp_serviceId p));
                   ("termsType", Js.Str (Archivist.vp_termsType p));
                   ("content", Js.Str (Archivist.vp_content p));
                   ("fetchDate", Archivist.vp_fetchDate p);
                   ("snapshotIds", Js.Arr (map Js.Str (Archivist.vp_snapshotIds p)));
                   ("extractOnly", Archivist.vp_extractOnly p)])) st
  = (Recorder.Threw
       (Recorder.SnapshotIdRequired (Js.Str (Archivist.vp_serviceId p))
          (Js.Str documentType)), st).
Proof.
  intros Hs Hd. rewrite recordVersion_needs_snapshotId.
  - rewrite get_insert_eq. by rewrite get_insert_ne by done.
  - rewrite get_insert_ne by done.
    change (Js.get (Js.object _) "serviceId") with (Js.Str (Archivist.vp_serviceId p)).
    simpl. by destruct (String.eqb_spec (Archivist.vp_serviceId p) "").
  - rewrite get_insert_eq. simpl. by destruct (String.eqb_spec documentType "").
  - by rewrite get_insert_ne by done.
Qed.

End PipelineCalls.

(** ** The pipeline of one terms *)

Section TermsRun.

Import Archivist Spec.
Context {E St : Type} {ops : RecorderOps E St}.
Variable fetch : FetchParams -> FetchOutcome E.
Variable extract : string -> Js.val -> option Document -> E + string.
Variable settledAt : nat -> Z.
Variable order : list nat.
Variable describe : exn E -> string.

Abbreviation fetchTermsDocuments := (fetchTermsDocuments (St:=St) fetch settledAt order).
Abbreviation trackTermsChanges := (trackTermsChanges fetch extract settledAt order).
Abbreviation runTask := (runTask fetch extract settledAt order describe).
Abbreviation outcomes := (outcomes fetch settledAt).

Lemma firstRejection_none (outs : list (settled E)) (l : list nat) :
Forall (fun o => ~ isHard o) outs -> firstRejection outs l = None.
Proof.
intros Hsoft. induction l as [|i l IH]; simpl; [done|].
destruct (outs !! i) as [o|] eqn:Hi; [|done].
destruct o; try done.
exfalso. eapply (Forall_lookup_1 _ _ _ _ Hsoft Hi). by eexists.
Qed.

Lemma firstRejection_some (outs : list (settled E)) (l : list nat) (i : nat) (e : exn E) :
In i l -> outs !! i = Some (Rejected e) ->
exists e', firstRejection outs l = Some e' /\ In (Rejected e') outs.
Proof.
intros Hin Hi. induction l as [|j l IH]; [done|]. simpl.
destruct (outs !! j) as [o|] eqn:Hj.
- destruct o as [p|m|e0].
  + destruct Hin as [->|Hin]; [congruence | by apply IH].
  + destruct Hin as [->|Hin]; [congruence | by apply IH].
  + exists e0. split; [done|]. apply list_elem_of_In. by eapply list_elem_of_lookup_2.
- destruct Hin as [->|Hin]; [congruence | by apply IH].
Qed.

Lemma pushed_omap (outs : list (settled E)) (l : list nat) :
pushed outs l
= omap (fun i => outs !! i ≫= fun o => match o with Soft m => Some m | _ => None end) l.
Proof.
induction l as [|i l IH]; simpl; [done|].
destruct (outs !! i) as [[p|m|e]|]; simpl; by rewrite IH.
Qed.

Lemma omap_lookup_seq {A B : Type} (f : A -> option B) (pre l : list A) :
omap (fun i => (pre ++ l) !! i ≫= f) (seq (length pre) (length l)) = omap f l.
Proof.
revert pre. induction l as [|a l IH]; intros pre; simpl; [done|].
rewrite list_lookup_middle by done. simpl.
specialize (IH (pre ++ [a])). rewrite <- app_assoc, length_app in IH. simpl in IH.
rewrite Nat.add_1_r in IH. destruct (f a); [f_equal|]; exact IH.
Qed.

Lemma pushed_fair (outs : list (settled E)) :
Permutation order (seq 0 (length outs)) ->
Permutation (pushed outs order) (softMessages outs).
Proof.
intros Hfair. rewrite pushed_omap. unfold softMessages.
rewrite <- (omap_lookup_seq _ [] outs). simpl. by apply omap_Permutation.
Qed.

Lemma softMessages_nonempty (outs : list (settled E)) :
Exists isSoft outs -> (0 < length (softMessages outs))%nat.
Proof.
induction 1 as [o l [m ->]|o l _ IH]; simpl; [lia|].
unfold softMessages in *. simpl. destruct o; simpl; lia.
Qed.

Lemma fetchTermsDocuments_inaccessible (terms : Terms) (st : state E St) :
fairOrder order terms ->
Forall (fun o => ~ isHard o) (outcomes terms) ->
Exists isSoft (outcomes terms) ->
exists messages,
  fetchTermsDocuments terms st = (inl (InaccessibleContentError messages), st)
  /\ Permutation messages (softMessages (outcomes terms)).
Proof.
intros Hfair Hno Hsome. unfold Archivist.fetchTermsDocuments.
fold (Spec.outcomes fetch settledAt terms).
rewrite firstRejection_none by done.
assert (Hperm : Permutation (pushed (outcomes terms) order) (softMessages (outcomes terms))).
{ apply pushed_fair. unfold Spec.outcomes. by rewrite length_imap. }
pose proof (softMessages_nonempty _ Hsome) as Hlen.
rewrite <- (Permutation_length Hperm) in Hlen.
destruct (Nat.ltb_spec 0 (length (pushed (outcomes terms) order))); [|lia].
by eexists.
Qed.

Lemma fetchTermsDocuments_hard (terms : Terms) (st : state E St) :
fairOrder order terms ->
Exists isHard (outcomes terms) ->
exists e,
  fetchTermsDocuments terms st = (inl e, st)
  /\ In (Rejected e) (outcomes terms).
Proof.
intros Hfair Hhard. apply Exists_exists in Hhard as (o & Hin & e & ->).
apply list_elem_of_lookup in Hin as [i Hi].
assert (Hio : In i order).
{ apply (Permutation_in _ (Permutation_sym Hfair)), in_seq.
  apply lookup_lt_Some in Hi. unfold Spec.outcomes in Hi. rewrite length_imap in Hi. lia. }
destruct (firstRejection_some _ _ _ _ Hio Hi) as (e' & Hfirst & Hin').
exists e'. split; [|done].
unfold Archivist.fetchTermsDocuments. fold (Spec.outcomes fetch settledAt terms).
by rewrite Hfirst.
Qed.

(** What the callback of [fetchTermsDocuments] rejects with is the error
  of the fetch, never an aggregate. *)
Lemma rejected_is_fetch_failure (terms : Terms) (e : exn E) :
In (Rejected e) (outcomes terms) -> exists fe, e = FetchFailure fe.
Proof.
intros Hin. rewrite <- list_elem_of_In in Hin.
apply list_elem_of_lookup in Hin as [i Hi].
unfold Spec.outcomes in Hi. rewrite list_lookup_imap in Hi.
destruct (documents terms !! i) as [d|]; [|done]. simpl in Hi.
unfold fetchDocument in Hi.
destruct (fetch _) as [m c|[message|e0]]; [done| |].
- destruct (Str.includes message "EAI_AGAIN"); [|done].
  injection Hi as <-. by eexists.
- injection Hi as <-. by eexists.
Qed.

Lemma trackTermsChanges_fetch_failed (task : Task) (st : state E St) (e : exn E) :
Js.truthy (task_extractOnly task) = false ->
fetchTermsDocuments (task_terms task) st = (inl e, st) ->
trackTermsChanges task st = (inl e, st).
Proof.
intros Hlive Hfetch. unfold Archivist.trackTermsChanges, bind.
rewrite Hlive. cbn [negb]. by rewrite Hfetch.
Qed.

(** C2, as the code has it.  In a run that fetches (not extract-only),
  with every fetch settling once:
  - when no fetch fails hard and some fail as inaccessible, the run
    fails with one [InaccessibleContentError] carrying every soft
    failure message, and nothing else has happened: no snapshot was
    recorded, none of the fetched documents included, and no event
    emitted; the error callback of the queue then emits one
    [inaccessibleContent] event (unless the text of the error has the
    quota marker);
  - when some fetch fails hard, the run fails with that fetch error
    itself, again before any snapshot is recorded. *)
Theorem inaccessible_content_fails_the_run (task : Task) (st : state E St) :
Js.truthy (task_extractOnly task) = false ->
fairOrder order (task_terms task) ->
(Forall (fun o => ~ isHard o) (outcomes (task_terms task)) ->
 Exists isSoft (outcomes (task_terms task)) ->
 exists messages,
   trackTermsChanges task st = (inl (InaccessibleContentError messages), st)
   /\ Permutation messages (softMessages (outcomes (task_terms task)))
   /\ (Str.includes (describe (InaccessibleContentError messages))
         "HttpError: API rate limit exceeded for user ID" = false ->
       runTask task st
       = (inr tt,
          {| recorder := recorder st;
             events :=
               events st
               ++ [inaccessibleContent (InaccessibleContentError messages)
                     (service_id (service (task_terms task)))
                     (termsType (task_terms task)) (task_terms task)];
             trackingQueue := trackingQueue st |})))
/\ (Exists isHard (outcomes (task_terms task)) ->
    exists fe,
      trackTermsChanges task st = (inl (FetchFailure fe), st)
      /\ In (Rejected (FetchFailure fe)) (outcomes (task_terms task))).
Proof.
intros Hlive Hfair. split.
- intros Hno Hsome.
  destruct (fetchTermsDocuments_inaccessible _ st Hfair Hno Hsome) as (ms & Hfetch & Hperm).
  exists ms. split; [by apply trackTermsChanges_fetch_failed|]. split; [done|].
  intros Hquota. unfold Archivist.runTask.
  rewrite (trackTermsChanges_fetch_failed _ _ _ Hlive Hfetch).
  unfold onTaskError. by rewrite Hquota.
- intros Hhard.
  destruct (fetchTermsDocuments_hard _ st Hfair Hhard) as (e & Hfetch & Hin).
  destruct (rejected_is_fetch_failure _ _ Hin) as [fe ->].
  exists fe. split; [by apply trackTermsChanges_fetch_failed | done].
Qed.

Lemma sequence_Forall2 {X A B : Type} (f : A -> X + B) (l : list A) (l' : list B) :
Forall2 (fun a b => f a = inr b) l l' -> sequence (map f l) = inr l'.
Proof.
induction 1 as [|a b l l' Hab _ IH]; simpl; [done|]. by rewrite Hab, IH.
Qed.

Lemma sequence_inr {X A : Type} (l : list (X + A)) (l' : list A) :
sequence l = inr l' -> l = map inr l'.
Proof.
revert l'. induction l as [|[e|a] l IH]; intros l'; simpl.
- by intros [= <-].
- done.
- destruct (sequence l) as [e|r]; [done|]. intros [= <-]. simpl. by rewrite (IH r).
Qed.

Lemma snapshotStage_run (task : Task) (st st1 : state E St) :
snapshotStage fetch settledAt order task st st1 ->
(if negb (Js.truthy (task_extractOnly task))
 then bind (fetchTermsDocuments (task_terms task))
        (fun fetched => bind (all (map recordSnapshot fetched)) (fun _ => ret tt))
 else ret tt) st
= (inr tt, st1).
Proof.
intros [[-> ->]|(-> & fetched & ids & Hfetch & Hall)]; simpl; [done|].
unfold bind. by rewrite Hfetch, Hall.
Qed.

Lemma getTermsSnapshots_order (terms : Terms) (st st' : state E St)
  (snapshots : list Snapshot) :
getTermsSnapshots terms st = (inr snapshots, st') ->
st' = st
/\ exists latest,
    Forall2 (fun document found =>
               recorder_getLatestSnapshot (service_id (service terms)) (termsType terms)
                 (documentIdOf (isMultiDocument terms) (doc_id document)) (recorder st)
               = inr found)
      (documents terms) latest
    /\ snapshots = omap (fun found => found) latest.
Proof.
unfold getTermsSnapshots.
destruct (sequence _) as [e|latest] eqn:Hseq; [done|].
intros [= <- <-]. split; [done|]. exists latest. split; [|done].
apply sequence_inr in Hseq. revert latest Hseq.
induction (documents terms) as [|d l IH]; intros [|o latest] Hseq; simpl in *; try done.
injection Hseq as Hd Hl. constructor; [done | by apply IH].
Qed.

(** With distinct document ids, the document an extraction is given is
  the one the snapshot was taken from. *)
Lemma documentOf_declared (documents : list Document) (document : Document) (d : string) :
NoDup (map doc_id documents) ->
In document documents -> doc_id document = Some d -> d <> "" ->
documentOf (Some d) documents = Some document.
Proof.
intros Hnodup Hin Hid Hd. unfold documentOf, Js.truthyStr.
destruct (String.eqb_spec d ""); [done|]. simpl.
induction documents as [|x l IH]; [done|]. simpl in *.
apply NoDup_cons in Hnodup as [Hx Hl].
destruct (doc_id x) as [i|] eqn:Hi.
- destruct (String.eqb_spec d i) as [->|Hne].
  + destruct Hin as [->|Hin]; [done|]. exfalso. apply Hx.
    apply list_elem_of_In, in_map_iff. exists document. by rewrite Hid.
  + destruct Hin as [->|Hin]; [congruence | by apply IH].
- destruct Hin as [->|Hin]; [congruence | by apply IH].
Qed.

(** C3.  When the stage before has gone through and the snapshots loaded
  are [first :: others] (the latest snapshot of each document that has
  one, in the order the documents are declared), and their extractions
  give the texts [extracted], the run hands one version to the recorder:
  its content is the texts joined by a blank line, its snapshot ids are
  the ids of the loaded snapshots in that order, and its fetch date is
  that of the first loaded snapshot.  The recorder is left as that save
  leaves it; when the save fails the run fails with its error, and
  otherwise the run emits the event of the version: [versionNotChanged]
  when the save gave no id, [firstVersionRecorded] or [versionRecorded]
  with the id otherwise. *)
Theorem version_assembles_documents (task : Task) (st st1 : state E St)
  (first : Snapshot) (others : list Snapshot) (extracted : list string) :
snapshotStage fetch settledAt order task st st1 ->
getTermsSnapshots (task_terms task) st1 = (inr (first :: others), st1) ->
Forall2 (fun snapshot text =>
           extract (content snapshot) (mimeType snapshot)
             (documentOf (documentId snapshot) (documents (task_terms task)))
           = inr text)
  (first :: others) extracted ->
let serviceId := service_id (service (task_terms task)) in
let termsType := termsType (task_terms task) in
let version :=
  Js.object [("serviceId", Js.Str serviceId);
             ("termsType", Js.Str termsType);
             ("content", Js.Str (Str.join (DataMapper.LF +:+ DataMapper.LF) extracted));
             ("fetchDate", fetchDate first);
             ("snapshotIds", Js.Arr (map Js.Str (map id (first :: others))));
             ("extractOnly", task_extractOnly task)] in
trackTermsChanges task st
= match recorder_recordVersion version (recorder st1) with
  | (inl e, saved) =>
      (inl e, {| recorder := saved; events := events st1;
                 trackingQueue := trackingQueue st1 |})
  | (inr result, saved) =>
      (inr tt,
       {| recorder := saved;
          events :=
            events st1
            ++ [if Js.truthyStr (res_id result)
                then (if res_isFirstRecord result
                      then firstVersionRecorded else versionRecorded)
                       serviceId termsType (default "" (res_id result))
                else versionNotChanged serviceId termsType];
          trackingQueue := trackingQueue st1 |})
  end
/\ (forall s1 s2, extracted = [s1; s2] ->
     Str.join (DataMapper.LF +:+ DataMapper.LF) extracted
     = s1 +:+ DataMapper.LF +:+ DataMapper.LF +:+ s2)
/\ exists latest,
    Forall2 (fun document found =>
               recorder_getLatestSnapshot (service_id (service (task_terms task)))
                 (Archivist.termsType (task_terms task))
                 (documentIdOf (isMultiDocument (task_terms task)) (doc_id document))
                 (recorder st1)
               = inr found)
      (documents (task_terms task)) latest
    /\ first :: others = omap (fun found => found) latest.
Proof.
intros Hstage Hload Hextract serviceId termsType version. split; [|split].
- unfold Archivist.trackTermsChanges.
  unfold bind at 1. rewrite (snapshotStage_run _ _ _ Hstage).
  unfold bind at 1. rewrite Hload.
  unfold bind at 1. unfold extractVersionContent.
  rewrite (sequence_Forall2 _ _ _ Hextract).
  unfold ret, recordVersion, bind, onRecorder.
  cbn [vp_serviceId vp_termsType vp_content vp_fetchDate vp_snapshotIds vp_extractOnly].
  fold serviceId termsType. fold version.
  destruct (recorder_recordVersion version (recorder st1)) as [[e|result] saved]; [done|].
  by destruct (Js.truthyStr (res_id result)).
- by intros s1 s2 ->.
- by destruct (getTermsSnapshots_order _ _ _ _ Hload) as [_ ?].
Qed.

End TermsRun.

(** The run the spec describes for C2 (document A fetched, document B
    inaccessible) leaves the recorder without any snapshot: the save of A
    is not made. *)
Lemma snapshot_of_fetched_document_counterexample :
  let run :=
    Archivist.trackTermsChanges (ops:=Examples.memoryRecorder) Examples.fetchAOnly
      Examples.extractAll Examples.settledAt [0; 1]%nat Examples.liveTask Examples.fresh in
  ~ ((exists messages, fst run = inl (Archivist.InaccessibleContentError messages))
     /\ exists entry,
         In entry (Examples.snapshots (Archivist.recorder (snd run)))
         /\ Archivist.content (snd entry) = "<main>A</main>").
Proof.
  intros run [_ (entry & Hin & _)]. vm_compute in Hin. exact Hin.
Qed.

Lemma inaccessible_content_fails_the_run_witness :
  exists messages,
    Archivist.trackTermsChanges (ops:=Examples.memoryRecorder) Examples.fetchAOnly
      Examples.extractAll Examples.settledAt [0; 1]%nat Examples.liveTask Examples.fresh
    = (inl (Archivist.InaccessibleContentError messages), Examples.fresh)
    /\ Permutation messages ["The selector main has no match in https://example.org/b"].
Proof.
  destruct (proj1 (inaccessible_content_fails_the_run (ops:=Examples.memoryRecorder)
                     Examples.fetchAOnly Examples.extractAll Examples.settledAt
                     [0; 1]%nat Examples.describeError Examples.liveTask Examples.fresh
                     eq_refl (Permutation_refl _)))
    as (messages & Hrun & Hperm & _).
  - repeat constructor; intros [e He]; discriminate He.
  - right. left. by eexists.
  - exists messages. split; [exact Hrun | exact Hperm].
Defined.

Lemma version_assembles_documents_witness :
  Archivist.trackTermsChanges (ops:=Examples.memoryRecorder) Examples.fetchBoth
    Examples.extractAll Examples.settledAt [1; 0]%nat Examples.liveTask Examples.fresh
  = (inr tt, Examples.versioned).
Proof.
  refine (eq_trans
            (proj1 (version_assembles_documents (ops:=Examples.memoryRecorder)
                      Examples.fetchBoth Examples.extractAll Examples.settledAt
                      [1; 0]%nat Examples.liveTask Examples.fresh Examples.recorded
                      Examples.snapshotA [Examples.snapshotB] ["foo"; "bar"] _ _ _)) _).
  - right. split; [reflexivity|].
    eexists _, _. split; vm_compute; reflexivity.
  - vm_compute. reflexivity.
  - repeat constructor.
  - vm_compute. reflexivity.
Defined.

(** ** Strings, continued *)

Lemma append_cons (c : ascii) (a b : string) : String c a +:+ b = String c (a +:+ b).
Proof. reflexivity. Qed.

Lemma append_nil_l (b : string) : "" +:+ b = b.
Proof. reflexivity. Qed.

Ltac str_simpl := repeat (rewrite append_cons || rewrite append_nil_l); simpl.

Lemma append_nil_r (s : string) : s +:+ "" = s.
Proof. induction s as [|c s IH]; str_simpl; [done | by rewrite IH]. Qed.

Lemma append_assoc (a b c : string) : (a +:+ b) +:+ c = a +:+ b +:+ c.
Proof. induction a as [|x a IH]; str_simpl; [done | by rewrite IH]. Qed.

Lemma length_append (a b : string) :
  String.length (a +:+ b) = (String.length a + String.length b)%nat.
Proof. induction a as [|x a IH]; str_simpl; [done | by rewrite IH]. Qed.

Lemma drop_append (a b : string) : Str.drop (String.length a) (a +:+ b) = b.
Proof. induction a as [|x a IH]; str_simpl; [by destruct b | done]. Qed.

Lemma forallb_append (p : ascii -> bool) (a b : string) :
  Str.forallb p (a +:+ b) = Str.forallb p a && Str.forallb p b.
Proof. induction a as [|x a IH]; str_simpl; [done | by rewrite IH, andb_assoc]. Qed.

Lemma forallb_impl (p q : ascii -> bool) (s : string) :
  (forall c, p c = true -> q c = true) ->
  Str.forallb p s = true -> Str.forallb q s = true.
Proof.
  intros Hpq. induction s as [|c s IH]; simpl; [done|].
  intros [Hc Hs]%andb_prop. by rewrite (Hpq _ Hc), IH.
Qed.

Lemma eqb_append_longer (c : ascii) (a b : string) :
  String.eqb (String c (a +:+ b)) b = false.
Proof.
  apply String.eqb_neq. intros H. apply (f_equal String.length) in H.
  simpl in H. rewrite length_append in H. lia.
Qed.

(** *** Finding a text *)

Lemma prefix_nil (s : string) : String.prefix "" s = true.
Proof. by destruct s. Qed.

Lemma prefix_cons (a b : ascii) (p s : string) :
  String.prefix (String a p) (String b s) = Ascii.eqb a b && String.prefix p s.
Proof.
  simpl. destruct (ascii_dec a b) as [->|Hne].
  - by rewrite Ascii.eqb_refl.
  - by apply Ascii.eqb_neq in Hne as ->.
Qed.

Lemma prefix_cons_nil (a : ascii) (p : string) : String.prefix (String a p) "" = false.
Proof. reflexivity. Qed.

#[local] Arguments String.prefix : simpl never.

(** The first occurrence of a text that starts with a character [a]
    lacks. *)
Lemma find_sub_first_char (c : ascii) (pat a b : string) :
  Str.forallb (fun x => negb (Ascii.eqb x c)) a = true ->
  Str.find_sub (String c pat) (a +:+ String c pat +:+ b) = Some (a, b).
Proof.
  intros Ha. induction a as [|x a IH].
  - rewrite append_nil_l.
    rewrite find_sub_prefix by apply prefix_app. by rewrite drop_append.
  - simpl in Ha. apply andb_prop in Ha as [Hx Ha].
    rewrite append_cons, find_sub_cons.
    + by rewrite IH.
    + rewrite prefix_cons, Ascii.eqb_sym. by apply negb_true_iff in Hx as ->.
Qed.

Lemma includes_cons (pat : string) (c : ascii) (s : string) :
  Str.includes (String c s) pat = false ->
  String.prefix pat (String c s) = false /\ Str.includes s pat = false.
Proof.
  unfold Str.includes. rewrite find_sub_eq.
  destruct (String.prefix pat (String c s)); [done|].
  by destruct (Str.find_sub pat s) as [[]|].
Qed.

Lemma includes_false (pat s : string) :
  Str.includes s pat = false -> Str.find_sub pat s = None.
Proof. unfold Str.includes. by destruct (Str.find_sub pat s). Qed.

(** The separator between terms type and document id is found right
    after a text that does not contain it. *)
Lemma find_sub_separator (t rest : string) :
  Str.includes t " #" = false ->
  Str.find_sub " #" (t +:+ " #" +:+ rest) = Some (t, rest).
Proof.
  induction t as [|x t IH]; intros Ht.
  - rewrite append_nil_l, find_sub_prefix by apply prefix_app.
    by rewrite drop_append.
  - apply includes_cons in Ht as [Hx Ht].
    rewrite append_cons, find_sub_cons; [by rewrite IH|].
    rewrite prefix_cons in *. destruct (Ascii.eqb " " x); [|done]. simpl in *.
    destruct t as [|y t]; str_simpl; [done|].
    rewrite prefix_cons, prefix_nil in *. done.
Qed.

Lemma split_separator (t d : string) :
  Str.includes t " #" = false -> Str.includes d " #" = false ->
  Str.split (t +:+ " #" +:+ d) " #" = [t; d].
Proof.
  intros Ht Hd. unfold Str.split. rewrite length_append. simpl String.length.
  rewrite Nat.add_succ_r. simpl. rewrite find_sub_separator by done.
  destruct (_ + _)%nat; simpl; [done|]. by rewrite (includes_false _ _ Hd).
Qed.

Lemma split_none (t : string) :
  Str.includes t " #" = false -> Str.split t " #" = [t].
Proof.
  intros Ht. unfold Str.split. destruct (String.length t); simpl; [done|].
  by rewrite (includes_false _ _ Ht).
Qed.

(** *** Words *)

#[local] Arguments Str.isWordChar : simpl never.
#[local] Arguments Str.isLowerHex : simpl never.
#[local] Arguments Str.isSlash : simpl never.
#[local] Arguments Str.isDot : simpl never.
#[local] Arguments Str.isLineTerminator : simpl never.
#[local] Arguments Str.lowerChar : simpl never.
#[local] Arguments Spec.plainChar : simpl never.

Lemma scan_cons_word (acc : string) (c : ascii) (s : string) :
  Str.isWordChar c = true -> Str.scan acc (String c s) = Str.scan (acc +:+ String c "") s.
Proof. intros H. simpl. by rewrite H. Qed.

Lemma scan_cons_sep (acc : string) (c : ascii) (s : string) :
  Str.isWordChar c = false -> Str.scan acc (String c s) = Str.flush acc ++ Str.words s.
Proof. intros H. simpl. by rewrite H. Qed.

Lemma scan_word (acc w s : string) :
  Str.forallb Str.isWordChar w = true -> Str.scan acc (w +:+ s) = Str.scan (acc +:+ w) s.
Proof.
  revert acc. induction w as [|c w IH]; intros acc Hw.
  - by rewrite append_nil_l, append_nil_r.
  - simpl in Hw. apply andb_prop in Hw as [Hc Hw].
    rewrite append_cons, scan_cons_word, IH by done.
    by rewrite append_assoc.
Qed.

(** A text that starts with a separator starts afresh. *)
Lemma scan_app_startsSep (acc a b : string) :
  Spec.startsSep b = true -> Str.scan acc (a +:+ b) = Str.scan acc a ++ Str.words b.
Proof.
  intros Hb. revert acc. induction a as [|c a IH]; intros acc.
  - rewrite append_nil_l. destruct b as [|x b]; simpl.
    + by rewrite app_nil_r.
    + simpl in Hb. apply negb_true_iff in Hb. rewrite Hb.
      unfold Str.words. simpl. by rewrite Hb.
  - rewrite append_cons. destruct (Str.isWordChar c) eqn:Hc.
    + rewrite !scan_cons_word by done. apply IH.
    + rewrite !scan_cons_sep by done. unfold Str.words.
      rewrite IH. by rewrite app_assoc.
Qed.

Lemma endsSep_cons (c : ascii) (s : string) :
  s <> "" -> Spec.endsSep (String c s) = Spec.endsSep s.
Proof. by destruct s. Qed.

(** A text that ends with a separator leaves no word open. *)
Lemma scan_app_endsSep (acc a b : string) :
  a <> "" -> Spec.endsSep a = true ->
  Str.scan acc (a +:+ b) = Str.scan acc a ++ Str.words b.
Proof.
  revert acc. induction a as [|c a IH]; intros acc Hne Ha; [done|].
  destruct a as [|c' a].
  - simpl in Ha. apply negb_true_iff in Ha.
    rewrite append_cons, append_nil_l, !scan_cons_sep by done.
    simpl. by rewrite app_nil_r.
  - rewrite endsSep_cons in Ha by done.
    rewrite append_cons. destruct (Str.isWordChar c) eqn:Hc.
    + rewrite !scan_cons_word by done. by apply IH.
    + rewrite !scan_cons_sep by done. unfold Str.words.
      rewrite IH by done. by rewrite app_assoc.
Qed.

Lemma words_app_endsSep (a b : string) :
  Spec.endsSep a = true -> Str.words (a +:+ b) = Str.words a ++ Str.words b.
Proof.
  intros Ha. destruct a as [|c a]; [done|]. by apply scan_app_endsSep.
Qed.

Lemma words_app_startsSep (a b : string) :
  Spec.startsSep b = true -> Str.words (a +:+ b) = Str.words a ++ Str.words b.
Proof. apply scan_app_startsSep. Qed.

Lemma words_word (w : string) :
  w <> "" -> Str.forallb Str.isWordChar w = true -> Str.words w = [w].
Proof.
  intros Hne Hw. unfold Str.words. rewrite <- (append_nil_r w) at 1.
  rewrite scan_word by done. simpl. by destruct w.
Qed.

(** A word between two separators is a word of the whole. *)
Lemma words_around (a w b : string) :
  Spec.endsSep a = true -> Spec.startsSep b = true ->
  w <> "" -> Str.forallb Str.isWordChar w = true ->
  Str.words (a +:+ w +:+ b) = Str.words a ++ [w] ++ Str.words b.
Proof.
  intros Ha Hb Hne Hw.
  rewrite words_app_endsSep, words_app_startsSep by done.
  by rewrite (words_word w).
Qed.

Lemma isLowerHex_word (c : ascii) : Str.isLowerHex c = true -> Str.isWordChar c = true.
Proof. destruct c as [[] [] [] [] [] [] [] []]; vm_compute; done. Qed.

(** *** Snapshot ids in a text *)

Section SnapshotWords.

Import DataMapper Spec.

Lemma matchSnapshotIds_default (body : string) :
default [] (matchSnapshotIds body) = snapshotWords body.
Proof.
unfold matchSnapshotIds, snapshotWords.
by destruct (filter _ (Str.words body)).
Qed.

Lemma snapshotWords_app_endsSep (a b : string) :
endsSep a = true -> snapshotWords (a +:+ b) = snapshotWords a ++ snapshotWords b.
Proof. intros Ha. unfold snapshotWords. by rewrite words_app_endsSep, filter_app. Qed.

Lemma snapshotWords_app_startsSep (a b : string) :
startsSep b = true -> snapshotWords (a +:+ b) = snapshotWords a ++ snapshotWords b.
Proof. intros Hb. unfold snapshotWords. by rewrite words_app_startsSep, filter_app. Qed.

Lemma noSnapshotId_words (s : string) : noSnapshotId s = true -> snapshotWords s = [].
Proof.
unfold noSnapshotId, snapshotWords.
induction (Str.words s) as [|w l IH]; simpl; [done|].
intros [Hw Hl]%andb_prop. apply negb_true_iff in Hw.
rewrite filter_cons_False by (by rewrite Hw). by apply IH.
Qed.

Lemma isSnapshotId_word (w : string) :
isSnapshotId w = true -> w <> "" /\ Str.forallb Str.isWordChar w = true.
Proof.
unfold isSnapshotId. intros [[Hhex Hlen]%andb_prop _]%andb_prop. split.
- intros ->. simpl in Hlen. done.
- eapply forallb_impl; [|exact Hhex]. apply isLowerHex_word.
Qed.

(** A snapshot id between two separators is read back, alone. *)
Lemma snapshotWords_around (a w b : string) :
endsSep a = true -> startsSep b = true -> isSnapshotId w = true ->
snapshotWords (a +:+ w +:+ b) = snapshotWords a ++ [w] ++ snapshotWords b.
Proof.
intros Ha Hb Hw. destruct (isSnapshotId_word _ Hw) as [Hne Hword].
unfold snapshotWords. rewrite words_around by done.
rewrite !filter_app. by rewrite (filter_cons_True _ w) by done.
Qed.

(** A word that is no snapshot id, or no text at all, between two
  separators is not read back. *)
Lemma snapshotWords_around_other (a w b : string) :
endsSep a = true -> startsSep b = true ->
Str.forallb Str.isWordChar w = true -> isSnapshotId w = false ->
snapshotWords (a +:+ w +:+ b) = snapshotWords a ++ snapshotWords b.
Proof.
intros Ha Hb Hword Hw. destruct w as [|c w].
- rewrite append_nil_l. by apply snapshotWords_app_endsSep.
- unfold snapshotWords. rewrite words_around by done.
  rewrite !filter_app. by rewrite filter_cons_False by (by rewrite Hw).
Qed.

Lemma endsSep_append (a b : string) :
b <> "" -> endsSep (a +:+ b) = endsSep b.
Proof.
intros Hb. induction a as [|c a IH]; [done|].
rewrite append_cons, endsSep_cons; [done|].
destruct a; [by rewrite append_nil_l | by rewrite append_cons].
Qed.

(** *** Replacing the marker *)

Lemma getSubstitution_plain (matched before after repl : string) :
Str.forallb (fun c => negb (Ascii.eqb c "$")) repl = true ->
Str.getSubstitution matched before after repl = repl.
Proof.
induction repl as [|c r IH]; simpl; [done|].
intros [Hc Hr]%andb_prop. apply negb_true_iff in Hc. by rewrite Hc, IH.
Qed.

Lemma replace_found (s pat repl a b : string) :
Str.find_sub pat s = Some (a, b) ->
Str.forallb (fun c => negb (Ascii.eqb c "$")) repl = true ->
Str.replace s pat repl = a +:+ repl +:+ b.
Proof.
intros Hfind Hplain. unfold Str.replace. by rewrite Hfind, getSubstitution_plain.
Qed.

Lemma isLowerHex_plain (c : ascii) :
Str.isLowerHex c = true -> negb (Ascii.eqb c "$") = true.
Proof. destruct c as [[] [] [] [] [] [] [] []]; vm_compute; done. Qed.

Lemma isSnapshotId_plain (w : string) :
isSnapshotId w = true -> Str.forallb (fun c => negb (Ascii.eqb c "$")) w = true.
Proof.
unfold isSnapshotId. intros [[Hhex _]%andb_prop _]%andb_prop.
eapply forallb_impl; [|exact Hhex]. apply isLowerHex_plain.
Qed.

(** *** The decimal text of a number *)

Lemma string_of_uint_digits (d : Decimal.uint) :
Str.forallb Str.isDigit (NilEmpty.string_of_uint d) = true.
Proof. induction d; simpl; done. Qed.

Lemma isDigit_word (c : ascii) : Str.isDigit c = true -> Str.isWordChar c = true.
Proof. destruct c as [[] [] [] [] [] [] [] []]; vm_compute; done. Qed.

Lemma isDigit_plain (c : ascii) : Str.isDigit c = true -> negb (Ascii.eqb c "$") = true.
Proof. destruct c as [[] [] [] [] [] [] [] []]; vm_compute; done. Qed.

Lemma ofNat_word (n : nat) : Str.forallb Str.isWordChar (Str.ofNat n) = true.
Proof.
eapply forallb_impl; [apply isDigit_word | apply string_of_uint_digits].
Qed.

Lemma ofNat_plain (n : nat) :
Str.forallb (fun c => negb (Ascii.eqb c "$")) (Str.ofNat n) = true.
Proof.
eapply forallb_impl; [apply isDigit_plain | apply string_of_uint_digits].
Qed.

(** The number of snapshot ids is read as a snapshot id from ten
    thousand on. *)
Lemma count_not_snapshotId (n : nat) :
  (n < 10 * 1000)%nat -> isSnapshotId (Str.ofNat n) = false.
Proof.
  intros Hn.
  assert (Hall : forallb (fun n => negb (isSnapshotId (Str.ofNat n))) (seq 0 (10 * 1000))
                 = true) by (vm_compute; reflexivity).
  rewrite forallb_forall in Hall. apply negb_true_iff, Hall, in_seq. lia.
Qed.

End SnapshotWords.

(** ** The round trip of the codec *)

Section RoundTrip.

Import DataMapper Spec.
Variable standard : Mime.t.

(** *** What is written *)

Lemma toPersistence_message (r : record) (template : string) :
p_message (toPersistence standard r template)
= subjectOf r +:+ LF +:+ LF +:+ documentIdMessageOf r +:+ LF +:+ LF
  +:+ snapshotIdsMessageOf template (snapshotIds r).
Proof.
unfold toPersistence, subjectOf, documentIdMessageOf, snapshotIdsMessageOf. simpl.
destruct (isFirstRecord r), (isExtractOnly r), (snapshotIds r) as [|x [|y l]]; reflexivity.
Qed.

Lemma toPersistence_filePath (r : record) (template : string) :
p_filePath (toPersistence standard r template)
= serviceId r +:+ "/" +:+ baseNameOf r +:+ "."
  +:+ default "*" (Mime.getExtension (mime standard) (mimeType r)).
Proof.
unfold toPersistence, generateFilePath, generateFileName, baseNameOf. simpl.
by rewrite append_assoc.
Qed.

(** *** The snapshot ids are read back from the body *)

Lemma startsSep_LF (s : string) : startsSep (LF +:+ s) = true.
Proof. reflexivity. Qed.

Section Template.

Variables template pre post : string.
Hypothesis Hmarker : Str.find_sub SNAPSHOT_ID_MARKER template = Some (pre, post).
Hypothesis Hpre : endsSep pre = true.
Hypothesis Hpost : startsSep post = true.
Hypothesis Hpre_words : noSnapshotId pre = true.
Hypothesis Hpost_words : noSnapshotId post = true.

Lemma template_replace (snapshotId : string) :
  isSnapshotId snapshotId = true ->
  Str.replace template SNAPSHOT_ID_MARKER snapshotId = pre +:+ snapshotId +:+ post.
Proof. intros Hid. apply replace_found; [done | by apply isSnapshotId_plain]. Qed.

Lemma template_snapshotWords (snapshotId : string) :
  isSnapshotId snapshotId = true ->
  snapshotWords (Str.replace template SNAPSHOT_ID_MARKER snapshotId) = [snapshotId].
Proof.
  intros Hid. rewrite template_replace, snapshotWords_around by done.
  by rewrite !noSnapshotId_words.
Qed.

Lemma line_snapshotWords (snapshotId : string) :
  isSnapshotId snapshotId = true ->
  snapshotWords ("- " +:+ Str.replace template SNAPSHOT_ID_MARKER snapshotId) = [snapshotId].
Proof.
  intros Hid. rewrite snapshotWords_app_endsSep by done.
  by rewrite template_snapshotWords.
Qed.

Lemma lines_snapshotWords (ids : list string) :
  forallb isSnapshotId ids = true ->
  snapshotWords
(Str.join LF
   (map (fun snapshotId =>
           "- " +:+ Str.replace template SNAPSHOT_ID_MARKER snapshotId) ids))
  = ids.
Proof.
  induction ids as [|x [|y l] IH]; intros Hids; [done| |].
  - simpl in Hids. apply andb_prop in Hids as [Hx _]. by apply line_snapshotWords.
  - change (forallb isSnapshotId (x :: y :: l))
  with (isSnapshotId x && forallb isSnapshotId (y :: l)) in Hids.
apply andb_prop in Hids as [Hx Hl].
change (Str.join LF (map ?f (x :: y :: l)))
  with (f x +:+ LF +:+ Str.join LF (map f (y :: l))).
rewrite snapshotWords_app_startsSep by apply startsSep_LF.
rewrite line_snapshotWords by done.
rewrite (snapshotWords_app_endsSep LF) by done.
by rewrite IH.
Qed.

Lemma multiple_prefix_snapshotWords (n : nat) :
  isSnapshotId (Str.ofNat n) = false ->
  snapshotWords (Str.replace MULTIPLE_SNAPSHOT_PREFIX "%NUMBER" (Str.ofNat n)) = [].
Proof.
  intros Hn. erewrite replace_found; [|vm_compute; reflexivity | apply ofNat_plain].
  by rewrite snapshotWords_around_other by (done || apply ofNat_word).
Qed.

Lemma snapshotIdsMessage_snapshotWords (ids : list string) :
  validSnapshotIds ids = true ->
  snapshotWords (snapshotIdsMessageOf template ids) = ids.
Proof.
  unfold validSnapshotIds. intros [Hids Hn]%andb_prop. apply negb_true_iff in Hn.
  destruct ids as [|x [|y l]]; [done| |].
  - simpl in Hids. apply andb_prop in Hids as [Hx _].
unfold snapshotIdsMessageOf.
rewrite snapshotWords_app_startsSep by done.
rewrite (snapshotWords_app_endsSep " ") by done.
by rewrite template_snapshotWords.
  - unfold snapshotIdsMessageOf.
rewrite snapshotWords_app_startsSep by apply startsSep_LF.
rewrite multiple_prefix_snapshotWords by done.
rewrite (snapshotWords_app_endsSep LF) by done.
by rewrite lines_snapshotWords.
Qed.

End Template.

Lemma snapshotIdsMessage_fits (template : string) (r : record) :
templateFits template r = true -> validSnapshotIds (snapshotIds r) = true ->
snapshotWords (snapshotIdsMessageOf template (snapshotIds r)) = snapshotIds r.
Proof.
unfold templateFits, validTemplate. intros Hfit Hids.
destruct (snapshotIds r) as [|x l] eqn:Hr; [done|].
destruct (Str.find_sub SNAPSHOT_ID_MARKER template) as [[pre post]|] eqn:Hm; [|done].
apply andb_prop in Hfit as [[[Hpre Hpost]%andb_prop Hprew]%andb_prop Hpostw].
by apply (snapshotIdsMessage_snapshotWords template pre post).
Qed.

Lemma documentIdMessage_snapshotWords (r : record) :
snapshotWords (documentIdMessageOf r) = documentIdWords (documentId r).
Proof.
unfold documentIdMessageOf, documentIdWords, Js.truthyStr.
destruct (documentId r) as [d|]; [|done].
destruct (String.eqb_spec d "") as [->|Hne]; [done|]. simpl.
rewrite (snapshotWords_app_endsSep "Document ID ") by done.
rewrite snapshotWords_app_startsSep by apply startsSep_LF.
change (snapshotWords "Document ID ") with (@nil string).
change (snapshotWords (LF +:+ LF)) with (@nil string).
by rewrite app_nil_r.
Qed.

Lemma body_snapshotWords (template : string) (r : record) :
validSnapshotIds (snapshotIds r) = true ->
templateFits template r = true ->
snapshotWords
  (documentIdMessageOf r +:+ LF +:+ LF +:+ snapshotIdsMessageOf template (snapshotIds r))
= documentIdWords (documentId r) ++ snapshotIds r.
Proof.
intros Hids Hfit.
rewrite snapshotWords_app_startsSep by apply startsSep_LF.
rewrite documentIdMessage_snapshotWords.
rewrite (snapshotWords_app_endsSep LF) by done.
rewrite (snapshotWords_app_endsSep LF) by done.
by rewrite snapshotIdsMessage_fits.
Qed.

End RoundTrip.

(** ** Paths *)

Lemma splitLast_none (p : ascii -> bool) (s : string) :
  Str.forallb (fun c => negb (p c)) s = true -> Str.splitLast p s = None.
Proof.
  induction s as [|c s IH]; simpl; [done|].
  intros [Hc Hs]%andb_prop. apply negb_true_iff in Hc. by rewrite IH, Hc.
Qed.

Lemma splitLast_app (p : ascii -> bool) (a : string) (c : ascii) (b : string) :
  p c = true -> Str.forallb (fun c => negb (p c)) b = true ->
  Str.splitLast p (a +:+ String c b) = Some (a, b).
Proof.
  intros Hc Hb. induction a as [|x a IH].
  - rewrite append_nil_l. simpl. by rewrite splitLast_none, Hc.
  - rewrite append_cons. simpl. by rewrite IH.
Qed.

Lemma stripTrailingSlashes_plain (s : string) :
  Str.forallb (fun c => negb (Str.isSlash c)) s = true -> Path.stripTrailingSlashes s = s.
Proof.
  induction s as [|c s IH]; simpl; [done|].
  intros [Hc Hs]%andb_prop. apply negb_true_iff in Hc. rewrite IH, Hc by done.
  by destruct s.
Qed.

Lemma stripTrailingSlashes_app (a b : string) :
  b <> "" -> Str.forallb (fun c => negb (Str.isSlash c)) b = true ->
  Path.stripTrailingSlashes (a +:+ b) = a +:+ b.
Proof.
  intros Hne Hb. induction a as [|c a IH].
  - rewrite append_nil_l. by apply stripTrailingSlashes_plain.
  - rewrite append_cons. simpl. rewrite IH.
    destruct (a +:+ b) eqn:Hab; [|done].
    destruct a; [by rewrite append_nil_l in Hab | by rewrite append_cons in Hab].
Qed.

Lemma stripSuffix_app (r suf : string) : Str.stripSuffix suf (r +:+ suf) = Some r.
Proof.
  induction r as [|c r IH].
  - rewrite append_nil_l. destruct suf; simpl; [done|].
    by rewrite Ascii.eqb_refl, String.eqb_refl.
  - rewrite append_cons.
    assert (Hne : String.eqb (String c (r +:+ suf)) suf = false) by apply eqb_append_longer.
    unfold Str.stripSuffix; fold Str.stripSuffix. by rewrite Hne, IH.
Qed.

Lemma plainChar_spec (c : ascii) :
  Spec.plainChar c = true ->
  Str.isSlash c = false /\ Ascii.eqb c "\" = false /\ Str.isLineTerminator c = false.
Proof.
  unfold Spec.plainChar. intros [_ H%negb_true_iff]%andb_prop.
  apply orb_false_elim in H as [H ?]. by apply orb_false_elim in H as [? ?].
Qed.

Lemma lowerChar_class (c : ascii) :
  Str.isSlash (Str.lowerChar c) = Str.isSlash c
  /\ Ascii.eqb (Str.lowerChar c) "\" = Ascii.eqb c "\"
  /\ Str.isDot (Str.lowerChar c) = Str.isDot c
  /\ Str.isLineTerminator (Str.lowerChar c) = Str.isLineTerminator c.
Proof. destruct c as [[] [] [] [] [] [] [] []]; vm_compute; done. Qed.

Lemma toLowerCase_append (a b : string) :
  Str.toLowerCase (a +:+ b) = Str.toLowerCase a +:+ Str.toLowerCase b.
Proof. induction a as [|c a IH]; str_simpl; [done | by rewrite IH]. Qed.

Lemma toLowerCase_length (s : string) :
  String.length (Str.toLowerCase s) = String.length s.
Proof. induction s as [|c s IH]; simpl; [done | by rewrite IH]. Qed.

Lemma toLowerCase_forallb (p : ascii -> bool) (s : string) :
  (forall c, p (Str.lowerChar c) = p c) ->
  Str.forallb p (Str.toLowerCase s) = Str.forallb p s.
Proof. intros Hp. induction s as [|c s IH]; simpl; [done | by rewrite Hp, IH]. Qed.

Lemma breakLine_one_line (s : string) :
  Str.forallb (fun c => negb (Str.isLineTerminator c)) s = true ->
  Str.breakLine s = (s, "").
Proof.
  induction s as [|c s IH]; simpl; [done|].
  intros [Hc Hs]%andb_prop. apply negb_true_iff in Hc. by rewrite Hc, IH.
Qed.

Section PathOfRecord.

Variables serviceId base ext : string.
Hypothesis Hservice : Spec.validServiceId serviceId = true.
Hypothesis Hbase_ne : base <> "".
Hypothesis Hbase : Str.forallb Spec.plainChar base = true.
Hypothesis Hext_ne : ext <> "".
Hypothesis Hext : Str.forallb (fun c => Spec.plainChar c && negb (Str.isDot c)) ext = true.

Let fileName : string := base +:+ "." +:+ ext.
Let path : string := serviceId +:+ "/" +:+ fileName.

Lemma ext_plain : Str.forallb Spec.plainChar ext = true.
Proof. eapply forallb_impl; [|exact Hext]. by intros c [? _]%andb_prop. Qed.

Lemma ext_no_dot : Str.forallb (fun c => negb (Str.isDot c)) ext = true.
Proof. eapply forallb_impl; [|exact Hext]. by intros c [_ ?]%andb_prop. Qed.

Lemma plain_no_slash (s : string) :
Str.forallb Spec.plainChar s = true ->
Str.forallb (fun c => negb (Str.isSlash c)) s = true.
Proof.
apply forallb_impl. intros c Hc. by destruct (plainChar_spec c Hc) as (-> & _).
Qed.

Lemma fileName_plain : Str.forallb Spec.plainChar fileName = true.
Proof.
unfold fileName. rewrite !forallb_append, Hbase, ext_plain. reflexivity.
Qed.

Lemma fileName_ne : fileName <> "".
Proof. unfold fileName. destruct base; [done | by rewrite append_cons]. Qed.

Lemma fileName_no_slash : Str.forallb (fun c => negb (Str.isSlash c)) fileName = true.
Proof. apply plain_no_slash, fileName_plain. Qed.

Lemma path_split :
Str.splitLast Str.isSlash (Path.stripTrailingSlashes path) = Some (serviceId, fileName).
Proof.
unfold path. rewrite <- append_assoc.
rewrite stripTrailingSlashes_app by (apply fileName_ne || apply fileName_no_slash).
rewrite append_assoc. change ("/" +:+ fileName) with (String "/" fileName).
apply splitLast_app; [done | apply fileName_no_slash].
Qed.

Lemma lastComponent_path : Path.lastComponent path = fileName.
Proof. unfold Path.lastComponent. by rewrite path_split. Qed.

Lemma fileName_split : Str.splitLast Str.isDot fileName = Some (base, ext).
Proof.
unfold fileName. change ("." +:+ ext) with (String "." ext).
apply splitLast_app; [done | apply ext_no_dot].
Qed.

Lemma extname_path : Path.extname path = "." +:+ ext.
Proof.
unfold Path.extname. rewrite lastComponent_path, fileName_split.
destruct (String.eqb_spec base ""); [done|].
destruct (String.eqb_spec fileName ".."%string) as [Hdots|]; [|done].
pose proof fileName_split as Hsplit. rewrite Hdots in Hsplit.
vm_compute in Hsplit. by injection Hsplit as _ <-.
Qed.

Lemma path_length :
String.length path
= (String.length serviceId + 1 + (String.length base + 1 + String.length ext))%nat.
Proof.
unfold path, fileName. rewrite !length_append. simpl. lia.
Qed.

Lemma basename_path : Path.basename path (Some (Path.extname path)) = base.
Proof.
rewrite extname_path. unfold Path.basename.
rewrite lastComponent_path.
change ("." +:+ ext) with (String "." ext).
assert (Hlen : (String.length (String "." ext) <=? String.length path)%nat = true).
{ apply Nat.leb_le. rewrite path_length. simpl. lia. }
assert (Hne : String.eqb (String "." ext) path = false).
{ apply String.eqb_neq. intros Heq. apply (f_equal String.length) in Heq.
  rewrite path_length in Heq. simpl in Heq. lia. }
rewrite Hlen, Hne. simpl negb. cbn [andb].
change (String "." ext) with ("." +:+ ext). unfold fileName.
rewrite stripSuffix_app. by destruct base.
Qed.

Lemma dirname_path : Path.dirname path = serviceId.
Proof.
unfold Spec.validServiceId in Hservice.
apply andb_prop in Hservice as [[Hne Hroot]%andb_prop _].
apply negb_true_iff, String.eqb_neq in Hne, Hroot.
pose proof path_split as Hsplit. unfold path in *.
destruct serviceId as [|c0 s0]; [done|].
rewrite append_cons in *. unfold Path.dirname.
assert (Htail : Str.splitLast Str.isSlash (Path.stripTrailingSlashes (s0 +:+ "/" +:+ fileName))
                = Some (s0, fileName)).
{ rewrite <- append_assoc.
  rewrite stripTrailingSlashes_app by (apply fileName_ne || apply fileName_no_slash).
  rewrite append_assoc. change ("/" +:+ fileName) with (String "/" fileName).
  apply splitLast_app; [done | apply fileName_no_slash]. }
rewrite Htail. destruct (String.eqb_spec s0 "") as [->|]; [|by rewrite andb_false_r].
destruct (Str.isSlash c0) eqn:Hc0; [|done].
apply Ascii.eqb_eq in Hc0 as ->. done.
Qed.

Section GetType.

Variable m : Mime.t.
Hypothesis Hlower : Str.toLowerCase ext = ext.

Lemma path_one_line : Str.forallb (fun c => negb (Str.isLineTerminator c)) path = true.
Proof.
  unfold Spec.validServiceId in Hservice.
  apply andb_prop in Hservice as [_ Hs].
  unfold path. rewrite !forallb_append.
  rewrite (forallb_impl (fun c => Spec.asciiChar c && negb (Str.isLineTerminator c)) _
             serviceId (fun c Hc => proj2 (andb_prop _ _ Hc)) Hs).
  simpl.
  eapply forallb_impl; [|apply fileName_plain].
  intros c Hc. by destruct (plainChar_spec c Hc) as (_ & _ & ->).
Qed.

Lemma getType_path :
  Mime.getType m path
  = match Mime.types m !! ext with
| Some ty => if String.eqb ty "" then None else Some ty
| None => None
end.
Proof.
  unfold Mime.getType.
  assert (Hlast : Str.dropThroughLast (fun c => Str.isSlash c || Ascii.eqb c "\") path
              = fileName).
  { unfold Str.dropThroughLast. rewrite breakLine_one_line by apply path_one_line.
unfold path. change ("/" +:+ fileName) with (String "/" fileName).
rewrite splitLast_app; [by rewrite append_nil_r | done |].
eapply forallb_impl; [|apply fileName_plain].
intros c Hc. by destruct (plainChar_spec c Hc) as (-> & -> & _). }
  rewrite Hlast.
  assert (Hext' : Str.dropThroughLast Str.isDot (Str.toLowerCase fileName) = ext).
  { unfold Str.dropThroughLast. rewrite breakLine_one_line.
- unfold fileName. rewrite !toLowerCase_append, Hlower.
  change (Str.toLowerCase "." +:+ ext) with (String "." ext).
  rewrite splitLast_app; [by rewrite append_nil_r | done | apply ext_no_dot].
- rewrite toLowerCase_forallb by (intros c; by destruct (lowerChar_class c) as (_ & _ & _ & ->)).
  eapply forallb_impl; [|apply fileName_plain].
  intros c Hc. by destruct (plainChar_spec c Hc) as (_ & _ & ->). }
  rewrite Hext', Hlower.
  assert (HhasDot : (String.length ext + 1 <? String.length (Str.toLowerCase fileName))%nat
                = true).
  { apply Nat.ltb_lt. rewrite toLowerCase_length. unfold fileName.
rewrite !length_append. simpl. destruct base; [done | simpl; lia]. }
  by rewrite HhasDot.
Qed.

End GetType.

End PathOfRecord.

(** ** Decoding what was encoded *)

Section DecodeEncode.

Import DataMapper Spec.
Variable standard : Mime.t.

Lemma getExtension_nonempty (m : Mime.t) (ty : option string) (e : string) :
Mime.getExtension m ty = Some e -> e <> "".
Proof.
unfold Mime.getExtension. destruct (String.eqb _ ""); [done|].
destruct (Mime.extensions m !! _) as [x|]; [|done].
destruct (String.eqb_spec x ""); [done|]. by intros [= <-].
Qed.

Lemma one_line_no_LF (s : string) :
Str.forallb (fun c => negb (Str.isLineTerminator c)) s = true ->
Str.forallb (fun c => negb (Ascii.eqb c "010")) s = true.
Proof.
apply forallb_impl. intros c Hc. apply negb_true_iff in Hc.
unfold Str.isLineTerminator in Hc. apply orb_false_elim in Hc as [-> _]. done.
Qed.

Lemma plain_one_line (s : string) :
Str.forallb plainChar s = true ->
Str.forallb (fun c => negb (Str.isLineTerminator c)) s = true.
Proof.
apply forallb_impl. intros c Hc. by destruct (plainChar_spec c Hc) as (_ & _ & ->).
Qed.

Lemma ascii_one_line (s : string) :
Str.forallb (fun c => asciiChar c && negb (Str.isLineTerminator c)) s = true ->
Str.forallb (fun c => negb (Str.isLineTerminator c)) s = true.
Proof. apply forallb_impl. by intros c [_ ?]%andb_prop. Qed.

Lemma subject_one_line (r : record) :
validServiceId (serviceId r) = true -> validName (termsType r) = true ->
Str.forallb (fun c => negb (Ascii.eqb c "010")) (subjectOf r) = true.
Proof.
unfold validServiceId, validName.
intros [_ Hs]%andb_prop [[_ Ht]%andb_prop _]%andb_prop.
unfold subjectOf. rewrite !forallb_append.
rewrite (one_line_no_LF _ (ascii_one_line _ Hs)), (one_line_no_LF _ (plain_one_line _ Ht)).
by destruct (isFirstRecord r), (isExtractOnly r).
Qed.

(** The commit read back from what [toPersistence] wrote. *)
Lemma commitOf_encoded (template hash date : string) (r : record) :
validServiceId (serviceId r) = true -> validName (termsType r) = true ->
commitOf hash date (toPersistence standard r template)
= {| hash := hash; date_ := date;
     message := subjectOf r;
     body := documentIdMessageOf r +:+ LF +:+ LF
             +:+ snapshotIdsMessageOf template (snapshotIds r);
     diff := {| files := [ {| file := p_filePath (toPersistence standard r template) |} ] |} |}.
Proof.
intros Hs Ht. unfold commitOf. rewrite toPersistence_message.
change (Str.find_sub (LF +:+ LF) (subjectOf r +:+ LF +:+ LF +:+ ?rest))
  with (Str.find_sub (String "010" LF) (subjectOf r +:+ String "010" LF +:+ rest)).
by rewrite find_sub_first_char by by apply subject_one_line.
Qed.

(** The flags read back from the subject: the prefix of a first record
  hides the extract-only one. *)
Lemma subject_flags (r : record) :
Str.startsWith (subjectOf r) COMMIT_MESSAGE_PREFIX.startTracking
|| Str.startsWith (subjectOf r) COMMIT_MESSAGE_PREFIX.deprecated_startTracking
= isFirstRecord r
/\ Str.startsWith (subjectOf r) COMMIT_MESSAGE_PREFIX.extractOnly
   || Str.startsWith (subjectOf r) COMMIT_MESSAGE_PREFIX.deprecated_refilter
   = isExtractOnly r && negb (isFirstRecord r).
Proof.
unfold subjectOf. destruct (isFirstRecord r), (isExtractOnly r); vm_compute; done.
Qed.

Lemma baseNameOf_valid (r : record) :
validName (termsType r) = true -> validDocumentId (documentId r) = true ->
baseNameOf r <> "" /\ Str.forallb plainChar (baseNameOf r) = true.
Proof.
unfold validName, validDocumentId, baseNameOf.
intros [[Hne Ht]%andb_prop _]%andb_prop Hd.
apply negb_true_iff, String.eqb_neq in Hne. split.
- destruct (termsType r); [done | by rewrite append_cons].
- rewrite forallb_append, Ht.
  destruct (documentId r) as [d|]; [|done].
  destruct (Js.truthyStr (Some d)); [|done].
  apply andb_prop in Hd as [[_ Hd]%andb_prop _].
  rewrite forallb_append. simpl default. rewrite Hd. by vm_compute.
Qed.

Lemma baseNameOf_split (r : record) :
validName (termsType r) = true -> validDocumentId (documentId r) = true ->
exists parts,
  Str.split (baseNameOf r) TERMS_TYPE_AND_DOCUMENT_ID_SEPARATOR = parts
  /\ parts !! 0%nat = Some (termsType r)
  /\ parts !! 1%nat = documentId r.
Proof.
unfold validName, validDocumentId, baseNameOf.
intros [_ Ht]%andb_prop Hd. apply negb_true_iff in Ht.
destruct (documentId r) as [d|]; simpl.
- apply andb_prop in Hd as [[Hne _]%andb_prop Hsep].
  apply negb_true_iff in Hsep. rewrite Hne.
  eexists; split; [by apply split_separator|]. done.
- rewrite append_nil_r. eexists; split; [by apply split_none|]. done.
Qed.


End DecodeEncode.



(** * Further properties of the code *)

(** ** The codec on any commit *)

Section DecodeAnyCommit.

Import DataMapper Spec.
Variable standard : Mime.t.

(** Two texts that start differently do not start the same message. *)
Lemma prefix_first_char (a b : ascii) (p q m : string) :
  a <> b -> String.prefix (String a p) m = true -> String.prefix (String b q) m = false.
Proof.
  intros Hab. destruct m as [|c m]; [done|]. rewrite !prefix_cons.
  intros [Ha _]%andb_prop. apply Ascii.eqb_eq in Ha. subst c.
  destruct (Ascii.eqb_spec b a); [congruence | done].
Qed.

Lemma prefix_other (p q m : string) :
  match p, q with
  | String a _, String b _ => negb (Ascii.eqb a b)
  | _, _ => false
  end = true ->
  String.prefix p m = true -> String.prefix q m = false.
Proof.
  destruct p as [|a p], q as [|b q]; try done.
  intros Hab%negb_true_iff%Ascii.eqb_neq. by apply prefix_first_char.
Qed.

(** Once one prefix is known to start the message, the prefixes that
    start with another character are known not to. *)
Ltac other_prefixes H :=
  match type of H with
  | String.prefix ?p ?m = true =>
      repeat match goal with
             | |- context [String.prefix ?q m] =>
                 lazymatch q with
                 | p => fail
                 | _ => rewrite (prefix_other p q m eq_refl H)
                 end
             end
  end.

(** What [toDomain] returns for a commit of one file. *)
Lemma toDomain_one_file (commit : Commit) (path : string) :
  files (diff commit) = [ {| file := path |} ] ->
  toDomain standard commit
  = inr {| id := Some (hash commit);
           serviceId := Path.dirname path;
           termsType :=
             default "" (Str.split (Path.basename path (Some (Path.extname path)))
                           TERMS_TYPE_AND_DOCUMENT_ID_SEPARATOR !! 0%nat);
           documentId :=
             Str.split (Path.basename path (Some (Path.extname path)))
               TERMS_TYPE_AND_DOCUMENT_ID_SEPARATOR !! 1%nat;
           mimeType := Mime.getType (mime standard) path;
           fetchDate := Some (DateOfString (date_ commit));
           isFirstRecord :=
             Str.startsWith (message commit) COMMIT_MESSAGE_PREFIX.startTracking
             || Str.startsWith (message commit) COMMIT_MESSAGE_PREFIX.deprecated_startTracking;
           isExtractOnly :=
             Str.startsWith (message commit) COMMIT_MESSAGE_PREFIX.extractOnly
             || Str.startsWith (message commit) COMMIT_MESSAGE_PREFIX.deprecated_refilter;
           snapshotIds := default [] (matchSnapshotIds (body commit));
           content := None |}.
Proof. intros Hfiles. unfold toDomain. by rewrite Hfiles. Qed.

Lemma toDomain_inr_one_file (commit : Commit) (r : record) :
  toDomain standard commit = inr r -> exists path, files (diff commit) = [ {| file := path |} ].
Proof.
  unfold toDomain. rewrite length_map.
  destruct (files (diff commit)) as [|[path] [|? ?]]; simpl; try done.
  intros _. by exists path.
Qed.

(** X1.  Whatever the commit, a decoded record is never both a first
    record and an extract-only one. *)
Theorem toDomain_flags_exclusive (commit : Commit) (r : record) :
  toDomain standard commit = inr r -> isFirstRecord r && isExtractOnly r = false.
Proof.
  intros Hdecode. destruct (toDomain_inr_one_file _ _ Hdecode) as [path Hfiles].
  rewrite (toDomain_one_file _ _ Hfiles) in Hdecode. injection Hdecode as <-. simpl.
  unfold Str.startsWith. apply andb_false_iff.
  destruct (String.prefix COMMIT_MESSAGE_PREFIX.startTracking (message commit)) eqn:Hinitial.
  - right. other_prefixes Hinitial; done.
  - destruct (String.prefix COMMIT_MESSAGE_PREFIX.deprecated_startTracking (message commit))
      eqn:Hstart; [|by left].
    right. other_prefixes Hstart; done.
Qed.

(** X2.  The tags of earlier histories are still read: a subject that
    starts with [Start tracking] decodes as a first record, one that
    starts with [Refilter] as an extract-only record, and one that starts
    with [Update], as one that starts with [Record new changes of], as
    neither. *)
Theorem toDomain_reads_legacy_prefixes (commit : Commit) (r : record) :
  toDomain standard commit = inr r ->
  (Str.startsWith (message commit) "Start tracking" = true ->
   isFirstRecord r = true /\ isExtractOnly r = false)
  /\ (Str.startsWith (message commit) "Refilter" = true ->
      isFirstRecord r = false /\ isExtractOnly r = true)
  /\ (Str.startsWith (message commit) "Update" = true
      \/ Str.startsWith (message commit) "Record new changes of" = true ->
      isFirstRecord r = false /\ isExtractOnly r = false).
Proof.
  intros Hdecode. destruct (toDomain_inr_one_file _ _ Hdecode) as [path Hfiles].
  rewrite (toDomain_one_file _ _ Hfiles) in Hdecode. injection Hdecode as <-. simpl.
  unfold Str.startsWith, COMMIT_MESSAGE_PREFIX.startTracking,
    COMMIT_MESSAGE_PREFIX.deprecated_startTracking, COMMIT_MESSAGE_PREFIX.extractOnly,
    COMMIT_MESSAGE_PREFIX.deprecated_refilter.
  split; [|split].
  - intros H. other_prefixes H; rewrite H; done.
  - intros H. other_prefixes H; rewrite H; done.
  - intros [H|H]; other_prefixes H; [done|].
    destruct (message commit) as [|a [|b m]]; [by vm_compute in H| |].
    { rewrite prefix_cons in H. apply andb_prop in H as [_ H]. by vm_compute in H. }
    rewrite !prefix_cons in H. rewrite !prefix_cons.
    apply andb_prop in H as [_ [_ H]%andb_prop].
    by rewrite (prefix_other "cord new changes of" "filter" m eq_refl H), !andb_false_r.
Qed.

(** X3.  Whatever the commit, every snapshot id of a decoded record is a
    word of 5 to 40 lower-case hexadecimal digits of the body; a body
    without such a word gives no snapshot id, and no error.  The id of the
    record is the hash of the commit and its content is left unset. *)
Theorem toDomain_snapshotIds_wellformed (commit : Commit) (r : record) :
  toDomain standard commit = inr r ->
  Forall (fun w => isSnapshotId w = true /\ In w (Str.words (body commit))) (snapshotIds r)
  /\ (noSnapshotId (body commit) = true -> snapshotIds r = [])
  /\ id r = Some (hash commit)
  /\ content r = None.
Proof.
  intros Hdecode. destruct (toDomain_inr_one_file _ _ Hdecode) as [path Hfiles].
  rewrite (toDomain_one_file _ _ Hfiles) in Hdecode. injection Hdecode as <-. simpl.
  rewrite matchSnapshotIds_default. split_and!; try done.
  - apply Forall_forall. intros w Hw. unfold snapshotWords in Hw.
    apply list_elem_of_filter in Hw as [Hid Hin]. by rewrite <- list_elem_of_In.
  - apply noSnapshotId_words.
Qed.

(** X4.  A commit is decoded exactly when its diff lists one file; a
    diff without any file makes the path functions throw. *)
Theorem toDomain_decodes_iff_one_file (commit : Commit) :
  ((exists r, toDomain standard commit = inr r) <-> length (files (diff commit)) = 1%nat)
  /\ (files (diff commit) = [] -> toDomain standard commit = inl PathTypeError).
Proof.
  split; [split|].
  - intros [r Hdecode]. destruct (toDomain_inr_one_file _ _ Hdecode) as [path ->]. done.
  - intros Hlen. destruct (files (diff commit)) as [|[path] [|? ?]] eqn:Hfiles; try done.
    eexists. by apply toDomain_one_file.
  - intros Hnone. unfold toDomain. by rewrite Hnone.
Qed.

(** The file path of a record, in the parts the decoder takes it apart
    into. *)
Lemma generateFilePath_parts (s t : string) (d m : option string) :
  generateFilePath standard s t d m
  = s +:+ "/"
    +:+ (t +:+ (if Js.truthyStr d then TERMS_TYPE_AND_DOCUMENT_ID_SEPARATOR +:+ default "" d
                else ""))
    +:+ "." +:+ default "*" (Mime.getExtension (mime standard) m).
Proof. unfold generateFilePath, generateFileName. by rewrite append_assoc. Qed.

(** What the decoder reads in a path of a service id, a terms type, a
    document id and an extension. *)
Lemma path_read_back (s t e : string) (d : option string) :
  validServiceId s = true -> validName t = true -> validDocumentId d = true ->
  e <> "" -> Str.forallb (fun c => plainChar c && negb (Str.isDot c)) e = true ->
  let path :=
    s +:+ "/"
    +:+ (t +:+ (if Js.truthyStr d then TERMS_TYPE_AND_DOCUMENT_ID_SEPARATOR +:+ default "" d
                else ""))
    +:+ "." +:+ e in
  Path.dirname path = s
  /\ Path.extname path = "." +:+ e
  /\ Str.split (Path.basename path (Some (Path.extname path)))
       TERMS_TYPE_AND_DOCUMENT_ID_SEPARATOR !! 0%nat = Some t
  /\ Str.split (Path.basename path (Some (Path.extname path)))
       TERMS_TYPE_AND_DOCUMENT_ID_SEPARATOR !! 1%nat = d.
Proof.
  intros Hs Ht Hd Hene He path.
  pose (r := {| id := None; serviceId := s; termsType := t; documentId := d;
                mimeType := None; fetchDate := None; isFirstRecord := false;
                isExtractOnly := false; snapshotIds := []; content := None |}).
  destruct (baseNameOf_valid r Ht Hd) as [Hbne Hbase].
  destruct (baseNameOf_split r Ht Hd) as (parts & Hsplit & Hp0 & Hp1).
  unfold baseNameOf in Hbne, Hbase, Hsplit. simpl in Hbne, Hbase, Hsplit, Hp0, Hp1.
  subst path.
  rewrite (basename_path s _ e) by done.
  rewrite (dirname_path s _ e) by done.
  rewrite (extname_path s _ e) by done.
  by rewrite Hsplit.
Qed.

(** X5.  The message written for a record starts with one of the three
    current prefixes, and the expression over all prefixes captures that
    one: the first-record prefix for a first record, else the
    extract-only prefix for an extract-only record, else the update
    prefix.  A commit decoded with one of the flags set has a subject in
    which the expression finds a prefix. *)
Theorem toPersistence_prefix_captured (r : record) (template : string) :
  COMMIT_MESSAGE_PREFIXES_REGEXP (p_message (toPersistence standard r template))
  = Some (if isFirstRecord r then COMMIT_MESSAGE_PREFIX.startTracking
          else if isExtractOnly r then COMMIT_MESSAGE_PREFIX.extractOnly
          else COMMIT_MESSAGE_PREFIX.update)
  /\ forall commit r',
       toDomain standard commit = inr r' ->
       isFirstRecord r' || isExtractOnly r' = true ->
       is_Some (COMMIT_MESSAGE_PREFIXES_REGEXP (message commit)).
Proof.
  split.
  - rewrite toPersistence_message. unfold subjectOf, COMMIT_MESSAGE_PREFIXES_REGEXP,
      COMMIT_MESSAGE_PREFIX_values, Str.startsWith.
    rewrite <- !append_assoc.
    destruct (isFirstRecord r), (isExtractOnly r); cbn [List.find];
      repeat first [ rewrite prefix_app
                   | rewrite (prefix_other _ _ _ eq_refl (prefix_app _ _)) ]; done.
  - intros commit r' Hdecode Hflag.
    destruct (toDomain_inr_one_file _ _ Hdecode) as [path Hfiles].
    rewrite (toDomain_one_file _ _ Hfiles) in Hdecode. injection Hdecode as <-.
    simpl in Hflag. unfold COMMIT_MESSAGE_PREFIXES_REGEXP, COMMIT_MESSAGE_PREFIX_values.
    cbn [List.find].
    repeat match goal with
           | |- context [Str.startsWith ?m ?q] => destruct (Str.startsWith m q); [done|]
           end.
    done.
Qed.

(** X6.  The file path tells the identity of a record: two paths made
    of valid service ids, terms types and document ids (ASCII text
    without path or line separator, a name without the separator [ #])
    are the same only when these are, and the extensions with them.  A
    document id may be any such name, also one that reads as a number or
    as hexadecimal. *)
Theorem generateFilePath_injective (s s' t t' : string) (d d' m m' : option string) :
  validServiceId s = true -> validServiceId s' = true ->
  validName t = true -> validName t' = true ->
  validDocumentId d = true -> validDocumentId d' = true ->
  Str.forallb (fun c => plainChar c && negb (Str.isDot c))
    (default "*" (Mime.getExtension (mime standard) m)) = true ->
  Str.forallb (fun c => plainChar c && negb (Str.isDot c))
    (default "*" (Mime.getExtension (mime standard) m')) = true ->
  generateFilePath standard s t d m = generateFilePath standard s' t' d' m' ->
  s = s' /\ t = t' /\ d = d'
  /\ default "*" (Mime.getExtension (mime standard) m)
     = default "*" (Mime.getExtension (mime standard) m').
Proof.
  intros Hs Hs' Ht Ht' Hd Hd' He He' Hpath.
  rewrite !generateFilePath_parts in Hpath.
  assert (Hne : forall m, default "*" (Mime.getExtension (mime standard) m) <> "").
  { intros m0. destruct (Mime.getExtension (mime standard) m0) eqn:Hm0; [|done].
    simpl. by apply getExtension_nonempty in Hm0. }
  destruct (path_read_back s t _ d Hs Ht Hd (Hne m) He) as (Hdir & Hext & Hp0 & Hp1).
  destruct (path_read_back s' t' _ d' Hs' Ht' Hd' (Hne m') He') as (Hdir' & Hext' & Hp0' & Hp1').
  rewrite Hpath in Hdir, Hext, Hp0, Hp1.
  split_and!; [congruence.. |].
  rewrite Hext' in Hext. by injection Hext.
Qed.

(** X7.  The identity of a decoded record is read in the path of the
    file alone: whatever the message, the body and the date of the
    commit, the path of a valid service id, terms type, document id and
    extension (ASCII text without path or line separator, the extension
    in lower case and without dot) gives these back, with the mime type
    the tables have for the extension.  The extension [md] gives
    [text/markdown] whatever the standard tables are. *)
Theorem toDomain_identity_from_path (commit : Commit) (s t e : string) (d : option string) :
  validServiceId s = true -> validName t = true -> validDocumentId d = true ->
  e <> "" -> validExtension e = true ->
  files (diff commit)
  = [ {| file := s +:+ "/" +:+ generateFileName t d e |} ] ->
  exists r,
    toDomain standard commit = inr r
    /\ serviceId r = s /\ termsType r = t /\ documentId r = d
    /\ mimeType r = match Mime.types (mime standard) !! e with
                    | Some ty => if String.eqb ty "" then None else Some ty
                    | None => None
                    end
    /\ (e = "md" -> mimeType r = Some "text/markdown").
Proof.
  intros Hs Ht Hd Hene [He Hlower%String.eqb_eq]%andb_prop Hfiles.
  rewrite (toDomain_one_file _ _ Hfiles).
  unfold generateFileName. rewrite <- (append_assoc t).
  destruct (path_read_back s t e d Hs Ht Hd Hene He) as (Hdir & Hext & Hp0 & Hp1).
  rewrite Hdir, Hp0, Hp1.
  pose (r := {| id := None; serviceId := s; termsType := t; documentId := d;
                mimeType := None; fetchDate := None; isFirstRecord := false;
                isExtractOnly := false; snapshotIds := []; content := None |}).
  destruct (baseNameOf_valid r Ht Hd) as [Hbne Hbase].
  unfold baseNameOf in Hbne, Hbase. simpl in Hbne, Hbase.
  rewrite (getType_path s _ e) by done.
  eexists. split; [reflexivity|].
  split_and!; try done.
  intros ->. cbn [mimeType]. by rewrite mime_types, lookup_insert_eq.
Qed.

(** X8.  With a template that has no marker the snapshot ids are not
    written: the template is copied as it is, and records that differ in
    their snapshot ids only, by as many, are encoded the same. *)
Theorem toPersistence_template_without_marker (r : record) (template : string)
    (ids : list string) :
  Str.includes template SNAPSHOT_ID_MARKER = false ->
  length ids = length (snapshotIds r) ->
  toPersistence standard (withSnapshotIds r ids) template
  = toPersistence standard r template.
Proof.
  intros Hmarker%includes_false Hlen.
  assert (Hreplace : forall snapshotId,
             Str.replace template SNAPSHOT_ID_MARKER snapshotId = template).
  { intros snapshotId. unfold Str.replace. by rewrite Hmarker. }
  unfold toPersistence. simpl. rewrite Hlen.
  f_equal. do 8 f_equal.
  destruct (length (snapshotIds r) =? 1)%nat; [by rewrite !Hreplace|].
  destruct (1 <? length (snapshotIds r))%nat; [|done].
  do 3 f_equal.
  assert (Hmap : forall l : list string,
             map (fun snapshotId =>
                    "- " +:+ Str.replace template SNAPSHOT_ID_MARKER snapshotId) l
             = replicate (length l) ("- " +:+ template)).
  { induction l as [|x l IH]; simpl; [done|]. by rewrite Hreplace, IH. }
  by rewrite !Hmap, Hlen.
Qed.

End DecodeAnyCommit.

Lemma toDomain_flags_exclusive_witness :
  exists r,
    DataMapper.toDomain Examples.standard Examples.legacyCommit = inr r
    /\ DataMapper.isFirstRecord r && DataMapper.isExtractOnly r = false.
Proof.
  eexists. split; [vm_compute; reflexivity|].
  apply (toDomain_flags_exclusive Examples.standard Examples.legacyCommit).
  vm_compute. reflexivity.
Defined.

Lemma toDomain_reads_legacy_prefixes_witness :
  exists r,
    DataMapper.toDomain Examples.standard Examples.legacyCommit = inr r
    /\ DataMapper.isFirstRecord r = true /\ DataMapper.isExtractOnly r = false.
Proof.
  eexists. split; [vm_compute; reflexivity|].
  apply (proj1 (toDomain_reads_legacy_prefixes Examples.standard Examples.legacyCommit _
                  eq_refl)).
  reflexivity.
Defined.

Lemma toDomain_snapshotIds_wellformed_witness :
  exists r,
    DataMapper.toDomain Examples.standard Examples.legacyCommit = inr r
    /\ DataMapper.snapshotIds r = ["0123abc"]
    /\ Forall (fun w => DataMapper.isSnapshotId w = true
                        /\ In w (Str.words (DataMapper.body Examples.legacyCommit)))
         (DataMapper.snapshotIds r)
    /\ DataMapper.id r = Some "c0ffee1234".
Proof.
  eexists. split; [vm_compute; reflexivity|]. split; [reflexivity|].
  destruct (toDomain_snapshotIds_wellformed Examples.standard Examples.legacyCommit _ eq_refl)
    as (Hids & _ & Hid & _).
  split; [exact Hids | exact Hid].
Defined.

Lemma generateFilePath_injective_witness :
  DataMapper.generateFilePath Examples.standard "service" "Terms of Service"
    (Some "12345") (Some "text/markdown")
  = DataMapper.generateFilePath Examples.standard "service" "Terms of Service"
      (Some "12345") (Some "TEXT/Markdown; charset=utf-8")
  /\ default "*" (Mime.getExtension (DataMapper.mime Examples.standard) (Some "text/markdown"))
     = default "*" (Mime.getExtension (DataMapper.mime Examples.standard)
                      (Some "TEXT/Markdown; charset=utf-8")).
Proof.
  split; [vm_compute; reflexivity|].
  apply (generateFilePath_injective Examples.standard "service" "service"
           "Terms of Service" "Terms of Service" (Some "12345") (Some "12345")
           (Some "text/markdown") (Some "TEXT/Markdown; charset=utf-8"));
    vm_compute; reflexivity.
Defined.

Lemma toDomain_identity_from_path_witness :
  exists r,
    DataMapper.toDomain Examples.standard Examples.legacyCommit = inr r
    /\ DataMapper.serviceId r = "service"
    /\ DataMapper.termsType r = "Terms of Service"
    /\ DataMapper.documentId r = None
    /\ DataMapper.mimeType r = Some "text/markdown".
Proof.
  destruct (toDomain_identity_from_path Examples.standard Examples.legacyCommit
              "service" "Terms of Service" "md" None eq_refl eq_refl eq_refl
              ltac:(discriminate) eq_refl eq_refl)
    as (r & Hdecode & Hs & Ht & Hd & _ & Hmime).
  exists r. split; [exact Hdecode|]. split; [exact Hs|]. split; [exact Ht|].
  split; [exact Hd | exact (Hmime eq_refl)].
Defined.

Lemma toPersistence_template_without_marker_witness :
  DataMapper.toPersistence Examples.standard
    (Spec.withSnapshotIds Examples.version ["fffff"; "00000"]) Examples.bareTemplate
  = DataMapper.toPersistence Examples.standard Examples.version Examples.bareTemplate.
Proof.
  apply (toPersistence_template_without_marker Examples.standard Examples.version
           Examples.bareTemplate ["fffff"; "00000"]); reflexivity.
Defined.

(** ** The Recorder on any parameters *)

Section RecorderFrame.

Import Recorder Spec.
Context {V S Rec R L : Type}.
Context {versions : Repository V Rec R L} {snapshots : Repository S Rec R L}.
Variable newRecord : Js.obj -> Rec.

Lemma recordVersion_iff (params : Js.obj) (st : state V S) :
  rejects (recordVersion newRecord params) st <-> versionFieldsTruthy params = false.
Proof.
  unfold rejects, versionFieldsTruthy. rewrite recordVersion_cases.
  destruct (Js.truthy (Js.get params "serviceId")); simpl; [|by split; eauto].
  destruct (Js.truthy (Js.get params "documentType")); simpl; [|by split; eauto].
  destruct (Js.truthy (Js.get params "snapshotId")); simpl; [|by split; eauto].
  destruct (Js.truthy (Js.get params "fetchDate")); simpl; [|by split; eauto].
  destruct (Js.truthy (Js.get params "content")); simpl; [|by split; eauto].
  destruct (Js.truthy (Js.get params "mimeType")); simpl; [|by split; eauto].
  rewrite saveVersion_returns. split; [by intros [e He] | done].
Qed.

Lemma versionFieldsTruthy_spread (params : Js.obj) :
  versionFieldsTruthy (Js.spread (Js.object [("isRefilter", Js.Bool true)]) params)
  = versionFieldsTruthy params.
Proof. unfold versionFieldsTruthy. by rewrite !get_spread_isRefilter. Qed.

Lemma recordVersion_saves (params : Js.obj) (st : state V S) :
  versionFieldsTruthy params = true ->
  recordVersion newRecord params st
  = saveVersion
      (newRecord
         (Js.object [("serviceId", Js.get params "serviceId");
                     ("documentType", Js.get params "documentType");
                     ("snapshotId", Js.get params "snapshotId");
                     ("fetchDate", Js.get params "fetchDate");
                     ("mimeType", Js.get params "mimeType");
                     ("content", Js.get params "content");
                     ("isRefilter", Js.get params "isRefilter")])) st.
Proof.
  intros Hall. unfold versionFieldsTruthy in Hall.
  repeat (apply andb_prop in Hall; destruct Hall as [Hall ?]).
  rewrite recordVersion_cases.
  by repeat match goal with H : Js.truthy _ = true |- _ => rewrite H; clear H end.
Qed.

(** X9.  A call touches one repository at most.  [recordSnapshot]
    leaves the versions as they are, [recordVersion] and
    [recordRefilter] leave the snapshots as they are, so that the latest
    snapshot is the same after a version is recorded; and a call that
    throws leaves both. *)
Theorem recorder_frame (params : Js.obj) (st : state V S) :
  versionsRepository (snd (recordSnapshot newRecord params st)) = versionsRepository st
  /\ snapshotsRepository (snd (recordVersion newRecord params st)) = snapshotsRepository st
  /\ snapshotsRepository (snd (recordRefilter newRecord params st)) = snapshotsRepository st
  /\ (forall serviceId documentType,
        getLatestSnapshot serviceId documentType (snd (recordVersion newRecord params st))
        = getLatestSnapshot serviceId documentType st)
  /\ (forall e, fst (recordSnapshot newRecord params st) = Threw e ->
                snd (recordSnapshot newRecord params st) = st)
  /\ (forall e, fst (recordVersion newRecord params st) = Threw e ->
                snd (recordVersion newRecord params st) = st).
Proof.
  assert (Hversion : forall p,
             snapshotsRepository (snd (recordVersion newRecord p st))
             = snapshotsRepository st
             /\ forall e, fst (recordVersion newRecord p st) = Threw e ->
                          snd (recordVersion newRecord p st) = st).
  { intros p. rewrite recordVersion_cases.
    repeat match goal with
           | |- context [negb (Js.truthy ?v)] => destruct (Js.truthy v); simpl; [|done]
           end.
    rewrite saveVersion_returns. done. }
  assert (Hsnapshot :
             versionsRepository (snd (recordSnapshot newRecord params st))
             = versionsRepository st
             /\ forall e, fst (recordSnapshot newRecord params st) = Threw e ->
                          snd (recordSnapshot newRecord params st) = st).
  { rewrite recordSnapshot_cases.
    repeat match goal with
           | |- context [negb (Js.truthy ?v)] => destruct (Js.truthy v); simpl; [|done]
           end.
    rewrite saveSnapshot_returns. done. }
  split_and!.
  - apply Hsnapshot.
  - apply Hversion.
  - apply Hversion.
  - intros serviceId documentType. unfold getLatestSnapshot.
    by rewrite (proj1 (Hversion params)).
  - apply Hsnapshot.
  - apply Hversion.
Qed.

(** X10.  [recordVersion] throws exactly when one of the six fields it
    checks is falsy; that the snapshot id is falsy is told with the
    service id and the document type given.  With the six truthy it saves
    a record of the seven fields it reads in the versions repository and
    returns what the repository answers. *)
Theorem recordVersion_validation (params : Js.obj) (st : state V S) :
  (rejects (recordVersion newRecord params) st <-> versionFieldsTruthy params = false)
  /\ (forall e, recordVersion newRecord params st = (Threw e, st) ->
                (exists serviceId documentType, e = SnapshotIdRequired serviceId documentType) ->
                e = SnapshotIdRequired (Js.get params "serviceId")
                      (Js.get params "documentType")
                /\ Js.truthy (Js.get params "snapshotId") = false)
  /\ (versionFieldsTruthy params = true ->
      let record :=
        newRecord
          (Js.object [("serviceId", Js.get params "serviceId");
                      ("documentType", Js.get params "documentType");
                      ("snapshotId", Js.get params "snapshotId");
                      ("fetchDate", Js.get params "fetchDate");
                      ("mimeType", Js.get params "mimeType");
                      ("content", Js.get params "content");
                      ("isRefilter", Js.get params "isRefilter")]) in
      recordVersion newRecord params st
      = (Returned (fst (save record (versionsRepository st))),
         {| versionsRepository := snd (save record (versionsRepository st));
            snapshotsRepository := snapshotsRepository st |})).
Proof.
  split; [apply recordVersion_iff|]. split.
  - intros e. rewrite recordVersion_cases.
    destruct (Js.truthy (Js.get params "serviceId")); simpl;
      [|by intros [= <-] (? & ? & ?)].
    destruct (Js.truthy (Js.get params "documentType")); simpl;
      [|by intros [= <-] (? & ? & ?)].
    destruct (Js.truthy (Js.get params "snapshotId")); simpl; [|by intros [= <-] _].
    destruct (Js.truthy (Js.get params "fetchDate")); simpl;
      [|by intros [= <-] (? & ? & ?)].
    destruct (Js.truthy (Js.get params "content")); simpl;
      [|by intros [= <-] (? & ? & ?)].
    destruct (Js.truthy (Js.get params "mimeType")); simpl;
      [|by intros [= <-] (? & ? & ?)].
    by rewrite saveVersion_returns.
  - intros Hall record. rewrite recordVersion_saves by done. apply saveVersion_returns.
Qed.

(** X11.  [recordSnapshot] reads the five fields it names and no
    other: two parameter objects that agree on these have the same
    outcome, whatever else they hold. *)
Theorem recordSnapshot_reads_named_fields (p q : Js.obj) (st : state V S) :
  agreeOn ["serviceId"; "documentType"; "fetchDate"; "mimeType"; "content"] p q ->
  recordSnapshot newRecord p st = recordSnapshot newRecord q st.
Proof.
  intros Hagree. rewrite !recordSnapshot_cases.
  rewrite !(Hagree "serviceId"), !(Hagree "documentType"), !(Hagree "fetchDate"),
    !(Hagree "mimeType"), !(Hagree "content"); simpl; tauto.
Qed.

(** X12.  [recordVersion] reads seven fields and no other: the lineage
    is the one field [snapshotId]. *)
Theorem recordVersion_reads_named_fields (p q : Js.obj) (st : state V S) :
  agreeOn ["serviceId"; "documentType"; "snapshotId"; "fetchDate"; "mimeType"; "content";
           "isRefilter"] p q ->
  recordVersion newRecord p st = recordVersion newRecord q st.
Proof.
  intros Hagree. rewrite !recordVersion_cases.
  rewrite !(Hagree "serviceId"), !(Hagree "documentType"), !(Hagree "snapshotId"),
    !(Hagree "fetchDate"), !(Hagree "mimeType"), !(Hagree "content"),
    !(Hagree "isRefilter"); simpl; tauto.
Qed.

(** X13.  [recordRefilter] checks the fields as [recordVersion] does,
    and saves the flag [isRefilter] the caller gave when the caller gave
    one, and [true] otherwise. *)
Theorem recordRefilter_flag (params : Js.obj) (st : state V S) :
  (rejects (recordRefilter newRecord params) st <-> versionFieldsTruthy params = false)
  /\ (versionFieldsTruthy params = true ->
      recordRefilter newRecord params st
      = saveVersion
          (newRecord
             (Js.object [("serviceId", Js.get params "serviceId");
                         ("documentType", Js.get params "documentType");
                         ("snapshotId", Js.get params "snapshotId");
                         ("fetchDate", Js.get params "fetchDate");
                         ("mimeType", Js.get params "mimeType");
                         ("content", Js.get params "content");
                         ("isRefilter",
                          default (Js.Bool true) (params !! "isRefilter"))])) st).
Proof.
  split.
  - unfold recordRefilter. rewrite recordVersion_iff. by rewrite versionFieldsTruthy_spread.
  - intros Hall. unfold recordRefilter.
    rewrite recordVersion_saves by by rewrite versionFieldsTruthy_spread.
    rewrite !get_spread_isRefilter by done.
    destruct (params !! "isRefilter") as [v|] eqn:Hv.
    + rewrite (spread_isRefilter_given _ v) by done. unfold Js.get at 7. by rewrite Hv.
    + rewrite spread_isRefilter_absent by done. by rewrite get_insert_eq.
Qed.

End RecorderFrame.

Lemma recordSnapshot_reads_named_fields_witness :
  Recorder.recordSnapshot (V:=list Js.obj) (snapshots:=Examples.logRepository)
    (fun fields => fields)
    (<["documentId" := Js.Str "community"]>
       (<["termsType" := Js.Str "Terms of Service"]> Examples.snapshotParams))
    Examples.emptyStore
  = Recorder.recordSnapshot (V:=list Js.obj) (snapshots:=Examples.logRepository)
      (fun fields => fields) Examples.snapshotParams Examples.emptyStore.
Proof.
  apply (recordSnapshot_reads_named_fields (V:=list Js.obj)
           (snapshots:=Examples.logRepository) (fun fields => fields)).
  intros field Hin. simpl in Hin.
  destruct Hin as [<-|[<-|[<-|[<-|[<-|[]]]]]]; reflexivity.
Defined.

Lemma recordVersion_reads_named_fields_witness :
  Recorder.recordVersion (S:=list Js.obj) (versions:=Examples.logRepository)
    (fun fields => fields)
    (<["snapshotIds" := Js.Arr [Js.Str "abc12"; Js.Str "de34f"]]>
       (Examples.versionParams false))
    Examples.emptyStore
  = Recorder.recordVersion (S:=list Js.obj) (versions:=Examples.logRepository)
      (fun fields => fields) (Examples.versionParams false) Examples.emptyStore.
Proof.
  apply (recordVersion_reads_named_fields (S:=list Js.obj)
           (versions:=Examples.logRepository) (fun fields => fields)).
  intros field Hin. simpl in Hin.
  destruct Hin as [<-|[<-|[<-|[<-|[<-|[<-|[<-|[]]]]]]]]; reflexivity.
Defined.

(** ** A run of one terms on any recorder *)

Section TermsRunMore.

Import Archivist Spec.
Context {E St : Type} {ops : RecorderOps E St}.
Variable fetch : FetchParams -> FetchOutcome E.
Variable extract : string -> Js.val -> option Document -> E + string.
Variable settledAt : nat -> Z.
Variable order : list nat.
Variable describe : exn E -> string.

Abbreviation fetchTermsDocuments := (fetchTermsDocuments (St:=St) fetch settledAt order).
Abbreviation trackTermsChanges := (trackTermsChanges fetch extract settledAt order).
Abbreviation runTask := (runTask fetch extract settledAt order describe).
Abbreviation outcomes := (outcomes fetch settledAt).

Lemma outcomes_fetched (terms : Terms) :
  Forall (fun document =>
            exists mimeType content, fetch (requestOf document) = Fetched mimeType content)
    (documents terms) ->
  Forall isResolved (outcomes terms).
Proof.
  intros Hfetched. apply Forall_lookup. intros i o Ho.
  unfold Spec.outcomes in Ho. rewrite list_lookup_imap in Ho.
  destruct (documents terms !! i) as [document|] eqn:Hi; [|done].
  injection Ho as <-.
  destruct (Forall_lookup_1 _ _ _ _ Hfetched Hi) as (mimeType & content & Hfetch).
  unfold fetchDocument. unfold requestOf in Hfetch. rewrite Hfetch. by eexists.
Qed.

Lemma resolved_all (outs : list (settled E)) :
  Forall isResolved outs -> outs = map Resolved (resolved outs).
Proof.
  induction 1 as [|o outs [p ->] _ IH]; [done|].
  unfold resolved in *. simpl. by f_equal.
Qed.

Lemma pushed_resolved (outs : list (settled E)) (l : list nat) :
  Forall isResolved outs -> pushed outs l = [].
Proof.
  intros Hall. induction l as [|i l IH]; simpl; [done|].
  destruct (outs !! i) as [o|] eqn:Hi; [|done].
  by destruct (Forall_lookup_1 _ _ _ _ Hall Hi) as [p ->].
Qed.

Lemma fetchTermsDocuments_resolved (terms : Terms) (st : state E St) :
  Forall isResolved (outcomes terms) ->
  fetchTermsDocuments terms st = (inr (resolved (outcomes terms)), st).
Proof.
  intros Hall. unfold Archivist.fetchTermsDocuments. fold (outcomes terms).
  rewrite firstRejection_none.
  - by rewrite pushed_resolved.
  - eapply Forall_impl; [exact Hall|]. by intros o [p ->] [e He].
Qed.

(** X14.  When the fetch of every document succeeds, the result holds
    one entry per document, in the order of the declaration, whatever the
    order in which the fetches settled; the entry of a document carries
    what was fetched, the identity of the terms, and the instant at which
    its own fetch settled.  The call changes nothing. *)
Theorem fetchTermsDocuments_all_fetched (terms : Terms) (st : state E St) :
  Forall (fun document =>
            exists mimeType content, fetch (requestOf document) = Fetched mimeType content)
    (documents terms) ->
  exists result,
    fetchTermsDocuments terms st = (inr result, st)
    /\ length result = length (documents terms)
    /\ forall i document mimeType content,
         documents terms !! i = Some document ->
         fetch (requestOf document) = Fetched mimeType content ->
         result !! i
         = Some (snapshotParamsOf settledAt terms i document mimeType content).
Proof.
  intros Hfetched. pose proof (outcomes_fetched terms Hfetched) as Hall.
  exists (resolved (outcomes terms)).
  assert (Hlen : length (resolved (outcomes terms)) = length (documents terms)).
  { transitivity (length (outcomes terms)).
    - rewrite (resolved_all _ Hall) at 2. by rewrite length_map.
    - unfold Spec.outcomes. by rewrite length_imap. }
  split; [|split; [exact Hlen|]].
  - by apply fetchTermsDocuments_resolved.
  - intros i document mimeType content Hi Hfetch.
    assert (Ho : outcomes terms !! i
                 = Some (Resolved (snapshotParamsOf settledAt terms i document mimeType
                                     content))).
    { unfold Spec.outcomes. rewrite list_lookup_imap, Hi. simpl.
      unfold fetchDocument. unfold requestOf in Hfetch. by rewrite Hfetch. }
    rewrite (resolved_all _ Hall), list_lookup_fmap in Ho.
    destruct (resolved (outcomes terms) !! i) as [p|]; [|done].
    by injection Ho as ->.
Qed.

(** X15.  How the fetch of one document ends.  It gives an entry
    exactly when the fetcher answers; it is set aside as inaccessible
    exactly when the fetcher throws a [FetchDocumentError] whose message
    does not have [EAI_AGAIN]; any other failure of the fetcher, and a
    [FetchDocumentError] that has [EAI_AGAIN], is thrown again as it
    is. *)
Theorem fetchDocument_classified (terms : Terms) (i : nat) (document : Document) :
  (isResolved (fetchDocument fetch settledAt terms i document)
   <-> exists mimeType content, fetch (requestOf document) = Fetched mimeType content)
  /\ (forall message,
        fetchDocument fetch settledAt terms i document = Soft message
        <-> fetch (requestOf document) = FetchThrew (FetchDocumentError message)
            /\ Str.includes message "EAI_AGAIN" = false)
  /\ (forall e,
        fetchDocument fetch settledAt terms i document = Rejected e
        <-> exists fe,
              e = FetchFailure fe /\ fetch (requestOf document) = FetchThrew fe
              /\ match fe with
                 | FetchDocumentError message => Str.includes message "EAI_AGAIN" = true
                 | OtherFetchError _ => True
                 end).
Proof.
  unfold fetchDocument, isResolved. fold (requestOf document).
  destruct (fetch (requestOf document)) as [mimeType content|[message|e0]].
  - split_and!.
    + split; [by eexists _, _ | by eexists].
    + intros message. split; [done | by intros [? _]].
    + intros e. split; [done | by intros (fe & _ & ? & _)].
  - destruct (Str.includes message "EAI_AGAIN") eqn:Hagain; split_and!.
    + split; [by intros [p ?] | by intros (? & ? & ?)].
    + intros m. split; [done | intros [[= <-] ?]; congruence].
    + intros e. split.
      * intros [= <-]. by eexists.
      * by intros (fe & -> & [= <-] & _).
    + split; [by intros [p ?] | by intros (? & ? & ?)].
    + intros m. split; [by intros [= <-] | by intros [[= <-] _]].
    + intros e. split; [done|]. intros (fe & -> & [= <-] & ?). congruence.
  - split_and!.
    + split; [by intros [p ?] | by intros (? & ? & ?)].
    + intros m. split; [done | by intros [? _]].
    + intros e. split.
      * intros [= <-]. by eexists.
      * by intros (fe & -> & [= <-] & _).
Qed.

(** X16.  What the error callback of the queue does when the worker
    fails.  When the text of the error has the marker of the mailer's
    quota, whatever the error is, nothing is emitted and nothing changes.
    Otherwise an inaccessible content is reported by the event
    [inaccessibleContent], with the recorder and the queue as the worker
    left them, and for any other error the event [error] is emitted, with
    the error, the service id and the terms type.  What the listeners of
    [error] then do is not stated here. *)
Theorem runTask_reports_failure (task : Task) (st st' : state E St) (e : exn E) :
  trackTermsChanges task st = (inl e, st') ->
  (Str.includes (describe e) "HttpError: API rate limit exceeded for user ID" = true ->
   runTask task st = (inr tt, st'))
  /\ (Str.includes (describe e) "HttpError: API rate limit exceeded for user ID" = false ->
      (forall messages,
          e = InaccessibleContentError messages ->
          runTask task st
          = (inr tt,
             {| recorder := recorder st';
                events :=
                  events st'
                  ++ [inaccessibleContent e (service_id (service (task_terms task)))
                        (termsType (task_terms task)) (task_terms task)];
                trackingQueue := trackingQueue st' |}))
      /\ ((forall messages, e <> InaccessibleContentError messages) ->
          events (snd (runTask task st))
          = events st'
            ++ [error e (service_id (service (task_terms task)))
                  (termsType (task_terms task))])).
Proof.
  intros Hrun. unfold Archivist.runTask. rewrite Hrun. unfold onTaskError. split.
  - by intros ->.
  - intros ->. split.
    + by intros messages ->.
    + intros Hother. destruct e as [fe|messages|e0]; [done| |done].
      by destruct (Hother messages).
Qed.

(** A run that succeeds is left as it is. *)
Lemma runTask_success (task : Task) (st st' : state E St) :
  trackTermsChanges task st = (inr tt, st') -> runTask task st = (inr tt, st').
Proof. intros Hrun. unfold Archivist.runTask. by rewrite Hrun. Qed.

Lemma sequence_none {X A B : Type} (f : A -> X + option B) (l : list A) :
  Forall (fun a => f a = inr None) l ->
  sequence (map f l) = inr (map (fun _ => None) l).
Proof.
  intros Hall. apply sequence_Forall2.
  induction Hall as [|a l Ha _ IH]; simpl; by constructor.
Qed.

(** X17.  A run that finds no snapshot of any document of the terms
    ends there: nothing is extracted, no version is recorded and no
    event is emitted after the snapshot stage. *)
Theorem trackTermsChanges_without_snapshot (task : Task) (st st1 : state E St) :
  snapshotStage fetch settledAt order task st st1 ->
  Forall (fun document =>
            recorder_getLatestSnapshot (service_id (service (task_terms task)))
              (termsType (task_terms task))
              (documentIdOf (isMultiDocument (task_terms task)) (doc_id document))
              (recorder st1)
            = inr None)
    (documents (task_terms task)) ->
  trackTermsChanges task st = (inr tt, st1).
Proof.
  intros Hstage Hnone. unfold Archivist.trackTermsChanges.
  unfold bind at 1. rewrite (snapshotStage_run _ _ _ _ _ _ Hstage).
  unfold bind at 1. unfold getTermsSnapshots.
  rewrite (sequence_none _ _ Hnone).
  assert (Hempty : forall l : list Document,
             omap (fun o : option Snapshot => o) (map (fun _ => None) l) = []).
  { induction l; [done|]. simpl. done. }
  by rewrite Hempty.
Qed.

(** X18.  An extract-only run makes no fetch: its outcome is the same
    whatever the fetcher answers, whenever and in whatever order. *)
Theorem extractOnly_run_never_fetches (fetch' : FetchParams -> FetchOutcome E)
    (settledAt' : nat -> Z) (order' : list nat) (task : Task) (st : state E St) :
  Js.truthy (task_extractOnly task) = true ->
  trackTermsChanges task st
  = Archivist.trackTermsChanges fetch' extract settledAt' order' task st.
Proof. intros Hflag. unfold Archivist.trackTermsChanges. by rewrite Hflag. Qed.

Lemma sequence_Exists {X A B : Type} (f : A -> X + B) (l : list A) :
  Exists (fun a => exists e, f a = inl e) l ->
  exists e a, sequence (map f l) = inl e /\ In a l /\ f a = inl e.
Proof.
  induction l as [|a l IH]; intros Hex; [by apply Exists_nil in Hex|].
  simpl. destruct (f a) as [e|b] eqn:Ha.
  - exists e, a. split; [done|]. split; [by left | done].
  - apply Exists_cons in Hex as [[e He]|Hex]; [congruence|].
    destruct (IH Hex) as (e & a' & -> & Hin & Ha'). exists e, a'.
    split; [done|]. split; [by right | done].
Qed.

(** X19.  When the extraction of one of the loaded snapshots fails, the
    run fails with the error of an extraction, and it records no version
    and emits no event: the state is the one the snapshot stage left. *)
Theorem extraction_failure_records_nothing (task : Task) (st st1 : state E St)
    (snapshots : list Snapshot) :
  snapshotStage fetch settledAt order task st st1 ->
  getTermsSnapshots (task_terms task) st1 = (inr snapshots, st1) ->
  Exists (fun snapshot =>
            exists e, extract (content snapshot) (mimeType snapshot)
                        (documentOf (documentId snapshot) (documents (task_terms task)))
                      = inl e)
    snapshots ->
  exists e snapshot,
    trackTermsChanges task st = (inl (Failure e), st1)
    /\ In snapshot snapshots
    /\ extract (content snapshot) (mimeType snapshot)
         (documentOf (documentId snapshot) (documents (task_terms task)))
       = inl e.
Proof.
  intros Hstage Hload Hfail.
  destruct (sequence_Exists _ _ Hfail) as (e & snapshot & Hseq & Hin & He).
  exists e, snapshot. split; [|done].
  unfold Archivist.trackTermsChanges.
  unfold bind at 1. rewrite (snapshotStage_run _ _ _ _ _ _ Hstage).
  unfold bind at 1. rewrite Hload.
  destruct snapshots as [|first others]; [by apply Exists_nil in Hfail|].
  unfold bind at 1. unfold extractVersionContent. by rewrite Hseq.
Qed.

End TermsRunMore.

Lemma fetchTermsDocuments_all_fetched_witness :
  exists result,
    Archivist.fetchTermsDocuments (St:=Examples.Memory) Examples.fetchBoth
      Examples.settledAt [1; 0]%nat Examples.twoDocuments Examples.fresh
    = (inr result, Examples.fresh)
    /\ result = Examples.fetchedBoth.
Proof.
  destruct (fetchTermsDocuments_all_fetched (St:=Examples.Memory) Examples.fetchBoth
              Examples.settledAt [1; 0]%nat Examples.twoDocuments Examples.fresh)
    as (result & Hrun & _ & _).
  - constructor; [by eexists _, _|]. constructor; [by eexists _, _|]. constructor.
  - exists result. split; [exact Hrun|]. vm_compute in Hrun. by injection Hrun.
Defined.

Lemma runTask_reports_failure_witness :
  Archivist.runTask (ops:=Examples.memoryRecorder) Examples.fetchAOnly
    Examples.extractAll Examples.settledAt [0; 1]%nat Examples.describeError
    Examples.liveTask Examples.fresh
  = (inr tt,
     {| Archivist.recorder := Archivist.recorder Examples.fresh;
        Archivist.events :=
          [Archivist.inaccessibleContent
             (Archivist.InaccessibleContentError
                ["The selector main has no match in https://example.org/b"])
             "service" "Community Guidelines" Examples.twoDocuments];
        Archivist.trackingQueue := Archivist.trackingQueue Examples.fresh |}).
Proof.
  apply (proj1 (proj2 (runTask_reports_failure (ops:=Examples.memoryRecorder)
                         Examples.fetchAOnly Examples.extractAll Examples.settledAt
                         [0; 1]%nat Examples.describeError Examples.liveTask
                         Examples.fresh Examples.fresh
                         (Archivist.InaccessibleContentError
                            ["The selector main has no match in https://example.org/b"])
                         ltac:(vm_compute; reflexivity))
                 ltac:(vm_compute; reflexivity))
           ["The selector main has no match in https://example.org/b"] eq_refl).
Defined.

Lemma trackTermsChanges_without_snapshot_witness :
  Archivist.trackTermsChanges (ops:=Examples.memoryRecorder) Examples.fetchBoth
    Examples.extractAll Examples.settledAt [0; 1]%nat Examples.extractOnlyTask Examples.fresh
  = (inr tt, Examples.fresh).
Proof.
  apply (trackTermsChanges_without_snapshot (ops:=Examples.memoryRecorder)
           Examples.fetchBoth Examples.extractAll Examples.settledAt [0; 1]%nat
           Examples.extractOnlyTask Examples.fresh Examples.fresh).
  - left. split; reflexivity.
  - constructor; [reflexivity|]. constructor; [reflexivity|]. constructor.
Defined.

Lemma extractOnly_run_never_fetches_witness :
  Archivist.trackTermsChanges (ops:=Examples.memoryRecorder) Examples.fetchBoth
    Examples.extractAll Examples.settledAt [0; 1]%nat Examples.extractOnlyTask
    Examples.recorded
  = Archivist.trackTermsChanges (ops:=Examples.memoryRecorder) Examples.fetchAOnly
      Examples.extractAll (fun _ => 0%Z) [] Examples.extractOnlyTask Examples.recorded.
Proof.
  apply (extractOnly_run_never_fetches (ops:=Examples.memoryRecorder) Examples.fetchBoth
           Examples.extractAll Examples.settledAt [0; 1]%nat Examples.fetchAOnly
           (fun _ => 0%Z) [] Examples.extractOnlyTask Examples.recorded).
  reflexivity.
Defined.

Lemma extraction_failure_records_nothing_witness :
  exists e,
    Archivist.trackTermsChanges (ops:=Examples.memoryRecorder) Examples.fetchBoth
      Examples.extractNothing Examples.settledAt [0; 1]%nat Examples.extractOnlyTask
      Examples.recorded
    = (inl (Archivist.Failure e), Examples.recorded).
Proof.
  destruct (extraction_failure_records_nothing (ops:=Examples.memoryRecorder)
              Examples.fetchBoth Examples.extractNothing Examples.settledAt [0; 1]%nat
              Examples.extractOnlyTask Examples.recorded Examples.recorded
              [Examples.snapshotA; Examples.snapshotB])
    as (e & snapshot & Hrun & _).
  - left. split; reflexivity.
  - vm_compute. reflexivity.
  - constructor. by eexists.
  - exists e. exact Hrun.
Defined.

(** ** Events, scheduling and listeners *)

Section SnapshotEvents.

Import Archivist Spec.
Context {E St : Type} {ops : RecorderOps E St}.

Lemma recordSnapshot_event (p : SnapshotParams) (st st' : state E St) (id : option string) :
  recordSnapshot p st = (inr id, st') ->
  trackingQueue st' = trackingQueue st
  /\ exists ev, events st' = events st ++ [ev] /\ snapshotEventOf p id ev.
Proof.
  unfold recordSnapshot, bind, onRecorder.
  destruct (recorder_recordSnapshot _ _) as [[e|r] s']; [done|].
  destruct (Js.truthyStr (res_id r)); simpl.
  - intros [= <- <-]. split; [done|]. eexists. split; [done|]. simpl.
    destruct (res_isFirstRecord r); [by left | by right].
  - intros [= <- <-]. split; [done|]. by eexists.
Qed.

Lemma recordSnapshots_events (fetched : list SnapshotParams) (st st1 : state E St)
    (ids : list (option string)) :
  all (map recordSnapshot fetched) st = (inr ids, st1) ->
  trackingQueue st1 = trackingQueue st
  /\ exists evs,
      events st1 = events st ++ evs
      /\ Forall2 (fun entry ev => snapshotEventOf (fst entry) (snd entry) ev)
           (zip fetched ids) evs
      /\ length ids = length fetched.
Proof.
  revert st ids. induction fetched as [|p fetched IH]; intros st ids; simpl.
  - intros [= <- <-]. split; [done|]. exists []. by rewrite app_nil_r.
  - destruct (recordSnapshot p st) as [r st0] eqn:Hp.
    destruct (all (map recordSnapshot fetched) st0) as [rs st2] eqn:Hrest.
    destruct r as [e|id]; [done|]. destruct rs as [e|ids']; [done|].
    intros [= <- <-].
    destruct (recordSnapshot_event _ _ _ _ Hp) as (Hq & ev & Hev & Hof).
    destruct (IH _ _ Hrest) as (Hq' & evs & Hevs & Hall & Hlen).
    split; [congruence|]. exists (ev :: evs). split_and!.
    + by rewrite Hevs, Hev, <- app_assoc.
    + simpl. by constructor.
    + simpl. by rewrite Hlen.
Qed.

(** X20.  When the snapshots of the fetched documents are all saved,
    there are as many results as documents, in their order, and as many
    events were emitted: for each document the event that goes with its
    result, [snapshotNotChanged] when the save gave no id, and
    [firstSnapshotRecorded] or [snapshotRecorded] with the id otherwise.
    The queue is left as it was. *)
Theorem recordSnapshot_one_event_each (fetched : list SnapshotParams)
    (st st1 : state E St) (ids : list (option string)) :
  all (map recordSnapshot fetched) st = (inr ids, st1) ->
  length ids = length fetched
  /\ trackingQueue st1 = trackingQueue st
  /\ exists evs,
      events st1 = events st ++ evs
      /\ length evs = length fetched
      /\ Forall (fun ev => isSnapshotEvent ev = true) evs
      /\ forall i p id,
           fetched !! i = Some p -> ids !! i = Some id ->
           exists ev, In ev evs /\ snapshotEventOf p id ev.
Proof.
  intros Hall. destruct (recordSnapshots_events _ _ _ _ Hall) as (Hq & evs & Hevs & Hof & Hlen).
  split; [done|]. split; [done|]. exists evs. split; [done|].
  pose proof (Forall2_length _ _ _ Hof) as Hlen'. rewrite length_zip, Hlen in Hlen'.
  split; [lia|]. split.
  - apply Forall_forall. intros ev Hev.
    apply list_elem_of_lookup in Hev as [i Hi].
    destruct (Forall2_lookup_r _ _ _ _ _ Hof Hi) as ([p id] & _ & Hp). simpl in Hp.
    destruct id as [snapshotId|]; simpl in Hp; [by destruct Hp as [->| ->] | by subst].
  - intros i p id Hp Hid.
    assert (Hz : zip fetched ids !! i = Some (p, id)).
    { rewrite lookup_zip_with, Hp. simpl. by rewrite Hid. }
    destruct (Forall2_lookup_l _ _ _ _ _ Hof Hz) as (ev & Hev & Hofev).
    exists ev. split; [|done]. apply list_elem_of_In. by eapply list_elem_of_lookup_2.
Qed.

End SnapshotEvents.

Section Scheduling.

Import Archivist Spec.
Context {E St : Type}.
Variable services : list (string * ServiceDeclaration).
Variable sortIds : list string -> list string.

Lemma getNumberOfTermsOf_undeclared (ids : list string) (id : string) (acc : Z) :
  In id ids -> lookupService services id = None ->
  getNumberOfTermsOf services ids acc = None.
Proof.
  intros Hin Hnone. revert acc. induction ids as [|x ids IH]; intros acc; [done|].
  simpl. destruct Hin as [->|Hin]; [by rewrite Hnone|].
  destruct (lookupService services x); [by apply IH | done].
Qed.

(** X21.  [getNumberOfTerms] throws exactly when the list holds a
    service id that is not declared, whatever it has counted before; a
    batch asked for such an id throws with it. *)
Theorem trackAllTermsChanges_undeclared (servicesIds : list string) (acc : Z) :
  (getNumberOfTermsOf services servicesIds acc = None
   <-> exists id, In id servicesIds /\ lookupService services id = None)
  /\ forall (termsTypes : option (list string)) (extractOnly : Js.val) (st : state E St),
       (exists id, In id servicesIds /\ lookupService services id = None) ->
       trackAllTermsChanges services sortIds (Some servicesIds) termsTypes extractOnly st
       = None.
Proof.
  split.
  - split.
    + intros Hnone.
      destruct (decide (Forall (fun i => is_Some (lookupService services i)) servicesIds))
        as [Hall|Hsome].
      * destruct (getNumberOfTermsOf_declared services servicesIds acc Hall) as [n Hn].
        congruence.
      * apply not_Forall_Exists in Hsome; [|apply _].
        apply Exists_exists in Hsome as (id & Hin & Hid).
        exists id. split; [by apply list_elem_of_In|].
        simpl in Hid. destruct (lookupService services id) as [decl|]; [|done].
        exfalso. apply Hid. by eexists.
    + intros (id & Hin & Hid). by apply (getNumberOfTermsOf_undeclared _ id).
  - intros termsTypes extractOnly st (id & Hin & Hid).
    unfold trackAllTermsChanges. simpl default.
    by rewrite (getNumberOfTermsOf_undeclared _ _ _ Hin Hid).
Qed.

Lemma termsOfService_In (termsTypes : list string) (decl : ServiceDeclaration)
    (terms : Terms) :
  In terms (termsOfService termsTypes decl)
  <-> exists termsType,
        In termsType (getTermsTypes decl)
        /\ (termsTypes = [] \/ In termsType termsTypes)
        /\ terms = getTerms decl termsType.
Proof.
  unfold termsOfService. rewrite in_map_iff. split.
  - intros (termsType & <- & Hin). apply filter_In in Hin as [Hin Hkeep].
    exists termsType. split; [done|]. split; [|done].
    destruct termsTypes as [|t l]; [by left|]. right.
    change (0 <? length (t :: l))%nat with true in Hkeep.
    rewrite andb_true_l in Hkeep. apply negb_true_iff, negb_false_iff in Hkeep.
    apply existsb_exists in Hkeep as (x & Hx & Heq).
    simpl in Heq. by apply String.eqb_eq in Heq as ->.
  - intros (termsType & Hin & Hkeep & ->). exists termsType. split; [done|].
    apply filter_In. split; [done|].
    destruct Hkeep as [->|Hkeep]; [done|].
    apply negb_true_iff, andb_false_iff. right. apply negb_false_iff.
    apply existsb_exists. exists termsType. split; [done|]. apply String.eqb_refl.
Qed.

Lemma forEachService_In (termsTypes ids : list string) (scheduled : list Terms)
    (terms : Terms) :
  forEachService services termsTypes ids = Some scheduled ->
  In terms scheduled
  <-> exists id decl,
        In id ids /\ lookupService services id = Some decl
        /\ In terms (termsOfService termsTypes decl).
Proof.
  revert scheduled. induction ids as [|x ids IH]; intros scheduled; simpl.
  - intros [= <-]. split; [done | by intros (? & ? & [] & _)].
  - destruct (lookupService services x) as [decl|] eqn:Hx; [|done].
    destruct (forEachService services termsTypes ids) as [rest|]; [|done].
    intros [= <-]. rewrite in_app_iff, (IH rest eq_refl). split.
    + intros [Hin|(id & d & Hin & Hid & Ht)].
      * exists x, decl. by split; [left|].
      * exists id, d. by split; [right|].
    + intros (id & d & [<-|Hin] & Hid & Ht).
      * left. congruence.
      * right. by exists id, d.
Qed.

(** X22.  The terms a batch schedules are those of the service ids
    given, each a declared one, and of the terms types the service
    declares, all of them when no terms type is asked for and otherwise
    those asked for; a terms type asked for that a service does not
    declare schedules nothing for it. *)
Theorem forEachTermsOf_scheduled (servicesIds termsTypes : list string)
    (scheduled : list Terms) :
  forEachTermsOf services sortIds servicesIds termsTypes = Some scheduled ->
  Forall (fun id => is_Some (lookupService services id)) (sortIds servicesIds)
  /\ forall terms,
       In terms scheduled
       <-> exists id decl termsType,
             In id (sortIds servicesIds)
             /\ lookupService services id = Some decl
             /\ In termsType (getTermsTypes decl)
             /\ (termsTypes = [] \/ In termsType termsTypes)
             /\ terms = getTerms decl termsType.
Proof.
  unfold forEachTermsOf. intros Hrun. split.
  - clear -Hrun. revert scheduled Hrun.
    induction (sortIds servicesIds) as [|x ids IH]; intros scheduled; simpl; [done|].
    destruct (lookupService services x) as [decl|] eqn:Hx; [|done].
    destruct (forEachService services termsTypes ids) as [rest|]; [|done].
    intros _. constructor; [by rewrite Hx | by eapply IH].
  - intros terms. rewrite (forEachService_In _ _ _ _ Hrun). split.
    + intros (id & decl & Hin & Hid & (termsType & ? & ? & ?)%termsOfService_In).
      by exists id, decl, termsType.
    + intros (id & decl & termsType & Hin & Hid & ? & ? & ?).
      exists id, decl. split; [done|]. split; [done|].
      apply termsOfService_In. by exists termsType.
Qed.

End Scheduling.

Section Listeners.

Import Archivist.
Context {H : Type}.

Lemma attachEvents_bound (listener : gmap string (property H)) (events : list string) :
  Forall (fun event => event <> "") events ->
  (snd (attachEvents listener events) = true
   <-> exists event name,
         In event events /\ handlerName event = Some name
         /\ listener !! name = Some OtherTruthy)
  /\ (forall event handler,
        In (event, handler) (fst (attachEvents listener events)) ->
        In event events
        /\ exists name, handlerName event = Some name
                        /\ listener !! name = Some (Method handler))
  /\ (snd (attachEvents listener events) = false ->
      forall event handler name,
        In event events -> handlerName event = Some name ->
        listener !! name = Some (Method handler) ->
        In (event, handler) (fst (attachEvents listener events))).
Proof.
  induction 1 as [|event events Hne _ (IHthrew & IHbound & IHall)].
  { split_and!; simpl; [|done..]. split; [done | by intros (? & ? & [] & _)]. }
  cbn [attachEvents].
  destruct (handlerName event) as [name|] eqn:Hname; [|by destruct event].
  destruct (listener !! name) as [[handler| |]|] eqn:Hprop.
  - destruct (attachEvents listener events) as [bound threw] eqn:Hrest.
    cbn [fst snd] in *. split_and!.
    + rewrite IHthrew. split.
      * intros (ev & n & Hin & Hn & Hl). exists ev, n. by split; [right|].
      * intros (ev & n & [<-|Hin] & Hn & Hl); [congruence|]. by exists ev, n.
    + intros ev h [[= <- <-]|Hin].
      * split; [by left|]. by exists name.
      * destruct (IHbound _ _ Hin) as [? ?]. by split; [right|].
    + intros Hthrew ev h n [<-|Hin] Hn Hl.
      * left. congruence.
      * right. by eapply IHall.
  - cbn [fst snd]. split_and!.
    + split; [|done]. intros _. exists event, name. by split; [left|].
    + by intros ev h [].
    + done.
  - split_and!.
    + rewrite IHthrew. split.
      * intros (ev & n & Hin & Hn & Hl). exists ev, n. by split; [right|].
      * intros (ev & n & [<-|Hin] & Hn & Hl); [congruence|]. by exists ev, n.
    + intros ev h Hin. destruct (IHbound _ _ Hin) as [? ?]. by split; [right|].
    + intros Hthrew ev h n [<-|Hin] Hn Hl; [congruence|]. by eapply IHall.
  - split_and!.
    + rewrite IHthrew. split.
      * intros (ev & n & Hin & Hn & Hl). exists ev, n. by split; [right|].
      * intros (ev & n & [<-|Hin] & Hn & Hl); [congruence|]. by exists ev, n.
    + intros ev h Hin. destruct (IHbound _ _ Hin) as [? ?]. by split; [right|].
    + intros Hthrew ev h n [<-|Hin] Hn Hl; [congruence|]. by eapply IHall.
Qed.

(** X23.  [attach] looks, for each available event, at the property of
    the listener named [on] followed by the event with its first letter
    in upper case; the ten names are those listed.  It throws exactly
    when one of these properties is a truthy value that is not a
    function.  Only functions under these names are bound, each to its
    event, and when [attach] does not throw all of them are. *)
Theorem attach_binds_handlers (listener : gmap string (property H)) :
  (snd (attach listener) = true
   <-> exists event name,
         In event AVAILABLE_EVENTS /\ handlerName event = Some name
         /\ listener !! name = Some OtherTruthy)
  /\ (forall event handler,
        In (event, handler) (fst (attach listener)) ->
        In event AVAILABLE_EVENTS
        /\ exists name, handlerName event = Some name
                        /\ listener !! name = Some (Method handler))
  /\ (snd (attach listener) = false ->
      forall event handler name,
        In event AVAILABLE_EVENTS -> handlerName event = Some name ->
        listener !! name = Some (Method handler) ->
        In (event, handler) (fst (attach listener)))
  /\ map handlerName AVAILABLE_EVENTS
     = map Some ["onSnapshotRecorded"; "onFirstSnapshotRecorded"; "onSnapshotNotChanged";
                 "onVersionRecorded"; "onFirstVersionRecorded"; "onVersionNotChanged";
                 "onTrackingStarted"; "onTrackingCompleted"; "onInaccessibleContent";
                 "onError"].
Proof.
  assert (Hne : Forall (fun event => event <> "") AVAILABLE_EVENTS).
  { unfold AVAILABLE_EVENTS. repeat constructor; discriminate. }
  destruct (attachEvents_bound listener AVAILABLE_EVENTS Hne) as (Hthrew & Hbound & Hall).
  split_and!; [exact Hthrew | exact Hbound | exact Hall | by vm_compute].
Qed.

End Listeners.

(** ** The pipeline on the Recorder of the sources *)

Section PipelineOnRecorder.

Import Spec.
Context {V S Rec : Type}.
Context {versions : Recorder.Repository V Rec Archivist.SaveResult (option Archivist.Snapshot)}.
Context {snapshots : Recorder.Repository S Rec Archivist.SaveResult (option Archivist.Snapshot)}.
Variable newRecord : Js.obj -> Rec.

Lemma pipeline_recordSnapshot_rejected (p : Archivist.SnapshotParams)
    (st : Archivist.state Recorder.error (Recorder.state V S)) :
  Archivist.recordSnapshot (ops:=Engine.recorderOps newRecord) p st
  = (inl (Archivist.Failure (withoutDocumentType (Archivist.sp_serviceId p))), st).
Proof.
  unfold withoutDocumentType.
  unfold Archivist.recordSnapshot, Archivist.bind, Archivist.onRecorder.
  cbn [Archivist.recorder_recordSnapshot Engine.recorderOps].
  rewrite recordSnapshot_cases.
  change (Js.get (Js.object _) "serviceId") with (Js.Str (Archivist.sp_serviceId p)).
  change (Js.get (Js.object _) "documentType") with Js.Undefined.
  simpl. destruct (String.eqb (Archivist.sp_serviceId p) ""); simpl; by destruct st.
Qed.

(** X24.  The pipeline names the terms type [termsType]; the Recorder
    reads [documentType].  So every save the pipeline asks for is
    refused, for want of a service id when that is empty and of a
    document type otherwise; nothing is stored and no event emitted. *)
Theorem pipeline_calls_rejected (p : Archivist.SnapshotParams) (v : Archivist.VersionParams)
    (st : Archivist.state Recorder.error (Recorder.state V S)) :
  Archivist.recordSnapshot (ops:=Engine.recorderOps newRecord) p st
  = (inl (Archivist.Failure (withoutDocumentType (Archivist.sp_serviceId p))), st)
  /\ Archivist.recordVersion (ops:=Engine.recorderOps newRecord) v st
     = (inl (Archivist.Failure (withoutDocumentType (Archivist.vp_serviceId v))), st).
Proof.
  split; [apply pipeline_recordSnapshot_rejected|].
  unfold withoutDocumentType.
  unfold Archivist.recordVersion, Archivist.bind, Archivist.onRecorder.
  cbn [Archivist.recorder_recordVersion Engine.recorderOps].
  rewrite recordVersion_cases.
  change (Js.get (Js.object _) "serviceId") with (Js.Str (Archivist.vp_serviceId v)).
  change (Js.get (Js.object _) "documentType") with Js.Undefined.
  simpl. destruct (String.eqb (Archivist.vp_serviceId v) ""); simpl; by destruct st.
Qed.

Lemma all_rejected {E St : Type} {ops : Archivist.RecorderOps E St}
    (fetched : list Archivist.SnapshotParams) (e : Archivist.exn E)
    (st : Archivist.state E St) :
  fetched <> [] ->
  Forall (fun p => Archivist.recordSnapshot p st = (inl e, st)) fetched ->
  Archivist.all (map Archivist.recordSnapshot fetched) st = (inl e, st).
Proof.
  intros Hne Hall. induction Hall as [|p fetched Hp Hrest IH]; [done|].
  simpl. rewrite Hp.
  destruct fetched as [|q fetched]; [done|]. by rewrite IH.
Qed.

(** X25.  So a live run of a terms whose documents are all fetched
    fails at the first save: the run throws the error of the Recorder,
    and leaves no snapshot, no version and no event. *)
Theorem live_run_rejected (fetch : Archivist.FetchParams -> Archivist.FetchOutcome Recorder.error)
    (extract : string -> Js.val -> option Archivist.Document -> Recorder.error + string)
    (settledAt : nat -> Z) (order : list nat) (task : Archivist.Task)
    (st : Archivist.state Recorder.error (Recorder.state V S)) :
  Js.truthy (Archivist.task_extractOnly task) = false ->
  Archivist.documents (Archivist.task_terms task) <> [] ->
  Forall (fun document =>
            exists mimeType content,
              fetch (requestOf document) = Archivist.Fetched mimeType content)
    (Archivist.documents (Archivist.task_terms task)) ->
  Archivist.trackTermsChanges (ops:=Engine.recorderOps newRecord) fetch extract settledAt
    order task st
  = (inl (Archivist.Failure
            (withoutDocumentType
               (Archivist.service_id (Archivist.service (Archivist.task_terms task))))),
     st).
Proof.
  intros Hlive Hdocuments Hfetched.
  pose proof (outcomes_fetched fetch settledAt _ Hfetched) as Hall.
  unfold Archivist.trackTermsChanges. rewrite Hlive. simpl negb. cbv iota.
  unfold Archivist.bind at 1. unfold Archivist.bind at 1.
  rewrite (fetchTermsDocuments_resolved fetch settledAt order _ st Hall).
  unfold Archivist.bind at 1.
  rewrite (all_rejected _
             (Archivist.Failure
                (withoutDocumentType
                   (Archivist.service_id (Archivist.service (Archivist.task_terms task))))));
    [done| |].
  - rewrite (resolved_all _ Hall) in Hall.
    intros Hnil. apply Hdocuments. apply length_zero_iff_nil.
    assert (Hlen : length (outcomes fetch settledAt (Archivist.task_terms task)) = 0%nat)
      by by rewrite (resolved_all _ (outcomes_fetched fetch settledAt _ Hfetched)), Hnil.
    unfold outcomes in Hlen. by rewrite length_imap in Hlen.
  - apply Forall_forall. intros p Hp.
    assert (Hin : Archivist.Resolved p ∈ outcomes fetch settledAt (Archivist.task_terms task)).
    { rewrite (resolved_all _ Hall). by apply list_elem_of_fmap_2. }
    apply list_elem_of_lookup in Hin as [i Hi].
    unfold outcomes in Hi. rewrite list_lookup_imap in Hi.
    destruct (Archivist.documents (Archivist.task_terms task) !! i) as [document|]; [|done].
    simpl in Hi. injection Hi as Hi. unfold Archivist.fetchDocument in Hi.
    destruct (fetch _) as [mimeType content|[message|e0]]; [|by destruct (Str.includes _ _)|done].
    injection Hi as <-.
    apply pipeline_recordSnapshot_rejected.
Qed.

(** X26.  The Recorder looks the latest snapshot up by service id and
    terms type: the document id the pipeline passes is not read.  So the
    snapshots loaded for a terms are the same snapshot, once per document,
    or none. *)
Theorem getTermsSnapshots_same_for_every_document (terms : Archivist.Terms)
    (st : Archivist.state Recorder.error (Recorder.state V S)) :
  Archivist.getTermsSnapshots (ops:=Engine.recorderOps newRecord) terms st
  = (inr match Recorder.getLatestSnapshot
                 (Js.Str (Archivist.service_id (Archivist.service terms)))
                 (Js.Str (Archivist.termsType terms)) (Archivist.recorder st) with
         | Some snapshot => replicate (length (Archivist.documents terms)) snapshot
         | None => []
         end, st).
Proof.
  unfold Archivist.getTermsSnapshots.
  cbn [Archivist.recorder_getLatestSnapshot Engine.recorderOps].
  set (latest := Recorder.getLatestSnapshot _ _ _).
  assert (Hseq : forall l : list Archivist.Document,
             Archivist.sequence
               (map (fun _ : Archivist.Document =>
                       @inr (Archivist.exn Recorder.error) _ latest) l)
             = inr (replicate (length l) latest)).
  { induction l as [|d l IH]; [done|]. simpl. by rewrite IH. }
  rewrite Hseq. f_equal. f_equal.
  destruct latest as [snapshot|];
    induction (length (Archivist.documents terms)) as [|n IH]; simpl; try done.
  f_equal. exact IH.
Qed.

End PipelineOnRecorder.

Lemma recordSnapshot_one_event_each_witness :
  length [Some "5a17e0"; Some "5a17e1"] = length Examples.fetchedBoth
  /\ Archivist.trackingQueue Examples.recorded = Archivist.trackingQueue Examples.fresh
  /\ exists evs,
      Archivist.events Examples.recorded = Archivist.events Examples.fresh ++ evs
      /\ length evs = length Examples.fetchedBoth.
Proof.
  destruct (recordSnapshot_one_event_each (ops:=Examples.memoryRecorder)
              Examples.fetchedBoth Examples.fresh Examples.recorded
              [Some "5a17e0"; Some "5a17e1"])
    as (Hlen & Hqueue & evs & Hevs & Hcount & _).
  - vm_compute. reflexivity.
  - split; [exact Hlen|]. split; [exact Hqueue|]. exists evs. split; [exact Hevs | exact Hcount].
Defined.

Lemma trackAllTermsChanges_undeclared_witness :
  Archivist.trackAllTermsChanges Examples.declarations (fun l => l)
    (Some ["service"; "unknown"]) None Js.Undefined Examples.idle
  = None.
Proof.
  apply (proj2 (trackAllTermsChanges_undeclared Examples.declarations (fun l => l)
                  ["service"; "unknown"] 0%Z)).
  exists "unknown". split; [right; left; reflexivity | reflexivity].
Defined.

Lemma forEachTermsOf_scheduled_witness :
  In (Examples.termsOf "service" "Privacy Policy")
    [Examples.termsOf "service" "Privacy Policy"]
  <-> exists id decl termsType,
        In id ["service"]
        /\ Archivist.lookupService Examples.declarations id = Some decl
        /\ In termsType (Archivist.getTermsTypes decl)
        /\ (["Privacy Policy"; "Imprint"] = [] \/ In termsType ["Privacy Policy"; "Imprint"])
        /\ Examples.termsOf "service" "Privacy Policy" = Archivist.getTerms decl termsType.
Proof.
  apply (proj2 (forEachTermsOf_scheduled Examples.declarations (fun l => l) ["service"]
                  ["Privacy Policy"; "Imprint"]
                  [Examples.termsOf "service" "Privacy Policy"] eq_refl)).
Defined.

Lemma live_run_rejected_witness :
  Archivist.trackTermsChanges
    (ops:=Engine.recorderOps (versions:=Examples.answeringRepository)
            (snapshots:=Examples.answeringRepository) (fun fields => fields))
    Examples.fetchAll Examples.extractText Examples.settledAt [0; 1]%nat Examples.liveTask
    Examples.onRecorder
  = (inl (Archivist.Failure Recorder.DocumentTypeRequired), Examples.onRecorder).
Proof.
  apply (live_run_rejected (versions:=Examples.answeringRepository)
           (snapshots:=Examples.answeringRepository) (fun fields => fields)
           Examples.fetchAll Examples.extractText Examples.settledAt [0; 1]%nat
           Examples.liveTask Examples.onRecorder).
  - reflexivity.
  - discriminate.
  - constructor; [by eexists _, _|]. constructor; [by eexists _, _|]. constructor.
Defined.
